(** * Smart City Planner: the City model (src/engine/CityModel.js)

    A shallow embedding of the [CityModel] class: the zoned grid, the zone
    distribution, the derived statistics, the undo/redo history, the
    procedural layout generator and import/export.

    Conventions of the embedding.
    - A JavaScript Number that the code keeps integer-valued is an [option Z];
      a ratio is an [option Q].  [None] is NaN: every arithmetic operator
      propagates it and every comparison with it is false.  Reading a missing
      property gives [undefined], which arithmetic turns into NaN, so a
      missing count is read as [None] too.  Ratios are computed exactly.
    - Objects used as dictionaries are finite maps on their own keys.
    - A method is a function from the City to an [outcome]: normal return,
      an exception escaping with the state reached so far, or a loop that
      never exits.
    - [constants.js] and [helpers.js] are not part of the sources at hand.
      The tables [ZONE_TYPES] and [CITY_SIZES] and the scoring function
      [calculateSustainabilityScore] are section variables. *)

From Stdlib Require Import ZArith QArith Qround Lia Lqa.
From stdpp Require Import base option list gmap strings pretty.

Local Open Scope string_scope.
Local Open Scope list_scope.
Local Open Scope Z_scope.

(** ** Numbers *)

Abbreviation num := (option Z).
Abbreviation qnum := (option Q).

Definition lift2 {A : Type} (f : A -> A -> A) (a b : option A) : option A :=
  match a, b with
  | Some x, Some y => Some (f x y)
  | _, _ => None
  end.

Definition lit (z : Z) : qnum := Some (inject_Z z).
Definition frac (q : Q) : qnum := Some q.
Definition toQ (a : num) : qnum :=
  match a with Some z => Some (inject_Z z) | None => None end.

Declare Scope js_scope.
Delimit Scope js_scope with js.
Notation "a + b" := (lift2 Qplus a b) : js_scope.
Notation "a - b" := (lift2 Qminus a b) : js_scope.
Notation "a * b" := (lift2 Qmult a b) : js_scope.
Notation "a / b" := (lift2 Qdiv a b) : js_scope.

Definition Qltb (x y : Q) : bool := negb (Qle_bool y x).

(** [a < b] and [a > 0]: false as soon as NaN is involved. *)
Definition lt (a b : qnum) : bool :=
  match a, b with
  | Some x, Some y => Qltb x y
  | _, _ => false
  end.
Definition gt0 (a : qnum) : bool := lt (lit 0) a.

(** [Math.round]: the nearest integer, halves towards plus infinity. *)
Definition Math_round (a : qnum) : num :=
  match a with
  | Some q => Some (Qfloor (q + (1 # 2)))
  | None => None
  end.

Definition Math_max (a b : num) : num := lift2 Z.max a b.
Definition Math_min (a b : num) : num := lift2 Z.min a b.

(** [x++] and [x--] on a property that may be missing. *)
Definition incr (a : num) : num := lift2 Z.add a (Some 1).
Definition decr (a : num) : num := lift2 Z.sub a (Some 1).

(** ** Data model *)

Abbreviation Id := nat.

Record Zone := mkZone { zoneType : string; zoneId : Id }.

Abbreviation Grid := (list (list Zone)).

Abbreviation Distribution := (gmap string num).

Record Stats := mkStats {
  population : num;
  energyConsumption : num;
  carbonFootprint : num;
  greenCoverage : num;
  transitScore : num;
  walkability : num;
  airQuality : num;
  energyEfficiency : num;
  sustainabilityScore : num
}.

Record Snapshot := mkSnapshot {
  snapGrid : Grid;
  snapDistribution : Distribution;
  snapStats : Stats
}.

(** The fields of a [CityModel] instance.  [roads] and [transitLines] are
    assigned once in the constructor and never read; they are left out.
    [distribution] is [None] when the property holds [undefined], which only
    [importData] can cause.  [idSupply] and [drawCount] are not JavaScript
    fields: they record how many identities [generateId] has handed out and
    how many numbers [Math.random] has produced. *)
Record City := mkCity {
  cityId : Id;
  name : string;
  size : string;
  gridSize : Z;
  targetPopulation : Z;
  grid : Grid;
  stats : Stats;
  distribution : option Distribution;
  history : list Snapshot;
  historyIndex : Z;
  idSupply : nat;
  drawCount : nat
}.

Definition set_cityId (v : Id) (c : City) : City :=
  mkCity v (name c) (size c) (gridSize c) (targetPopulation c) (grid c)
    (stats c) (distribution c) (history c) (historyIndex c) (idSupply c)
    (drawCount c).
Definition set_name (v : string) (c : City) : City :=
  mkCity (cityId c) v (size c) (gridSize c) (targetPopulation c) (grid c)
    (stats c) (distribution c) (history c) (historyIndex c) (idSupply c)
    (drawCount c).
Definition set_size (v : string) (c : City) : City :=
  mkCity (cityId c) (name c) v (gridSize c) (targetPopulation c) (grid c)
    (stats c) (distribution c) (history c) (historyIndex c) (idSupply c)
    (drawCount c).
Definition set_gridSize (v : Z) (c : City) : City :=
  mkCity (cityId c) (name c) (size c) v (targetPopulation c) (grid c)
    (stats c) (distribution c) (history c) (historyIndex c) (idSupply c)
    (drawCount c).
Definition set_targetPopulation (v : Z) (c : City) : City :=
  mkCity (cityId c) (name c) (size c) (gridSize c) v (grid c)
    (stats c) (distribution c) (history c) (historyIndex c) (idSupply c)
    (drawCount c).
Definition set_grid (v : Grid) (c : City) : City :=
  mkCity (cityId c) (name c) (size c) (gridSize c) (targetPopulation c) v
    (stats c) (distribution c) (history c) (historyIndex c) (idSupply c)
    (drawCount c).
Definition set_stats (v : Stats) (c : City) : City :=
  mkCity (cityId c) (name c) (size c) (gridSize c) (targetPopulation c)
    (grid c) v (distribution c) (history c) (historyIndex c) (idSupply c)
    (drawCount c).
Definition set_distribution (v : option Distribution) (c : City) : City :=
  mkCity (cityId c) (name c) (size c) (gridSize c) (targetPopulation c)
    (grid c) (stats c) v (history c) (historyIndex c) (idSupply c)
    (drawCount c).
Definition set_history (v : list Snapshot) (c : City) : City :=
  mkCity (cityId c) (name c) (size c) (gridSize c) (targetPopulation c)
    (grid c) (stats c) (distribution c) v (historyIndex c) (idSupply c)
    (drawCount c).
Definition set_historyIndex (v : Z) (c : City) : City :=
  mkCity (cityId c) (name c) (size c) (gridSize c) (targetPopulation c)
    (grid c) (stats c) (distribution c) (history c) v (idSupply c)
    (drawCount c).
Definition set_idSupply (v : nat) (c : City) : City :=
  mkCity (cityId c) (name c) (size c) (gridSize c) (targetPopulation c)
    (grid c) (stats c) (distribution c) (history c) (historyIndex c) v
    (drawCount c).
Definition set_drawCount (v : nat) (c : City) : City :=
  mkCity (cityId c) (name c) (size c) (gridSize c) (targetPopulation c)
    (grid c) (stats c) (distribution c) (history c) (historyIndex c)
    (idSupply c) v.

(** ** Outcomes of a method call *)

Inductive outcome (A : Type) : Type :=
| Ret (a : A) (c : City)
| Throw (c : City)
| Diverge.
Arguments Ret {A} a c.
Arguments Throw {A} c.
Arguments Diverge {A}.

Definition M (A : Type) : Type := City -> outcome A.

Definition ret {A : Type} (a : A) : M A := fun c => Ret a c.

Definition bind {A B : Type} (m : M A) (f : A -> M B) : M B :=
  fun c =>
    match m c with
    | Ret a c' => f a c'
    | Throw c' => Throw c'
    | Diverge => Diverge
    end.

Notation "x <~ m ;; k" := (bind m (fun x => k))
  (at level 100, m at next level, right associativity).
Notation "m ;;; k" := (bind m (fun _ => k))
  (at level 100, right associativity).

Definition modify (f : City -> City) : M unit := fun c => Ret tt (f c).

(** [for (const v of l) body(v)] *)
Fixpoint for_each {X : Type} (l : list X) (body : X -> M unit) : M unit :=
  match l with
  | [] => ret tt
  | v :: l' => body v ;;; for_each l' body
  end.

(** The values of [v] in [for (let v = start; v < bound; v += step)] when
    [step] is positive. *)
Definition strides (start step bound : Z) : list Z :=
  (fun i => start + i * step) <$>
    seqZ 0 (if bound <=? start then 0 else (bound - start + step - 1) / step).

(** [for (let v = start; v < bound; v += step) body(v)].  With a step that
    is not positive the loop variable never reaches the bound.  The steps of
    this program are [floor(gridSize / k)] with [start = step], so such a
    step is 0 and every iteration runs the body at [start]; the bodies are
    runs of [setZone] with fixed arguments, which change nothing from the
    second time on.  So the first iteration runs, and once it has returned
    the loop goes on forever. *)
Definition for_stride (start step bound : Z) (body : Z -> M unit) : M unit :=
  if bound <=? start then ret tt
  else if step <=? 0 then (body start ;;; fun _ => Diverge)
  else for_each (strides start step bound) body.

(** The value a call returns. *)
Definition result {A : Type} (o : outcome A) : option A :=
  match o with
  | Ret a _ => Some a
  | _ => None
  end.

(** The state a call leaves behind when it returns normally. *)
Definition returned {A : Type} (o : outcome A) : option City :=
  match o with
  | Ret _ c => Some c
  | _ => None
  end.

Definition try_catch {A : Type} (body handler : M A) : M A :=
  fun c =>
    match body c with
    | Ret a c' => Ret a c'
    | Throw c' => handler c'
    | Diverge => Diverge
    end.

(** [a[i]] for an integer index: [undefined] outside the array. *)
Definition at_index {A : Type} (l : list A) (i : Z) : option A :=
  if i <? 0 then None else l !! Z.to_nat i.

(** [a.slice(0, e)]: a negative [e] counts from the end. *)
Definition slice0 {A : Type} (e : Z) (l : list A) : list A :=
  if e <? 0 then take (Z.to_nat (Z.of_nat (length l) + e)) l
  else take (Z.to_nat e) l.

(** ** The tables of constants.js *)

Record ZoneInfo := mkZoneInfo { zonePopulation : Z; zoneEnergy : Z }.
Record SizeConfig := mkSizeConfig { sizeGrid : Z; sizePopulation : Z }.

(** The argument of the constructor: a size key or a numeric grid size. *)
Inductive SizeArg :=
| SizeKey (key : string)
| SizeNumber (n : Z).

(** The parameter object of [generateLayout]; a missing ratio takes the
    default of the destructuring pattern. *)
Record LayoutParams := mkLayoutParams {
  residentialRatio : option Q;
  commercialRatio : option Q;
  industrialRatio : option Q;
  greenRatio : option Q;
  transitRatio : option Q;
  roadRatio : option Q
}.

(** The argument of [importData].  The payload itself may be [null]
    ([None] at the call); a property that is missing is [None].  An
    identity that is present is a truthy value.  [grid] is taken to be an
    array of rows of zones, of any shape. *)
Record Payload := mkPayload {
  dataId : option Id;
  dataName : option string;
  dataSize : option string;
  dataGridSize : option Z;
  dataGrid : Grid;
  dataDistribution : option Distribution
}.

(** The object built by [exportData], without its time stamp. *)
Record Export := mkExport {
  exportId : Id;
  exportName : string;
  exportSize : string;
  exportGridSize : Z;
  exportGrid : Grid;
  exportStats : Stats;
  exportDistribution : option Distribution
}.

(** The constructor's literals. *)
Definition initialStats : Stats :=
  mkStats (Some 0) (Some 0) (Some 0) (Some 0) (Some 50) (Some 50) (Some 70)
    (Some 60) (Some 50).

Definition emptyDistribution (n : Z) : Distribution :=
  <["empty" := Some (n * n)]> (<["residential" := Some 0]>
  (<["commercial" := Some 0]> (<["industrial" := Some 0]>
  (<["green" := Some 0]> (<["transit" := Some 0]>
  (<["road" := Some 0]> ∅)))))).

(** The object the constructor starts from: no field is read before the
    constructor assigns it. *)
Definition blank (supply : nat) : City :=
  mkCity 0%nat "" "" 0 0 [] initialStats None [] 0 supply 0%nat.

(** Modelled from the spec: constants.js is absent.  The seven zone types of
    the constructor's distribution, [empty] and [road] with population and
    energy 0; the other coefficients only serve the worked examples, no
    general statement depends on them.  The three size classes use the grid
    sizes and target populations that the constructor and the application
    pair with them. *)
Definition sampleZoneTypes : gmap string ZoneInfo :=
  <["empty" := mkZoneInfo 0 0]> (<["residential" := mkZoneInfo 100 50]>
  (<["commercial" := mkZoneInfo 50 100]> (<["industrial" := mkZoneInfo 20 200]>
  (<["green" := mkZoneInfo 0 5]> (<["transit" := mkZoneInfo 0 30]>
  (<["road" := mkZoneInfo 0 0]> ∅)))))).

Definition sampleCitySizes : gmap string SizeConfig :=
  <["small" := mkSizeConfig 60 100000]> (<["medium" := mkSizeConfig 100 500000]>
  (<["large" := mkSizeConfig 140 2000000]> ∅)).

(** Modelled from the spec: [calculateSustainabilityScore] of helpers.js is
    absent; the spec fixes only that it is a function of the distribution
    with values in [0, 100].  The examples use the constant 50. *)
Definition sampleScore (d : Distribution) : num := Some 50.

(** Reading a count: a missing property is [undefined]. *)
Definition count (d : Distribution) (k : string) : num := mjoin (d !! k).

Section CityModel.

Variable ZONE_TYPES : gmap string ZoneInfo.
Variable CITY_SIZES : gmap string SizeConfig.
Variable calculateSustainabilityScore : Distribution -> num.

(** *** helpers.js *)

(** Modelled from the spec: [generateId] of helpers.js is absent.  Zones get
    "a new identity" on every change; identities are numbered in the order
    in which they are handed out, so no two calls return the same one. *)
Definition generateId : M Id :=
  fun c => Ret (idSupply c) (set_idSupply (S (idSupply c)) c).

Fixpoint replicateM {A : Type} (n : nat) (m : M A) : M (list A) :=
  match n with
  | O => ret []
  | S k => v <~ m ;; vs <~ replicateM k m ;; ret (v :: vs)
  end.

(** Modelled from the spec: [create2DArray] of helpers.js is absent.  It
    builds [rows] rows of [cols] cells and calls [fn] once per cell, row by
    row; a number of rows or of cells that is not positive gives none. *)
Definition create2DArray {A : Type} (rows cols : Z) (fn : M A) : M (list (list A)) :=
  replicateM (Z.to_nat rows) (replicateM (Z.to_nat cols) fn).

(** Modelled from the spec: [deepClone] of helpers.js is absent.  History
    snapshots are deep copies that later mutation of the working grid cannot
    reach; on values a deep copy is the value itself. *)
Definition deepClone (g : Grid) : Grid := g.

Definition emptyZone : M Zone := i <~ generateId ;; ret (mkZone "empty" i).

(** *** calculateStats *)

(** [Object.entries(distribution).reduce((sum, [type, count]) =>
    sum + (ZONE_TYPES[type]?.f || 0) * count, 0)] *)
Definition sumOver (f : ZoneInfo -> Z) (d : Distribution) : num :=
  map_fold (fun type cnt sum =>
              lift2 Z.add sum (lift2 Z.mul (Some (default 0 (f <$> ZONE_TYPES !! type))) cnt))
           (Some 0) d.

Definition clamp (v : num) : num := Math_min (Some 100) (Math_max (Some 0) v).

Definition statsOf (n : Z) (d : Distribution) : Stats :=
  let totalCells := n * n in
  let builtCells := (lit totalCells - toQ (count d "empty"))%js in
  let green := toQ (count d "green") in
  let transit := toQ (count d "transit") in
  let residential := toQ (count d "residential") in
  let industrial := toQ (count d "industrial") in
  let commercial := toQ (count d "commercial") in
  let population_ := sumOver zonePopulation d in
  let energyConsumption_ := sumOver zoneEnergy d in
  let greenCoverage_ :=
    if gt0 builtCells then Math_round ((green / builtCells) * lit 100)%js
    else Some 0 in
  let transitRatio_ := if gt0 builtCells then (transit / builtCells)%js else lit 0 in
  let residentialRatio_ :=
    if gt0 builtCells then (residential / builtCells)%js else lit 0 in
  let transitScore_ :=
    clamp (Math_round (lit 50 + transitRatio_ * lit 200 - residentialRatio_ * lit 30)%js) in
  let greenBonus := (toQ greenCoverage_ * frac (1 # 2))%js in
  let transitBonus := (transitRatio_ * lit 50)%js in
  let industrialPenalty :=
    if gt0 builtCells then ((industrial / builtCells) * lit 30)%js else lit 0 in
  let walkability_ :=
    clamp (Math_round (lit 50 + greenBonus + transitBonus - industrialPenalty)%js) in
  let greenAirBonus := (toQ greenCoverage_ * frac (8 # 10))%js in
  let industrialAirPenalty :=
    if gt0 builtCells then ((industrial / builtCells) * lit 50)%js else lit 0 in
  let transitAirBonus := (transitRatio_ * lit 20)%js in
  let airQuality_ :=
    clamp (Math_round (lit 60 + greenAirBonus + transitAirBonus - industrialAirPenalty)%js) in
  let renewableBonus := (toQ greenCoverage_ * frac (3 # 10))%js in
  let industrialEnergyPenalty :=
    if gt0 builtCells then ((industrial / builtCells) * lit 20)%js else lit 0 in
  let energyEfficiency_ :=
    clamp (Math_round (lit 60 + renewableBonus - industrialEnergyPenalty)%js) in
  let industrialCarbon := (industrial * lit 10)%js in
  let commercialCarbon := (commercial * lit 5)%js in
  let greenOffset := (green * lit 8)%js in
  let transitOffset := (transit * lit 4)%js in
  let netCarbon := (industrialCarbon + commercialCarbon - greenOffset - transitOffset)%js in
  let maxCarbon := (builtCells * lit 5)%js in
  let carbonFootprint_ :=
    if gt0 maxCarbon then Math_round ((netCarbon / maxCarbon) * lit 100)%js
    else Some 0 in
  mkStats population_ energyConsumption_ carbonFootprint_ greenCoverage_
    transitScore_ walkability_ airQuality_ energyEfficiency_
    (calculateSustainabilityScore d).

(** [this.distribution.empty] throws when the distribution is [undefined],
    before any statistic has been written. *)
Definition calculateStats : M unit :=
  fun c =>
    match distribution c with
    | None => Throw c
    | Some d => Ret tt (set_stats (statsOf (gridSize c) d) c)
    end.

(** *** setZone, getZone, fillArea *)

Definition outOfRange (x y : Z) (c : City) : bool :=
  (x <? 0) || (gridSize c <=? x) || (y <? 0) || (gridSize c <=? y).

(** [this.grid[y][x]], for [y] and [x] that are not negative. *)
Definition cellAt (g : Grid) (x y : Z) : option Zone :=
  row ← at_index g y; at_index row x.

Definition inCatalog (type : string) : bool :=
  bool_decide (is_Some (ZONE_TYPES !! type)).

(** [distribution[oldType]--; distribution[type]++] *)
Definition moveCount (oldType type : string) (d : Distribution) : Distribution :=
  let d1 := <[oldType := decr (count d oldType)]> d in
  <[type := incr (count d1 type)]> d1.

(** [grid[y][x] = z], for a cell that exists. *)
Definition replaceCell (x y : Z) (z : Zone) (g : Grid) : Grid :=
  alter (fun row => <[Z.to_nat x := z]> row) (Z.to_nat y) g.

Definition setZone (x y : Z) (type : string) : M unit :=
  fun c =>
    if outOfRange x y c then Ret tt c
    else if negb (inCatalog type) then Ret tt c
    else
      match cellAt (grid c) x y with
      | None => Throw c
      | Some old =>
        let oldType := zoneType old in
        if String.eqb oldType type then Ret tt c
        else
          match distribution c with
          | None => Throw c
          | Some d =>
            (modify (set_distribution (Some (moveCount oldType type d))) ;;;
             i <~ generateId ;;
             modify (fun c' => set_grid (replaceCell x y (mkZone type i) (grid c')) c') ;;;
             calculateStats) c
          end
      end.

(** The result is [None] for [null] and for an [undefined] cell. *)
Definition getZone (x y : Z) : M (option Zone) :=
  fun c =>
    if outOfRange x y c then Ret None c
    else
      match at_index (grid c) y with
      | None => Throw c
      | Some row => Ret (at_index row x) c
      end.

(** *** History *)

Definition snapshot (c : City) : Snapshot :=
  mkSnapshot (deepClone (grid c)) (default ∅ (distribution c)) (stats c).

Definition saveState : M unit :=
  fun c =>
    let kept := slice0 (historyIndex c + 1) (history c) in
    let pushed := kept ++ [snapshot c] in
    let index := Z.of_nat (length pushed) - 1 in
    if 50 <? Z.of_nat (length pushed)
    then Ret tt (set_historyIndex (index - 1) (set_history (drop 1 pushed) c))
    else Ret tt (set_historyIndex index (set_history pushed c)).

Definition restore (state : Snapshot) (c : City) : City :=
  set_stats (snapStats state)
    (set_distribution (Some (snapDistribution state))
      (set_grid (deepClone (snapGrid state)) c)).

(** Shared by [undo] and [redo]: move the cursor, then read the snapshot
    under it; [state.grid] throws when there is none. *)
Definition moveTo (index : Z) : M bool :=
  fun c =>
    let c' := set_historyIndex index c in
    match at_index (history c') index with
    | None => Throw c'
    | Some state => Ret true (restore state c')
    end.

Definition undo : M bool :=
  fun c =>
    if historyIndex c <=? 0 then Ret false c
    else moveTo (historyIndex c - 1) c.

Definition redo : M bool :=
  fun c =>
    if Z.of_nat (length (history c)) - 1 <=? historyIndex c then Ret false c
    else moveTo (historyIndex c + 1) c.

Definition fillArea (x1 y1 x2 y2 : Z) (type : string) : M unit :=
  let minX := Z.min x1 x2 in
  let maxX := Z.max x1 x2 in
  let minY := Z.min y1 y2 in
  let maxY := Z.max y1 y2 in
  for_each (seqZ minY (maxY - minY + 1)) (fun y =>
    for_each (seqZ minX (maxX - minX + 1)) (fun x =>
      setZone x y type)) ;;;
  saveState.

(** *** clear and generateLayout *)

(** The two initialisations that the constructor and [clear] share:
    [this.grid = create2DArray(...)] and [this.distribution = {...}]. *)
Definition resetGrid : M unit :=
  fun c =>
    (g <~ create2DArray (gridSize c) (gridSize c) emptyZone ;;
     modify (set_grid g)) c.

Definition resetDistribution : M unit :=
  fun c => Ret tt (set_distribution (Some (emptyDistribution (gridSize c))) c).

Definition clear : M unit :=
  resetGrid ;;;
  resetDistribution ;;;
  calculateStats.

Definition generateRoadNetwork : M unit :=
  fun c =>
    let n := gridSize c in
    let spacing := n / 8 in
    let center := n / 2 in
    (for_stride spacing spacing n (fun y =>
       for_each (seqZ 0 n) (fun x => setZone x y "road")) ;;;
     for_stride spacing spacing n (fun x =>
       for_each (seqZ 0 n) (fun y => setZone x y "road")) ;;;
     for_each (seqZ (-2) 5) (fun i =>
       for_each (seqZ 0 n) (fun j =>
         let offset := j - center in
         if (0 <=? center + offset + i) && (center + offset + i <? n)
         then setZone j (center + offset + i) "road"
         else ret tt))) c.

Definition addTransitHubs : M unit :=
  fun c =>
    let n := gridSize c in
    let spacing := n / 4 in
    (for_stride spacing spacing n (fun y =>
       for_stride spacing spacing n (fun x =>
         setZone x y "transit" ;;;
         setZone (x + 1) y "transit" ;;;
         setZone x (y + 1) "transit" ;;;
         setZone (x + 1) (y + 1) "transit"))) c.

(** [Math.sqrt((x - center) ** 2 + (y - center) ** 2) / (center * 1.4) > t]
    for a positive threshold [t], decided exactly on the squares.  With
    [center = 0] the quotient is NaN at distance 0 and infinite elsewhere. *)
Definition normalizedDistAbove (x y center : Z) (t : Q) : bool :=
  let d2 := (x - center) * (x - center) + (y - center) * (y - center) in
  if 0 <? center then
    let bound := (t * (14 # 10) * inject_Z center)%Q in
    Qltb (bound * bound) (inject_Z d2)
  else if center =? 0 then 0 <? d2
  else false.

Definition pickZone (params : LayoutParams) (x y center : Z) (rand : Q) : string :=
  let residentialRatio_ := default (35 # 100) (residentialRatio params) in
  let commercialRatio_ := default (15 # 100) (commercialRatio params) in
  let greenRatio_ := default (25 # 100) (greenRatio params) in
  let transitRatio_ := default (8 # 100) (transitRatio params) in
  (if normalizedDistAbove x y center (9 # 10) then
     if Qltb rand (4 # 10) then "green"
     else if Qltb rand (6 # 10) then "industrial"
     else "empty"
   else if normalizedDistAbove x y center (6 # 10) then
     if Qltb rand (residentialRatio_ * (15 # 10)) then "residential"
     else if Qltb rand (residentialRatio_ * (15 # 10) + greenRatio_) then "green"
     else "empty"
   else if normalizedDistAbove x y center (3 # 10) then
     if Qltb rand residentialRatio_ then "residential"
     else if Qltb rand (residentialRatio_ + commercialRatio_) then "commercial"
     else if Qltb rand (residentialRatio_ + commercialRatio_ + greenRatio_ * (5 # 10))
     then "green"
     else "empty"
   else
     if Qltb rand (commercialRatio_ * 2) then "commercial"
     else if Qltb rand (commercialRatio_ * 2 + transitRatio_ * 2) then "transit"
     else if Qltb rand (commercialRatio_ * 2 + transitRatio_ * 2 + greenRatio_ * (3 # 10))
     then "green"
     else "empty")%Q.

(** [Math.random()]: the next number of the sequence [random]. *)
Definition Math_random (random : nat -> Q) : M Q :=
  fun c => Ret (random (drawCount c)) (set_drawCount (S (drawCount c)) c).

Definition zoneCell (random : nat -> Q) (params : LayoutParams) (x y : Z) : M unit :=
  fun c =>
    match cellAt (grid c) x y with
    | None => Throw c
    | Some z =>
      if negb (String.eqb (zoneType z) "empty") then Ret tt c
      else
        (rand <~ Math_random random ;;
         let zoneType_ := pickZone params x y (gridSize c / 2) rand in
         if negb (String.eqb zoneType_ "empty") then setZone x y zoneType_
         else ret tt) c
    end.

Definition generateLayout (random : nat -> Q) (params : LayoutParams) : M unit :=
  fun c =>
    (clear ;;;
     generateRoadNetwork ;;;
     for_each (seqZ 0 (gridSize c)) (fun y =>
       for_each (seqZ 0 (gridSize c)) (fun x =>
         zoneCell random params x y)) ;;;
     addTransitHubs ;;;
     calculateStats ;;;
     saveState) c.

(** *** Export and import *)

Definition exportData (c : City) : Export :=
  mkExport (cityId c) (name c) (size c) (gridSize c) (grid c) (stats c)
    (distribution c).

(** [v || fallback] on a string that may be missing. *)
Definition orString (v : option string) (fallback : string) : string :=
  match v with
  | Some s => if String.eqb s "" then fallback else s
  | None => fallback
  end.

(** [this.gridSize = data.gridSize || CITY_SIZES[this.size].grid]: the
    table is consulted when [data.gridSize] is missing or 0, and reading
    [.grid] of a missing entry throws. *)
Definition importGridSize (data : Payload) : M unit :=
  fun c =>
    let fromTable :=
      match CITY_SIZES !! size c with
      | Some cfg => Ret tt (set_gridSize (sizeGrid cfg) c)
      | None => Throw c
      end in
    match dataGridSize data with
    | Some n => if n =? 0 then fromTable else Ret tt (set_gridSize n c)
    | None => fromTable
    end.

Definition importBody (data : option Payload) : M bool :=
  fun c =>
    match data with
    | None => Throw c
    | Some data =>
      (i <~ match dataId data with
            | Some i => ret i
            | None => generateId
            end ;;
       modify (set_cityId i) ;;;
       modify (set_name (orString (dataName data) "Imported City")) ;;;
       modify (set_size (orString (dataSize data) "medium")) ;;;
       importGridSize data ;;;
       modify (set_grid (dataGrid data)) ;;;
       modify (set_distribution (dataDistribution data)) ;;;
       calculateStats ;;;
       saveState ;;;
       ret true) c
    end.

Definition importData (data : option Payload) : M bool :=
  try_catch (importBody data) (ret false).

(** *** The constructor *)

(** The branch on [typeof size]. *)
Definition assignSize (size_ : SizeArg) : M unit :=
  match size_ with
  | SizeNumber n =>
    modify (set_size (if n <=? 60 then "small"
                      else if n <=? 100 then "medium" else "large")) ;;;
    modify (set_gridSize n) ;;;
    modify (set_targetPopulation (if n <=? 60 then 100000
                                  else if n <=? 100 then 500000 else 2000000))
  | SizeKey key =>
    modify (set_size key) ;;;
    sizeConfig <~ (fun c =>
      match CITY_SIZES !! key with
      | Some cfg => Ret cfg c
      | None =>
        match CITY_SIZES !! "medium" with
        | Some cfg => Ret cfg c
        | None => Throw c
        end
      end) ;;
    modify (set_gridSize (sizeGrid sizeConfig)) ;;;
    modify (set_targetPopulation (sizePopulation sizeConfig))
  end.

Definition constructor (size_ : SizeArg) : M unit :=
  i <~ generateId ;;
  modify (set_cityId i) ;;;
  modify (set_name "New City") ;;;
  assignSize size_ ;;;
  resetGrid ;;;
  modify (set_stats initialStats) ;;;
  resetDistribution ;;;
  modify (set_history []) ;;;
  modify (set_historyIndex (-1)) ;;;
  saveState.

(** [new CityModel(size)], when the constructor returns. *)
Definition newCity (size_ : SizeArg) (supply : nat) : option City :=
  returned (constructor size_ (blank supply)).

(** *** Call sequences *)

(** The operations of the Grid Model, as a caller issues them. *)
Inductive Call :=
| CallSetZone (x y : Z) (type : string)
| CallFillArea (x1 y1 x2 y2 : Z) (type : string)
| CallClear
| CallGenerateLayout (random : nat -> Q) (params : LayoutParams)
| CallSaveState
| CallUndo
| CallRedo.

Definition perform (call : Call) : M unit :=
  match call with
  | CallSetZone x y type => setZone x y type
  | CallFillArea x1 y1 x2 y2 type => fillArea x1 y1 x2 y2 type
  | CallClear => clear
  | CallGenerateLayout random params => generateLayout random params
  | CallSaveState => saveState
  | CallUndo => undo ;;; ret tt
  | CallRedo => redo ;;; ret tt
  end.

Definition isHistoryCall (call : Call) : Prop :=
  match call with
  | CallSaveState | CallUndo | CallRedo => True
  | _ => False
  end.

(** A City the constructor built and a sequence of calls then led to. *)
Definition reachable (c : City) : Prop :=
  exists size_ supply c0 calls,
    newCity size_ supply = Some c0 /\ for_each calls perform c0 = Ret tt c.

(** [n] calls of [undo] in a row, whatever each of them returns. *)
Definition undoTimes (n : nat) : M unit :=
  for_each (replicate n CallUndo) perform.

(** ** Predicates on states *)

Definition zoneKeys : list string :=
  ["empty"; "residential"; "commercial"; "industrial"; "green"; "transit"; "road"].

Definition rowCount (type : string) (row : list Zone) : Z :=
  Z.of_nat (length (filter (fun z => zoneType z = type) row)).

(** The number of cells of a type. *)
Definition countType (type : string) (g : Grid) : Z :=
  foldr (fun row acc => rowCount type row + acc) 0 g.

(** [Σ distribution.values()] *)
Definition sumValues (d : Distribution) : num :=
  map_fold (fun _ v acc => lift2 Z.add acc v) (Some 0) d.

Definition squareGrid (n : Z) (g : Grid) : Prop :=
  length g = Z.to_nat n /\ Forall (fun row => length row = Z.to_nat n) g.

Definition countsMatch (d : Distribution) (g : Grid) : Prop :=
  Forall (fun k => d !! k = Some (Some (countType k g))) zoneKeys.

Definition idsBelow (supply : nat) (g : Grid) : Prop :=
  Forall (Forall (fun z => (zoneId z < supply)%nat)) g.

Definition percent (v : num) : Prop :=
  match v with
  | Some z => 0 <= z <= 100
  | None => False
  end.

Definition boundedStats (st : Stats) : Prop :=
  percent (transitScore st) /\ percent (walkability st) /\
  percent (airQuality st) /\ percent (energyEfficiency st) /\
  percent (greenCoverage st) /\ percent (sustainabilityScore st).

(** The cursor points into a history that is not empty and not longer than
    the cap. *)
Definition cursorValid (c : City) : Prop :=
  0 <= historyIndex c < Z.of_nat (length (history c)) /\
  (length (history c) <= 50)%nat.

(** The live grid, distribution and stats are those recorded under the
    cursor: nothing was edited since that snapshot was taken or restored. *)
Definition synced (c : City) : Prop :=
  at_index (history c) (historyIndex c) = Some (snapshot c) /\
  is_Some (distribution c).

Definition gridOk (n : Z) (supply : nat) (g : Grid) (d : Distribution) : Prop :=
  squareGrid n g /\ countsMatch d g /\ idsBelow supply g.

(** The grid is [gridSize] by [gridSize], the distribution counts its cells
    type by type, and every identity in it has been handed out. *)
Definition consistent (c : City) : Prop :=
  exists d, distribution c = Some d /\
            gridOk (gridSize c) (idSupply c) (grid c) d.

(** The state a successful [setZone] leaves. *)
Definition zoneSet (x y : Z) (type : string) (old : Zone) (d : Distribution)
    (c : City) : City :=
  let d' := moveCount (zoneType old) type d in
  set_stats (statsOf (gridSize c) d')
    (set_grid (replaceCell x y (mkZone type (idSupply c)) (grid c))
      (set_idSupply (S (idSupply c))
        (set_distribution (Some d') c))).

(** The distribution with the seven keys of the literal and given counts. *)
Definition sevenCounts (f : string -> Z) : Distribution :=
  <["empty" := Some (f "empty")]> (<["residential" := Some (f "residential")]>
  (<["commercial" := Some (f "commercial")]> (<["industrial" := Some (f "industrial")]>
  (<["green" := Some (f "green")]> (<["transit" := Some (f "transit")]>
  (<["road" := Some (f "road")]> ∅)))))).

Definition sumKeys (f : string -> Z) : Z :=
  f "empty" + f "residential" + f "commercial" + f "industrial" + f "green"
  + f "transit" + f "road".

(** Every cell has one of the seven types of the distribution literal, and
    the distribution has no other key. *)
Definition typesClosed (g : Grid) : Prop :=
  Forall (Forall (fun z => zoneType z ∈ zoneKeys)) g.

Definition keysClosed (d : Distribution) : Prop :=
  forall k, is_Some (d !! k) -> k ∈ zoneKeys.

(** The counts are numbers that are not negative and add up to [n * n]. *)
Definition tallied (n : Z) (d : Distribution) : Prop :=
  sumValues d = Some (n * n) /\
  forall k v, d !! k = Some v -> exists m, v = Some m /\ 0 <= m.

(** A sequence of [setZone] calls, each with its three arguments. *)
Definition setZones (calls : list (Z * Z * string)) : M unit :=
  for_each calls (fun call => setZone call.1.1 call.1.2 call.2).

(** A grid and a distribution that go together: either the distribution
    counts the cells of a [n] by [n] grid, or [n] is negative, where the
    grid has no cell and the distribution is the literal. *)
Definition tripleOk (n : Z) (supply : nat) (g : Grid) (d : Distribution) : Prop :=
  gridOk n supply g d \/ (n < 0 /\ g = [] /\ d = emptyDistribution n).

Definition snapshotOk (good : Stats -> Prop) (n : Z) (supply : nat)
    (s : Snapshot) : Prop :=
  tripleOk n supply (snapGrid s) (snapDistribution s) /\ good (snapStats s).

(** The invariant of the Grid Model's operations: grid and distribution go
    together, live and in every snapshot, the cursor is valid, and the
    stats, live and saved, have the property [good]. *)
Definition sound (good : Stats -> Prop) (c : City) : Prop :=
  (exists d, distribution c = Some d /\
             tripleOk (gridSize c) (idSupply c) (grid c) d) /\
  good (stats c) /\
  cursorValid c /\
  Forall (snapshotOk good (gridSize c) (idSupply c)) (history c).

Definition soundAt (good : Stats -> Prop) (n : Z) (c : City) : Prop :=
  sound good c /\ gridSize c = n.

(** [m] started in a state with [P] does not throw, and if it returns, it
    returns in a state with [Q]. *)
Definition keeps {A : Type} (P : City -> Prop) (m : M A) (Q : City -> Prop) : Prop :=
  forall c, P c ->
    match m c with
    | Ret _ c' => Q c'
    | Throw _ => False
    | Diverge => True
    end.

(** [m] started in a state with [P] returns, in a state with [Q]. *)
Definition returns {A : Type} (P : City -> Prop) (m : M A) (Q : City -> Prop) : Prop :=
  forall c, P c -> exists a c', m c = Ret a c' /\ Q c'.

Definition gridAt (n : Z) (c : City) : Prop := consistent c /\ gridSize c = n.

(** ** Transit hubs *)

(** The transit cells are exactly the cells at the coordinates in [S]. *)
Definition transitExactly (S : Z -> Z -> Prop) (c : City) : Prop :=
  forall x y z, cellAt (grid c) x y = Some z -> (zoneType z = "transit" <-> S x y).

(** The 2 by 2 cluster that [addTransitHubs] writes for the intersection
    [(x0, y0)]. *)
Definition hubRect (x0 y0 x y : Z) : Prop :=
  (x = x0 \/ x = x0 + 1) /\ (y = y0 \/ y = y0 + 1).

(** [v] is a positive multiple of [floor(n / 4)] below [n]. *)
Definition hubStart (n v : Z) : bool :=
  (0 <? v) && (v <? n) && (v mod (n / 4) =? 0).

(** [v] is a coordinate that some cluster covers. *)
Definition hubCoord (n v : Z) : bool := hubStart n v || hubStart n (v - 1).

(** The number of intersections [(x, y)] with [x] and [y] positive
    multiples of [floor(n / 4)] below [n]: the choices of [x] times the
    choices of [y]. *)
Definition intersections (n : Z) : Z :=
  let m := Z.of_nat (length (filter (fun v => hubStart n v) (seqZ 0 n))) in
  m * m.

(** The number of rows, or of columns, that clusters cover. *)
Definition hubSpan (n : Z) : Z :=
  Z.of_nat (length (filter (fun v => hubCoord n v) (seqZ 0 n))).

Definition transitCells (c : City) : Z := countType "transit" (grid c).

Definition noTransit (g : Grid) : Prop :=
  Forall (Forall (fun z => zoneType z <> "transit")) g.

(** The state of [generateLayout] before [addTransitHubs]: a consistent
    [n] by [n] grid without a transit cell. *)
Definition beforeHubs (n : Z) (c : City) : Prop :=
  gridAt n c /\ noTransit (grid c).

(** The clusters of the intersections at rows [ys] and columns [xs]. *)
Definition inHubs (xs ys : list Z) (x y : Z) : Prop :=
  exists x0 y0, x0 ∈ xs /\ y0 ∈ ys /\ hubRect x0 y0 x y.

(** ** Objects and references

    [exportData] hands out the objects that the City holds, not copies.  To
    speak about that, the grid array, its row arrays, the distribution and
    the stats object live in a store and are reached through references;
    [setZone] is read once more at that level, where its three writes
    ([distribution[k]--] and [++], [grid[y][x] = ...] and the assignments of
    [calculateStats] to the fields of [this.stats]) update objects in
    place.  A zone object is never written after its creation, so zones stay
    values. *)

Abbreviation Ref := nat.

Record Store := mkStore {
  gridObjects : gmap Ref (list Ref);
  rowObjects : gmap Ref (list Zone);
  distributionObjects : gmap Ref Distribution;
  statsObjects : gmap Ref Stats
}.

(** The properties of the City that hold references, with those [setZone]
    reads besides. *)
Record CityRefs := mkCityRefs {
  gridRef : Ref;
  statsRef : Ref;
  distributionRef : Ref;
  refGridSize : Z;
  refIdSupply : nat
}.

(** The three object-valued properties of the object [exportData] returns. *)
Record ExportRefs := mkExportRefs {
  exportGridRef : Ref;
  exportStatsRef : Ref;
  exportDistributionRef : Ref
}.

(** [grid: this.grid, stats: this.stats, distribution: this.distribution] *)
Definition exportDataRefs (r : CityRefs) : ExportRefs :=
  mkExportRefs (gridRef r) (statsRef r) (distributionRef r).

(** [g[y][x]] for the grid array behind the reference [g]. *)
Definition readCell (h : Store) (g : Ref) (x y : Z) : option Zone :=
  rowRefs ← gridObjects h !! g;
  rowRef ← at_index rowRefs y;
  row ← rowObjects h !! rowRef;
  at_index row x.

(** [setZone] on the store; [None] when it throws. *)
Definition setZoneRefs (x y : Z) (type : string) (r : CityRefs) (h : Store)
    : option (Store * CityRefs) :=
  if (x <? 0) || (refGridSize r <=? x) || (y <? 0) || (refGridSize r <=? y)
  then Some (h, r)
  else if negb (inCatalog type) then Some (h, r)
  else
    rowRefs ← gridObjects h !! gridRef r;
    rowRef ← at_index rowRefs y;
    row ← rowObjects h !! rowRef;
    old ← at_index row x;
    if String.eqb (zoneType old) type then Some (h, r)
    else
      d ← distributionObjects h !! distributionRef r;
      _ ← statsObjects h !! statsRef r;
      let d' := moveCount (zoneType old) type d in
      let row' := <[Z.to_nat x := mkZone type (refIdSupply r)]> row in
      Some (mkStore (gridObjects h)
                    (<[rowRef := row']> (rowObjects h))
                    (<[distributionRef r := d']> (distributionObjects h))
                    (<[statsRef r := statsOf (refGridSize r) d']> (statsObjects h)),
            mkCityRefs (gridRef r) (statsRef r) (distributionRef r)
                       (refGridSize r) (S (refIdSupply r))).

(** The grid behind a reference, as a value. *)
Definition readGrid (h : Store) (g : Ref) : option Grid :=
  rowRefs ← gridObjects h !! g;
  mapM (fun rowRef => rowObjects h !! rowRef) rowRefs.

(** The City that the store and the references stand for. *)
Definition represents (h : Store) (r : CityRefs) (c : City) : Prop :=
  readGrid h (gridRef r) = Some (grid c) /\
  (exists rowRefs, gridObjects h !! gridRef r = Some rowRefs /\ NoDup rowRefs) /\
  distributionObjects h !! distributionRef r = distribution c /\
  statsObjects h !! statsRef r = Some (stats c) /\
  refGridSize r = gridSize c /\
  refIdSupply r = idSupply c.

(** ** Worked scenarios *)

(** [new CityModel(size)], and the City after a sequence of calls; for the
    scenarios below, where the constructor and every call return. *)
Definition cityOf (size_ : SizeArg) : City := default (blank 0) (newCity size_ 0).

Definition thenCalls (calls : list Call) (c : City) : City :=
  default c (returned (for_each calls perform c)).

(** A 10 by 10 City filled with residential zones. *)
Definition residentialCity : City :=
  thenCalls [CallFillArea 0 0 9 9 "residential"] (cityOf (SizeNumber 10)).

(** A 2 by 2 City with one zone set and not yet saved. *)
Definition editedCity : City :=
  thenCalls [CallSetZone 0 0 "residential"] (cityOf (SizeNumber 2)).

(** A payload with a name, an unknown size key and no grid size. *)
Definition hugePayload : Payload :=
  mkPayload None (Some "Atlantis") (Some "huge") None [] (Some ∅).

(** Layout parameters with zero industrial, commercial and transit ratios
    and the default residential and green ratios. *)
Definition quietParams : LayoutParams :=
  mkLayoutParams None (Some 0%Q) (Some 0%Q) None (Some 0%Q) None.

(** Sixty edits, each one changing a cell and each one saved. *)
Definition sixtyEdits : list Call :=
  flat_map (fun k => [CallSetZone (k mod 2) (k / 2 mod 2)
                        (if k / 4 mod 2 =? 0 then "green" else "road");
                      CallSaveState])
           (seqZ 0 60).

(** A store holding the objects of a 2 by 2 City of empty zones. *)
Definition sampleStore : Store :=
  mkStore {[ 0%nat := [1%nat; 2%nat] ]}
          (<[1%nat := [mkZone "empty" 1; mkZone "empty" 2]]>
             {[ 2%nat := [mkZone "empty" 3; mkZone "empty" 4] ]})
          {[ 3%nat := emptyDistribution 2 ]}
          {[ 4%nat := initialStats ]}.

Definition sampleRefs : CityRefs := mkCityRefs 0 4 3 2 5.


(** ** Further notions used by the properties of the model *)

(** The object that [exportData] returns, handed to [importData]: the
    properties that [importData] reads. *)
Definition exportAsPayload (e : Export) : Payload :=
  mkPayload (Some (exportId e)) (Some (exportName e)) (Some (exportSize e))
    (Some (exportGridSize e)) (exportGrid e) (exportDistribution e).

(** The cells that [fillArea(x1, y1, x2, y2, _)] visits. *)
Definition inRect (x1 y1 x2 y2 x y : Z) : Prop :=
  Z.min x1 x2 <= x <= Z.max x1 x2 /\ Z.min y1 y2 <= y <= Z.max y1 y2.

(** No cell has another type than [type] at the coordinates in [S], and
    elsewhere the cells are those of the grid [g0]; the history is [h0] with
    the cursor at [i0]. *)
Definition painted (n : Z) (type : string) (g0 : Grid) (h0 : list Snapshot)
    (i0 : Z) (S : Z -> Z -> Prop) (c : City) : Prop :=
  gridAt n c /\ history c = h0 /\ historyIndex c = i0 /\
  forall x y z, cellAt (grid c) x y = Some z ->
    (S x y -> zoneType z = type) /\ (~ S x y -> cellAt g0 x y = Some z).

(** [CITY_SIZES[size] || CITY_SIZES.medium], when there is one. *)
Definition sizeConfigFor (key : string) : option SizeConfig :=
  match CITY_SIZES !! key with
  | Some cfg => Some cfg
  | None => CITY_SIZES !! "medium"
  end.

(** [v] is a positive multiple of [floor(n / 8)] below [n]: a row, or a
    column, along which [generateRoadNetwork] lays a road. *)
Definition roadLine (n v : Z) : bool :=
  (0 <? v) && (v <? n) && (v mod (n / 8) =? 0).

(** The cell lies on such a row or column, or on the boulevard: the
    diagonal and the two cells above and below it. *)
Definition onRoad (n x y : Z) : bool :=
  roadLine n y || roadLine n x || ((-2 <=? y - x) && (y - x <=? 2)).

(** Where [generateLayout] lets a type be: industrial zones in the outer
    ring only, residential zones in the middle and the inner ring, commercial
    zones in the inner ring and the core.  The rings are told apart by the
    distance to the centre, over 0.9, over 0.6 and over 0.3 of the largest. *)
Definition ringAllows (n : Z) (type : string) (x y : Z) : Prop :=
  (type = "industrial" -> normalizedDistAbove x y (n / 2) (9 # 10) = true) /\
  (type = "residential" ->
   normalizedDistAbove x y (n / 2) (3 # 10) = true /\
   normalizedDistAbove x y (n / 2) (9 # 10) = false) /\
  (type = "commercial" -> normalizedDistAbove x y (n / 2) (6 # 10) = false).

Definition ringed (n : Z) (c : City) : Prop :=
  gridAt n c /\
  forall x y z, cellAt (grid c) x y = Some z -> ringAllows n (zoneType z) x y.

(** ** Saved cities (utils/CityStorage.js)

    The list [this.cities] of the storage manager, with what the browser
    store holds under [STORAGE_KEY].  [loadAll] parses whatever text the
    browser store holds and is not modelled; the operations start from a
    list of records of the shape that [save] builds. *)

Record SavedCity := mkSavedCity {
  savedId : Id;
  savedName : string;
  savedAt : string;
  savedGridSize : Z;
  savedSize : string;
  savedStats : Stats;
  savedDistribution : Distribution;
  savedGrid : Grid
}.

(** [stored] is the list whose JSON text the browser store holds, [None]
    when the key is absent. *)
Record CityStorage := mkCityStorage {
  cities : list SavedCity;
  stored : option (list SavedCity)
}.

Definition MAX_STORED_CITIES : nat := 10.

(** [localStorage.setItem] throws when the browser refuses the write; which
    lists it refuses is not for this program to say. *)
Record BrowserStore := mkBrowserStore {
  quotaExceeded : list SavedCity -> bool
}.

Variable localStorage : BrowserStore.

(** [saveAll]: the write in a try/catch, the result telling whether it
    went through. *)
Definition saveAll (st : CityStorage) : bool * CityStorage :=
  if quotaExceeded localStorage (cities st) then (false, st)
  else (true, mkCityStorage (cities st) (Some (cities st))).

(** [this.cities.findIndex(c => c.id === id)], [None] standing for -1, and
    [this.cities.find(c => c.id === id)]. *)
Definition findIndex (id : Id) (l : list SavedCity) : option nat :=
  fst <$> list_find (fun c => savedId c = id) l.

Definition find (id : Id) (l : list SavedCity) : option SavedCity :=
  snd <$> list_find (fun c => savedId c = id) l.

(** [save(city, name)] at the time [now].  The id of a City is an identity,
    which is truthy, so that [generateId] is not called. *)
Definition save (city : City) (name_ : option string) (now : string)
    (st : CityStorage) : SavedCity * CityStorage :=
  let savedCity :=
    mkSavedCity (cityId city)
      (orString name_
         (orString (Some (name city))
            ("City " +:+ pretty (length (cities st) + 1)%nat)))
      now (gridSize city) (size city) (stats city)
      (default ∅ (distribution city)) (grid city) in
  let cities' :=
    match findIndex (savedId savedCity) (cities st) with
    | Some existingIndex => <[existingIndex := savedCity]> (cities st)
    | None =>
      (if decide (MAX_STORED_CITIES <= length (cities st))%nat
       then drop 1 (cities st) else cities st) ++ [savedCity]
    end in
  (savedCity, (saveAll (mkCityStorage cities' (stored st))).2).

(** [load(id)]: the record, or [null]. *)
Definition load (id : Id) (st : CityStorage) : option SavedCity :=
  find id (cities st).

(** [delete(id)] *)
Definition delete_ (id : Id) (st : CityStorage) : bool * CityStorage :=
  match findIndex id (cities st) with
  | Some index =>
    (true, (saveAll (mkCityStorage (delete index (cities st)) (stored st))).2)
  | None => (false, st)
  end.

(** [clearAll()] *)
Definition clearAll (st : CityStorage) : CityStorage := mkCityStorage [] None.

(** A saved record handed to [importData], as [loadSavedCity] does: the
    properties that [importData] reads. *)
Definition savedAsPayload (r : SavedCity) : Payload :=
  mkPayload (Some (savedId r)) (Some (savedName r)) (Some (savedSize r))
    (Some (savedGridSize r)) (savedGrid r) (Some (savedDistribution r)).

(** The ids of the records, in order. *)
Definition savedIds (st : CityStorage) : list Id := savedId <$> cities st.

(** At most [MAX_STORED_CITIES] records, no two with the same id. *)
Definition storageOk (st : CityStorage) : Prop :=
  (length (cities st) <= MAX_STORED_CITIES)%nat /\ NoDup (savedIds st).

(** The three object-valued properties of the record that [save] builds:
    [stats: { ...city.stats }] and [distribution: { ...city.distribution }]
    are new objects holding copies, [grid: city.grid] is the City's own
    grid array. *)
Record SavedRefs := mkSavedRefs {
  savedGridRef : Ref;
  savedStatsRef : Ref;
  savedDistributionRef : Ref
}.

Definition saveRefs (r : CityRefs) (h : Store) : option (SavedRefs * Store) :=
  st ← statsObjects h !! statsRef r;
  let d := default ∅ (distributionObjects h !! distributionRef r) in
  let statsCopy := fresh (dom (statsObjects h)) in
  let distributionCopy := fresh (dom (distributionObjects h)) in
  Some (mkSavedRefs (gridRef r) statsCopy distributionCopy,
        mkStore (gridObjects h) (rowObjects h)
                (<[distributionCopy := d]> (distributionObjects h))
                (<[statsCopy := st]> (statsObjects h))).

(** ** The demo generator (AIGenerator, the part that needs no network)

    The parameter objects hold ratios that are numbers; they are computed
    exactly.  [String.prototype.toLowerCase], [String.prototype.match] with
    the population pattern and [parseInt] are the platform's: the model
    takes them as given. *)

Record Ratios := mkRatios {
  ratioResidential : Q;
  ratioCommercial : Q;
  ratioIndustrial : Q;
  ratioGreen : Q;
  ratioTransit : Q;
  ratioRoad : Q
}.

Definition with_residential (v : Q) (r : Ratios) : Ratios :=
  mkRatios v (ratioCommercial r) (ratioIndustrial r) (ratioGreen r)
    (ratioTransit r) (ratioRoad r).
Definition with_commercial (v : Q) (r : Ratios) : Ratios :=
  mkRatios (ratioResidential r) v (ratioIndustrial r) (ratioGreen r)
    (ratioTransit r) (ratioRoad r).
Definition with_industrial (v : Q) (r : Ratios) : Ratios :=
  mkRatios (ratioResidential r) (ratioCommercial r) v (ratioGreen r)
    (ratioTransit r) (ratioRoad r).
Definition with_green (v : Q) (r : Ratios) : Ratios :=
  mkRatios (ratioResidential r) (ratioCommercial r) (ratioIndustrial r) v
    (ratioTransit r) (ratioRoad r).
Definition with_transit (v : Q) (r : Ratios) : Ratios :=
  mkRatios (ratioResidential r) (ratioCommercial r) (ratioIndustrial r)
    (ratioGreen r) v (ratioRoad r).
Definition with_road (v : Q) (r : Ratios) : Ratios :=
  mkRatios (ratioResidential r) (ratioCommercial r) (ratioIndustrial r)
    (ratioGreen r) (ratioTransit r) v.

(** The ratios as the parameter object of [generateLayout]. *)
Definition asLayoutParams (r : Ratios) : LayoutParams :=
  mkLayoutParams (Some (ratioResidential r)) (Some (ratioCommercial r))
    (Some (ratioIndustrial r)) (Some (ratioGreen r)) (Some (ratioTransit r))
    (Some (ratioRoad r)).

(** An entry of [CITY_PRESETS] (constants.js): the ratios it has. *)
Record Preset := mkPreset {
  presetResidential : option Q;
  presetCommercial : option Q;
  presetIndustrial : option Q;
  presetGreen : option Q;
  presetTransit : option Q
}.

(** What [generateDemo] resolves to. *)
Record DemoResult := mkDemoResult {
  success : bool;
  params : Ratios;
  analysis : string;
  suggestions : list string;
  cityType : string;
  source : string
}.

Variable CITY_PRESETS : gmap string Preset.

(** The platform's functions.  [matchPopulation] is [lower.match(...)] with
    the population pattern (digits, an optional comma, more digits, white
    space, and optionally "million", "k" or "thousand"): the three groups of
    the first match, the third one possibly [undefined]. *)
Record Platform := mkPlatform {
  toLowerCase : string -> string;
  matchPopulation : string -> option (string * string * option string);
  parseInt : string -> num
}.

Variable platform : Platform.

(** [s.includes(t)] *)
Fixpoint includes (s t : string) : bool :=
  String.prefix t s ||
  match s with
  | EmptyString => false
  | String _ rest => includes rest t
  end.

Definition Math_minQ (a b : Q) : Q := if Qle_bool a b then a else b.
Definition Math_maxQ (a b : Q) : Q := if Qle_bool a b then b else a.

(** [v || fallback] on a ratio that may be missing. *)
Definition orRatio (v : option Q) (fallback : Q) : Q :=
  match v with
  | Some q => if Qeq_bool q 0%Q then fallback else q
  | None => fallback
  end.

Definition analyzePrompt (prompt : string) : string :=
  let lower := toLowerCase platform prompt in
  if includes lower "eco" || includes lower "sustainable" || includes lower "green"
  then "eco"
  else if includes lower "tech" || includes lower "innovation" || includes lower "smart"
  then "tech"
  else if includes lower "transit" || includes lower "metro"
          || includes lower "public transport"
  then "transit"
  else if includes lower "mixed" || includes lower "balanced"
          || includes lower "walkable"
  then "mixed"
  else "mixed".

(** The steps of [adjustFromPrompt], one for each group of adjustments. *)
Definition greenSpaceAdjustments (lower : string) (adjusted : Ratios) : Ratios :=
  let adjusted :=
    if includes lower "park" || includes lower "garden"
    then with_green (Math_minQ (1 # 2) (ratioGreen adjusted + (1 # 10))%Q) adjusted
    else adjusted in
  if includes lower "urban farm" || includes lower "agriculture"
  then with_green (Math_minQ (1 # 2) (ratioGreen adjusted + (15 # 100))%Q) adjusted
  else adjusted.

Definition transitAdjustments (lower : string) (adjusted : Ratios) : Ratios :=
  let adjusted :=
    if includes lower "car-free" || includes lower "pedestrian"
    then with_road (Math_maxQ (2 # 100) (ratioRoad adjusted - (2 # 100))%Q)
           (with_transit (Math_minQ (1 # 4) (ratioTransit adjusted + (1 # 10))%Q) adjusted)
    else adjusted in
  if includes lower "metro" || includes lower "subway"
  then with_transit (Math_minQ (1 # 4) (ratioTransit adjusted + (5 # 100))%Q) adjusted
  else adjusted.

Definition industrialAdjustments (lower : string) (adjusted : Ratios) : Ratios :=
  let adjusted :=
    if includes lower "clean" || includes lower "no pollution"
    then with_green (Math_minQ (1 # 2) (ratioGreen adjusted + (5 # 100))%Q)
           (with_industrial (Math_maxQ 0%Q (ratioIndustrial adjusted - (5 # 100))%Q) adjusted)
    else adjusted in
  if includes lower "manufacturing" || includes lower "industry"
  then with_industrial (Math_minQ (2 # 10) (ratioIndustrial adjusted + (5 # 100))%Q) adjusted
  else adjusted.

Definition commercialAdjustments (lower : string) (adjusted : Ratios) : Ratios :=
  if includes lower "business" || includes lower "downtown"
  then with_commercial (Math_minQ (3 # 10) (ratioCommercial adjusted + (1 # 10))%Q) adjusted
  else adjusted.

(** [pop] after the two multiplications. *)
Definition promptPopulation (groups : string * string * option string) : num :=
  let '(g1, g2, g3) := groups in
  let pop := parseInt platform (g1 +:+ g2) in
  let pop :=
    if bool_decide (g3 = Some "million") then lift2 Z.mul pop (Some 1000000)
    else pop in
  if bool_decide (g3 = Some "k") || bool_decide (g3 = Some "thousand")
  then lift2 Z.mul pop (Some 1000)
  else pop.

Definition populationAdjustments (lower : string) (adjusted : Ratios) : Ratios :=
  match matchPopulation platform lower with
  | Some groups =>
    match promptPopulation groups with
    | Some pop =>
      if 1000000 <? pop
      then with_transit (Math_minQ (2 # 10) (ratioTransit adjusted + (5 # 100))%Q)
             (with_residential
                (Math_minQ (45 # 100) (ratioResidential adjusted + (1 # 10))%Q) adjusted)
      else adjusted
    | None => adjusted
    end
  | None => adjusted
  end.

Definition total (r : Ratios) : Q :=
  (ratioResidential r + ratioCommercial r + ratioIndustrial r + ratioGreen r
   + ratioTransit r + ratioRoad r)%Q.

Definition normalizeRatios (adjusted : Ratios) : Ratios :=
  if Qltb (95 # 100) (total adjusted)
  then
    let factor := ((95 # 100) / total adjusted)%Q in
    (mkRatios (ratioResidential adjusted * factor) (ratioCommercial adjusted * factor)
       (ratioIndustrial adjusted * factor) (ratioGreen adjusted * factor)
       (ratioTransit adjusted * factor) (ratioRoad adjusted * factor))%Q
  else adjusted.

Definition adjustFromPrompt (prompt : string) (params_ : Ratios) : Ratios :=
  let lower := toLowerCase platform prompt in
  normalizeRatios
    (populationAdjustments lower
      (commercialAdjustments lower
        (industrialAdjustments lower
          (transitAdjustments lower
            (greenSpaceAdjustments lower params_))))).

(** [String(Math.round(ratio * 100))] *)
Definition percentText (ratio : Q) : string :=
  pretty (Qfloor (ratio * 100 + (1 # 2))%Q).

Definition typeNames (cityType_ : string) : option string :=
  if String.eqb cityType_ "eco" then Some "Eco-Friendly City"
  else if String.eqb cityType_ "tech" then Some "Smart Tech Hub"
  else if String.eqb cityType_ "transit" then Some "Transit-Oriented City"
  else if String.eqb cityType_ "mixed" then Some "Mixed-Use Urban Center"
  else None.

Definition generateAnalysis (prompt cityType_ : string) (params_ : Ratios) : string :=
  "Generated a " +:+ default "undefined" (typeNames cityType_) +:+ " with "
  +:+ percentText (ratioGreen params_) +:+ "% green spaces, "
  +:+ percentText (ratioTransit params_) +:+ "% transit infrastructure, and "
  +:+ percentText (ratioResidential params_)
  +:+ "% residential areas. The layout optimizes for sustainability while meeting urban development needs.".

Definition mixedSuggestions : list string :=
  ["Develop neighborhood centers with local services";
   "Create connected pedestrian pathways";
   "Add community gardens in residential areas"].

Definition generateSuggestions (cityType_ : string) : list string :=
  if String.eqb cityType_ "eco" then
    ["Add solar panel installations to commercial districts";
     "Create wildlife corridors between green spaces";
     "Implement rainwater harvesting systems"]
  else if String.eqb cityType_ "tech" then
    ["Deploy smart traffic management systems";
     "Install IoT sensors for city monitoring";
     "Create innovation zones near universities"]
  else if String.eqb cityType_ "transit" then
    ["Add bike-sharing stations at transit hubs";
     "Create park-and-ride facilities at city edge";
     "Implement congestion pricing in the core"]
  else mixedSuggestions.

(** [generateDemo(prompt, params)], after the simulated delay; [None] when
    it throws, which is when [CITY_PRESETS] has neither the type's entry nor
    [mixed].  The ratios that [params] holds override those of the preset;
    a property of [params] is a number or absent. *)
Definition generateDemo (prompt : string) (params_ : LayoutParams)
    : option DemoResult :=
  let cityType_ := analyzePrompt prompt in
  preset ← match CITY_PRESETS !! cityType_ with
           | Some preset => Some preset
           | None => CITY_PRESETS !! "mixed"
           end;
  let layoutParams :=
    mkRatios
      (default (orRatio (presetResidential preset) (35 # 100)) (residentialRatio params_))
      (default (orRatio (presetCommercial preset) (15 # 100)) (commercialRatio params_))
      (default (orRatio (presetIndustrial preset) (1 # 10)) (industrialRatio params_))
      (default (orRatio (presetGreen preset) (25 # 100)) (greenRatio params_))
      (default (orRatio (presetTransit preset) (1 # 10)) (transitRatio params_))
      (default (5 # 100) (roadRatio params_)) in
  let layoutParams := adjustFromPrompt prompt layoutParams in
  Some (mkDemoResult true layoutParams
          (generateAnalysis prompt cityType_ layoutParams)
          (generateSuggestions cityType_) cityType_ "demo").

(** A ratio that may be missing is not negative when it is there. *)
Definition notNegative (v : option Q) : Prop :=
  match v with
  | Some q => (0 <= q)%Q
  | None => True
  end.

Definition presetNotNegative (preset : Preset) : Prop :=
  notNegative (presetResidential preset) /\ notNegative (presetCommercial preset) /\
  notNegative (presetIndustrial preset) /\ notNegative (presetGreen preset) /\
  notNegative (presetTransit preset).

Definition paramsNotNegative (params_ : LayoutParams) : Prop :=
  notNegative (residentialRatio params_) /\ notNegative (commercialRatio params_) /\
  notNegative (industrialRatio params_) /\ notNegative (greenRatio params_) /\
  notNegative (transitRatio params_) /\ notNegative (roadRatio params_).

Definition cityTypes : list string := ["eco"; "tech"; "transit"; "mixed"].

(** Every ratio is at least 0, and every ratio is at most 1/2. *)
Definition nonNegative (r : Ratios) : Prop :=
  (0 <= ratioResidential r /\ 0 <= ratioCommercial r /\ 0 <= ratioIndustrial r /\
   0 <= ratioGreen r /\ 0 <= ratioTransit r /\ 0 <= ratioRoad r)%Q.

Definition withinHalf (r : Ratios) : Prop :=
  (ratioResidential r <= 1 # 2 /\ ratioCommercial r <= 1 # 2 /\
   ratioIndustrial r <= 1 # 2 /\ ratioGreen r <= 1 # 2 /\
   ratioTransit r <= 1 # 2 /\ ratioRoad r <= 1 # 2)%Q.

(** *** Scenarios for the further properties *)

(** The 10 by 10 residential City after [undo]: the cursor is on the first
    of two snapshots. *)
Definition undoneCity : City := thenCalls [CallUndo] residentialCity.

(** A payload made of what the residential City exports. *)
Definition residentialPayload : Payload :=
  exportAsPayload (exportData residentialCity).

(** The 2 by 2 City that has imported the 10 by 10 residential City. *)
Definition importedCity : City :=
  default (cityOf (SizeNumber 2))
    (returned (importData (Some residentialPayload) (cityOf (SizeNumber 2)))).

(** A payload for a 3 by 3 City whose grid has no rows. *)
Definition shortPayload : Payload :=
  mkPayload None None None (Some 3) [] (Some (emptyDistribution 3)).

(** A browser store that takes lists of up to three records. *)
Definition smallQuota : BrowserStore :=
  mkBrowserStore (fun l => bool_decide (3 < length l)%nat).

(** Ten Cities with the ids 100 to 109, saved one after the other into an
    empty storage. *)
Definition tenSaved : CityStorage :=
  foldl (fun st (k : nat) =>
           (save (set_cityId k (cityOf (SizeNumber 2))) None "2024-01-01" st).2)
        (mkCityStorage [] None) (seq 100 10).

(** The first of the ten, as [save] recorded it. *)
Definition firstSaved : SavedCity :=
  (save (set_cityId 100%nat (cityOf (SizeNumber 2))) None "2024-01-01"
     (mkCityStorage [] None)).1.

(** A prompt in lower case, the platform functions as they answer on it,
    and the ratios that [generateDemo] starts from without a preset. *)
Definition metroPrompt : string := "a metro city with parks for 2 million people".

Definition samplePlatform : Platform :=
  mkPlatform
    (fun s => s)
    (fun s => if String.eqb s metroPrompt then Some ("2", "", Some "million")
              else None)
    (fun s => if String.eqb s "2" then Some 2 else None).

Definition defaultRatios : Ratios :=
  mkRatios (35 # 100) (15 # 100) (1 # 10) (25 # 100) (1 # 10) (5 # 100).
(** ** Properties *)

(** *** Sequencing *)

Lemma bind_Ret {A B : Type} (m : M A) (f : A -> M B) (c c' : City) (a : A) :
  m c = Ret a c' -> bind m f c = f a c'.
Proof. unfold bind. by intros ->. Qed.

Lemma bind_Throw {A B : Type} (m : M A) (f : A -> M B) (c c' : City) :
  m c = Throw c' -> bind m f c = Throw c'.
Proof. unfold bind. by intros ->. Qed.

Lemma for_each_app {X : Type} (l1 l2 : list X) (body : X -> M unit) (c : City) :
  for_each (l1 ++ l2) body c = (for_each l1 body ;;; for_each l2 body) c.
Proof.
  revert c. induction l1 as [|v l1 IH]; intros c; simpl.
  - reflexivity.
  - unfold bind. destruct (body v c); try done.
Qed.

(** *** Arrays *)

Lemma at_index_Some {A : Type} (l : list A) (i : Z) (v : A) :
  at_index l i = Some v <-> 0 <= i /\ l !! Z.to_nat i = Some v.
Proof.
  unfold at_index. destruct (Z.ltb_spec i 0); split.
  - discriminate.
  - intros [? _]; lia.
  - auto.
  - tauto.
Qed.

Lemma at_index_lt {A : Type} (l : list A) (i : Z) (v : A) :
  at_index l i = Some v -> 0 <= i < Z.of_nat (length l).
Proof.
  intros [H0 H]%at_index_Some. apply lookup_lt_Some in H. lia.
Qed.

Lemma at_index_is_Some {A : Type} (l : list A) (i : Z) :
  0 <= i < Z.of_nat (length l) -> is_Some (at_index l i).
Proof.
  intros H. unfold at_index. destruct (Z.ltb_spec i 0); [lia|].
  apply lookup_lt_is_Some. lia.
Qed.

Lemma slice0_take {A : Type} (l : list A) (e : Z) :
  0 <= e -> slice0 e l = take (Z.to_nat e) l.
Proof. intros H. unfold slice0. destruct (Z.ltb_spec e 0); [lia|done]. Qed.

(** *** History: saveState, undo, redo *)

(** What [saveState] does from a cursor between -1 and the last index. *)
Lemma saveState_effect (c : City) :
  -1 <= historyIndex c < Z.of_nat (length (history c)) ->
  (length (history c) <= 50)%nat ->
  exists c',
    saveState c = Ret tt c' /\
    cursorValid c' /\
    at_index (history c') (historyIndex c') = Some (snapshot c) /\
    (0 <= historyIndex c ->
     0 < historyIndex c' /\
     at_index (history c') (historyIndex c' - 1) =
       at_index (history c) (historyIndex c)) /\
    history c' =
      (if 50 <? historyIndex c + 2
       then drop 1 (take (Z.to_nat (historyIndex c + 1)) (history c) ++ [snapshot c])
       else take (Z.to_nat (historyIndex c + 1)) (history c) ++ [snapshot c]) /\
    historyIndex c' = (if 50 <? historyIndex c + 2 then historyIndex c
                       else historyIndex c + 1) /\
    c' = set_historyIndex (historyIndex c') (set_history (history c') c).
Proof.
  intros Hi Hlen. unfold saveState.
  rewrite slice0_take by lia.
  set (kept := take (Z.to_nat (historyIndex c + 1)) (history c)).
  assert (Hk : length kept = Z.to_nat (historyIndex c + 1)).
  { unfold kept. rewrite length_take. lia. }
  assert (Hp : Z.of_nat (length (kept ++ [snapshot c])) = historyIndex c + 2).
  { rewrite length_app, Hk. simpl. lia. }
  rewrite Hp.
  destruct (Z.ltb_spec 50 (historyIndex c + 2)) as [Hbig|Hsmall].
  - eexists; split; [reflexivity|]. simpl.
    assert (Hidx : historyIndex c = 49) by lia.
    assert (Hd : length (drop 1 (kept ++ [snapshot c])) = 50%nat).
    { rewrite length_drop. lia. }
    unfold cursorValid; simpl. split_and!; try lia; try done.
    + apply at_index_Some. split; [lia|].
      rewrite lookup_drop, lookup_app_r by lia.
      replace (1 + Z.to_nat (historyIndex c + 2 - 1 - 1) - length kept)%nat with 0%nat by lia.
      done.
    + intros H0. split; [lia|].
      destruct (at_index_is_Some (history c) (historyIndex c)) as [s Hs]; [lia|].
      rewrite Hs. apply at_index_Some. split; [lia|].
      apply at_index_Some in Hs as [_ Hs].
      rewrite lookup_drop, lookup_app_l by lia.
      unfold kept. rewrite lookup_take_lt by lia.
      replace (1 + Z.to_nat (historyIndex c + 2 - 1 - 1 - 1))%nat
        with (Z.to_nat (historyIndex c)) by lia.
      done.
  - eexists; split; [reflexivity|]. simpl.
    unfold cursorValid; simpl. split_and!; try lia; try done.
    + apply at_index_Some. split; [lia|].
      rewrite lookup_app_r by lia.
      replace (Z.to_nat (historyIndex c + 2 - 1) - length kept)%nat with 0%nat by lia.
      done.
    + intros H0. split; [lia|].
      destruct (at_index_is_Some (history c) (historyIndex c)) as [s Hs]; [lia|].
      rewrite Hs. apply at_index_Some. split; [lia|].
      apply at_index_Some in Hs as [_ Hs].
      rewrite lookup_app_l by lia.
      unfold kept. rewrite lookup_take_lt by lia.
      replace (Z.to_nat (historyIndex c + 2 - 1 - 1))
        with (Z.to_nat (historyIndex c)) by lia.
      done.
Qed.

Lemma undo_effect (c : City) :
  cursorValid c ->
  (historyIndex c = 0 -> undo c = Ret false c) /\
  (0 < historyIndex c ->
   exists s, at_index (history c) (historyIndex c - 1) = Some s /\
             undo c = Ret true (restore s (set_historyIndex (historyIndex c - 1) c))).
Proof.
  intros [Hi Hlen]. unfold undo. split; intros H.
  - rewrite H. reflexivity.
  - destruct (Z.leb_spec (historyIndex c) 0); [lia|].
    destruct (at_index_is_Some (history c) (historyIndex c - 1)) as [s Hs]; [lia|].
    exists s. split; [done|]. unfold moveTo. simpl. rewrite Hs. reflexivity.
Qed.

Lemma redo_effect (c : City) :
  cursorValid c ->
  (historyIndex c = Z.of_nat (length (history c)) - 1 -> redo c = Ret false c) /\
  (historyIndex c < Z.of_nat (length (history c)) - 1 ->
   exists s, at_index (history c) (historyIndex c + 1) = Some s /\
             redo c = Ret true (restore s (set_historyIndex (historyIndex c + 1) c))).
Proof.
  intros [Hi Hlen]. unfold redo. split; intros H.
  - destruct (Z.leb_spec (Z.of_nat (length (history c)) - 1) (historyIndex c)); [done|lia].
  - destruct (Z.leb_spec (Z.of_nat (length (history c)) - 1) (historyIndex c)); [lia|].
    destruct (at_index_is_Some (history c) (historyIndex c + 1)) as [s Hs]; [lia|].
    exists s. split; [done|]. unfold moveTo. simpl. rewrite Hs. reflexivity.
Qed.

Lemma perform_history_valid (call : Call) (c : City) :
  isHistoryCall call -> cursorValid c ->
  exists c', perform call c = Ret tt c' /\ cursorValid c'.
Proof.
  intros Hcall Hc. destruct call; try done; simpl.
  - destruct Hc as [Hi Hlen].
    destruct (saveState_effect c) as (c' & -> & Hv & _); [lia|done|]. eauto.
  - destruct (undo_effect c Hc) as [H0 Hpos]. unfold bind.
    destruct (Z.eq_dec (historyIndex c) 0) as [Hz|Hz].
    + rewrite (H0 Hz). eauto.
    + destruct Hpos as (s & Hs & ->); [destruct Hc; lia|].
      eexists; split; [reflexivity|].
      destruct Hc as [Hi Hlen]. unfold cursorValid; simpl. lia.
  - destruct (redo_effect c Hc) as [H0 Hpos]. unfold bind.
    destruct (Z.eq_dec (historyIndex c) (Z.of_nat (length (history c)) - 1)) as [Hz|Hz].
    + rewrite (H0 Hz). eauto.
    + destruct Hpos as (s & Hs & ->); [destruct Hc; lia|].
      eexists; split; [reflexivity|].
      destruct Hc as [Hi Hlen]. unfold cursorValid; simpl. lia.
Qed.

Lemma for_each_history_valid (calls : list Call) (c : City) :
  Forall isHistoryCall calls -> cursorValid c ->
  exists c', for_each calls perform c = Ret tt c' /\ cursorValid c'.
Proof.
  intros Hcalls. revert c. induction Hcalls as [|call calls Hcall _ IH]; intros c Hc.
  - exists c. done.
  - destruct (perform_history_valid call c Hcall Hc) as (c1 & H1 & Hv1).
    destruct (IH c1 Hv1) as (c2 & H2 & Hv2).
    exists c2. split; [|done]. simpl. unfold bind. rewrite H1. done.
Qed.

(** *** Fresh grids *)

Lemma set_idSupply_same (c : City) : set_idSupply (idSupply c) c = c.
Proof. by destruct c. Qed.

Lemma emptyRow_effect (n : nat) (c : City) :
  exists row,
    replicateM n emptyZone c = Ret row (set_idSupply (idSupply c + n) c) /\
    length row = n /\
    Forall (fun z => zoneType z = "empty" /\
                     (idSupply c <= zoneId z < idSupply c + n)%nat) row.
Proof.
  revert c. induction n as [|n IH]; intros c.
  - exists []. simpl. unfold ret. rewrite Nat.add_0_r, set_idSupply_same. done.
  - destruct (IH (set_idSupply (S (idSupply c)) c)) as (row & Hrow & Hlen & Hall).
    exists (mkZone "empty" (idSupply c) :: row). split_and!.
    + cbn [replicateM]. rewrite (bind_Ret emptyZone _ c _ _ eq_refl).
      rewrite (bind_Ret _ _ _ _ _ Hrow). unfold ret, set_idSupply. simpl.
      do 2 f_equal. lia.
    + simpl. by rewrite Hlen.
    + simpl in Hall. constructor; [simpl; split; [done|lia]|].
      eapply Forall_impl; [exact Hall|]. simpl. intros z [? ?]. split; [done|lia].
Qed.

Lemma emptyGrid_effect (rows cols : nat) (c : City) :
  exists g,
    replicateM rows (replicateM cols emptyZone) c =
      Ret g (set_idSupply (idSupply c + rows * cols) c) /\
    length g = rows /\
    Forall (fun row => length row = cols) g /\
    Forall (Forall (fun z => zoneType z = "empty" /\
                     (idSupply c <= zoneId z < idSupply c + rows * cols)%nat)) g.
Proof.
  revert c. induction rows as [|rows IH]; intros c.
  - exists []. simpl. unfold ret. rewrite Nat.add_0_r, set_idSupply_same. done.
  - destruct (emptyRow_effect cols c) as (row & Hrow & Hlen & Hall).
    destruct (IH (set_idSupply (idSupply c + cols) c)) as (g & Hg & Hglen & Hgrows & Hgall).
    exists (row :: g). split_and!.
    + cbn [replicateM]. rewrite (bind_Ret _ _ _ _ _ Hrow).
      rewrite (bind_Ret _ _ _ _ _ Hg). unfold ret, set_idSupply. simpl.
      do 2 f_equal. lia.
    + simpl. by rewrite Hglen.
    + by constructor.
    + simpl in Hgall. constructor.
      * eapply Forall_impl; [exact Hall|]. simpl. intros z [? ?]. split; [done|lia].
      * eapply Forall_impl; [exact Hgall|]. simpl. intros r Hr.
        eapply Forall_impl; [exact Hr|]. simpl. intros z [? ?]. split; [done|lia].
Qed.

Lemma create2DArray_effect (n : Z) (c : City) :
  exists g,
    create2DArray n n emptyZone c =
      Ret g (set_idSupply (idSupply c + Z.to_nat n * Z.to_nat n) c) /\
    squareGrid n g /\
    Forall (Forall (fun z => zoneType z = "empty")) g /\
    idsBelow (idSupply c + Z.to_nat n * Z.to_nat n) g.
Proof.
  destruct (emptyGrid_effect (Z.to_nat n) (Z.to_nat n) c) as (g & Hg & Hlen & Hrows & Hall).
  exists g. split_and!; try done.
  - eapply Forall_impl; [exact Hall|]. simpl. intros r Hr.
    eapply Forall_impl; [exact Hr|]. simpl. by intros z [? ?].
  - eapply Forall_impl; [exact Hall|]. simpl. intros r Hr.
    eapply Forall_impl; [exact Hr|]. simpl. intros z [? ?]. lia.
Qed.

Lemma resetGrid_effect (c : City) :
  exists g,
    resetGrid c =
      Ret tt (set_grid g
                (set_idSupply (idSupply c + Z.to_nat (gridSize c) * Z.to_nat (gridSize c)) c)) /\
    squareGrid (gridSize c) g /\
    Forall (Forall (fun z => zoneType z = "empty")) g /\
    idsBelow (idSupply c + Z.to_nat (gridSize c) * Z.to_nat (gridSize c)) g.
Proof.
  destruct (create2DArray_effect (gridSize c) c) as (g & Hg & Hsq & Hempty & Hids).
  exists g. split_and!; try done.
  unfold resetGrid. by rewrite (bind_Ret _ _ _ _ _ Hg).
Qed.

(** *** The constructor *)

Lemma assignSize_effect (size_ : SizeArg) (c c' : City) :
  assignSize size_ c = Ret tt c' ->
  exists sz n tp, c' = set_targetPopulation tp (set_gridSize n (set_size sz c)).
Proof.
  destruct size_ as [key|n]; simpl.
  - unfold bind, modify. simpl.
    destruct (CITY_SIZES !! key) as [cfg|]; [|destruct (CITY_SIZES !! "medium") as [cfg|]];
      simpl; intros [= <-]; eauto.
  - intros [= <-]. eauto.
Qed.

Lemma constructor_effect (size_ : SizeArg) (supply : nat) (c0 : City) :
  newCity size_ supply = Some c0 ->
  exists sz n tp g,
    squareGrid n g /\
    Forall (Forall (fun z => zoneType z = "empty")) g /\
    idsBelow (idSupply c0) g /\
    c0 = mkCity supply "New City" sz n tp g initialStats
           (Some (emptyDistribution n))
           [mkSnapshot g (emptyDistribution n) initialStats] 0
           (S supply + Z.to_nat n * Z.to_nat n) 0.
Proof.
  unfold newCity, constructor.
  rewrite (bind_Ret generateId _ (blank supply) _ _ eq_refl).
  rewrite (bind_Ret (modify _) _ _ _ _ eq_refl).
  rewrite (bind_Ret (modify _) _ _ _ _ eq_refl).
  unfold bind at 1.
  destruct (assignSize size_ _) as [[] c1|c1|] eqn:Hsize; try discriminate.
  apply assignSize_effect in Hsize as (sz & n & tp & ->).
  destruct (resetGrid_effect
              (set_targetPopulation tp (set_gridSize n (set_size sz
                (set_name "New City" (set_cityId (idSupply (blank supply))
                  (set_idSupply (S (idSupply (blank supply))) (blank supply)))))))) 
    as (g & Hg & Hsq & Hempty & Hids).
  rewrite (bind_Ret _ _ _ _ _ Hg).
  simpl. intros [= <-]. exists sz, n, tp, g. simpl in *. done.
Qed.

Lemma newCity_fields (size_ : SizeArg) (supply : nat) (c0 : City) :
  newCity size_ supply = Some c0 ->
  squareGrid (gridSize c0) (grid c0) /\
  Forall (Forall (fun z => zoneType z = "empty")) (grid c0) /\
  idsBelow (idSupply c0) (grid c0) /\
  distribution c0 = Some (emptyDistribution (gridSize c0)) /\
  stats c0 = initialStats /\
  history c0 = [snapshot c0] /\ historyIndex c0 = 0.
Proof.
  intros (sz & n & tp & g & Hsq & Hall & Hids & ->)%constructor_effect.
  simpl in *. done.
Qed.

Lemma newCity_cursorValid (size_ : SizeArg) (supply : nat) (c0 : City) :
  newCity size_ supply = Some c0 -> cursorValid c0 /\ synced c0.
Proof.
  intros (sz & n & tp & g & _ & _ & _ & ->)%constructor_effect.
  unfold cursorValid, synced. simpl. split_and!; try lia; try done.
Qed.

(** *** Repeated undo *)

Lemma snapshot_restore (s : Snapshot) (c : City) : snapshot (restore s c) = s.
Proof. by destruct s. Qed.

Lemma undo_synced (c : City) :
  cursorValid c ->
  exists b c',
    undo c = Ret b c' /\ cursorValid c' /\ history c' = history c /\
    historyIndex c' = Z.max 0 (historyIndex c - 1) /\
    (b = false -> c' = c) /\
    (b = true <-> 0 < historyIndex c) /\
    (b = true \/ synced c -> synced c').
Proof.
  intros Hv. destruct (undo_effect c Hv) as [H0 Hpos].
  destruct (Z.eq_dec (historyIndex c) 0) as [Hz|Hz].
  - exists false, c. rewrite (H0 Hz). split_and!; try done; try lia.
    intros [?|?]; done.
  - destruct Hv as [Hi Hlen].
    destruct Hpos as (s & Hs & ->); [lia|].
    exists true. eexists. split; [reflexivity|].
    unfold cursorValid, synced. simpl. split_and!; try lia; try done.
    intros _. rewrite (snapshot_restore s). split; [done|by eexists].
Qed.

Lemma undoTimes_effect (k : nat) (c : City) :
  cursorValid c ->
  exists c',
    undoTimes k c = Ret tt c' /\ cursorValid c' /\ history c' = history c /\
    historyIndex c' = Z.max 0 (historyIndex c - Z.of_nat k) /\
    ((0 < k)%nat /\ 0 < historyIndex c \/ synced c -> synced c').
Proof.
  revert c. induction k as [|k IH]; intros c Hv.
  - exists c. split_and!; try done; try (destruct Hv; lia).
    intros [[? _]|?]; [lia|done].
  - destruct (undo_synced c Hv) as (b & c1 & Hu & Hv1 & Hh1 & Hi1 & _ & Hb & Hs1).
    destruct (IH c1 Hv1) as (c2 & Hk & Hv2 & Hh2 & Hi2 & Hs2).
    exists c2. split_and!; try done.
    + change (undoTimes (S k) c) with (bind (perform CallUndo) (fun _ => undoTimes k) c).
      assert (Hp : perform CallUndo c = Ret tt c1).
      { simpl. by rewrite (bind_Ret _ _ _ _ _ Hu). }
      by rewrite (bind_Ret _ _ _ _ _ Hp).
    + congruence.
    + rewrite Hi2, Hi1. lia.
    + intros Hor. apply Hs2. right. apply Hs1.
      destruct Hor as [[_ Hpos]|Hsync]; [left; by apply Hb|by right].
Qed.


(** C1 (amended).  [undo] steps back to the snapshot that lay under the
    cursor before [saveState] pushed a new one.  So after
    [saveState(); m; undo()], with [m] any mutation that leaves the history
    alone, [undo] succeeds and the grid, distribution and stats are those of
    that earlier snapshot; they are the values from immediately before [m]
    when the City had not been edited since that snapshot. *)
Theorem undo_after_save_and_edit (c c1 c2 : City) (m : M unit) (s : Snapshot) :
  cursorValid c ->
  at_index (history c) (historyIndex c) = Some s ->
  saveState c = Ret tt c1 ->
  m c1 = Ret tt c2 ->
  history c2 = history c1 ->
  historyIndex c2 = historyIndex c1 ->
  exists c3,
    undo c2 = Ret true c3 /\
    grid c3 = snapGrid s /\
    distribution c3 = Some (snapDistribution s) /\
    stats c3 = snapStats s /\
    (synced c ->
     grid c3 = grid c1 /\ distribution c3 = distribution c1 /\ stats c3 = stats c1).
Proof.
  intros [Hi Hlen] Hs Hsave Hm Hh Hidx.
  destruct (saveState_effect c) as (c1' & Hsave' & Hv1 & _ & Hprev & _ & _ & Hc1);
    [lia|done|].
  assert (c1' = c1) as -> by congruence.
  destruct Hprev as [Hpos Hprev]; [lia|].
  assert (Hv2 : cursorValid c2).
  { unfold cursorValid. rewrite Hh, Hidx. exact Hv1. }
  destruct (undo_effect c2 Hv2) as [_ Hundo].
  destruct Hundo as (s' & Hs' & Hundo); [lia|].
  rewrite Hh, Hidx, Hprev, Hs in Hs'. injection Hs' as <-.
  eexists. split; [exact Hundo|]. simpl. split_and!; try done.
  intros [Hsync [d Hd]]. rewrite Hs in Hsync. injection Hsync as ->.
  rewrite Hc1. simpl. rewrite Hd. done.
Qed.

(** *** Cells and counts *)

Lemma rowCount_cons (k : string) (z : Zone) (row : list Zone) :
  rowCount k (z :: row) = (if decide (zoneType z = k) then 1 else 0) + rowCount k row.
Proof.
  unfold rowCount. rewrite filter_cons. destruct (decide (zoneType z = k)); simpl; lia.
Qed.

Lemma rowCount_insert (k : string) (row : list Zone) (i : nat) (old z : Zone) :
  row !! i = Some old ->
  rowCount k (<[i := z]> row) =
    rowCount k row - (if decide (zoneType old = k) then 1 else 0)
                   + (if decide (zoneType z = k) then 1 else 0).
Proof.
  revert i. induction row as [|z0 row IH]; intros [|i] H; try done.
  - injection H as ->. simpl. rewrite !rowCount_cons. lia.
  - simpl in H. simpl. rewrite !rowCount_cons, (IH i H). lia.
Qed.

Lemma countType_cons (k : string) (row : list Zone) (g : Grid) :
  countType k (row :: g) = rowCount k row + countType k g.
Proof. reflexivity. Qed.

Lemma cellAt_lookup (g : Grid) (x y : Z) (z : Zone) :
  0 <= x -> 0 <= y ->
  cellAt g x y = Some z <->
  exists row, g !! Z.to_nat y = Some row /\ row !! Z.to_nat x = Some z.
Proof.
  intros Hx Hy. unfold cellAt. rewrite bind_Some.
  split; intros (row & H1 & H2); exists row.
  - apply at_index_Some in H1 as [_ H1]. by apply at_index_Some in H2 as [_ H2].
  - split; by apply at_index_Some.
Qed.

Lemma countType_replaceCell (k : string) (g : Grid) (x y : Z) (old z : Zone) :
  0 <= x -> 0 <= y ->
  cellAt g x y = Some old ->
  countType k (replaceCell x y z g) =
    countType k g - (if decide (zoneType old = k) then 1 else 0)
                  + (if decide (zoneType z = k) then 1 else 0).
Proof.
  intros Hx Hy (row & Hrow & Hcell)%cellAt_lookup; [|done..].
  unfold replaceCell. revert Hrow. generalize (Z.to_nat y) as j.
  induction g as [|r g IH]; intros [|j] Hj; try done.
  - injection Hj as ->. cbn [alter list_alter]. rewrite !countType_cons.
    rewrite (rowCount_insert k row _ old z Hcell). lia.
  - simpl in Hj. cbn [alter list_alter]. rewrite !countType_cons.
    change (list_alter ?f j g) with (alter f j g). rewrite (IH j Hj). lia.
Qed.

Lemma squareGrid_replaceCell (n : Z) (g : Grid) (x y : Z) (z : Zone) :
  squareGrid n g -> squareGrid n (replaceCell x y z g).
Proof.
  intros [Hlen Hrows]. unfold replaceCell. split.
  - by rewrite length_alter.
  - apply Forall_alter; [done|]. intros row _ Hr. by rewrite length_insert.
Qed.

Lemma idsBelow_mono (s s' : nat) (g : Grid) :
  (s <= s')%nat -> idsBelow s g -> idsBelow s' g.
Proof.
  intros Hle H. eapply Forall_impl; [exact H|]. simpl. intros row Hr.
  eapply Forall_impl; [exact Hr|]. simpl. intros. lia.
Qed.

Lemma idsBelow_replaceCell (s : nat) (g : Grid) (x y : Z) (z : Zone) :
  idsBelow s g -> (zoneId z < s)%nat -> idsBelow s (replaceCell x y z g).
Proof.
  intros H Hz. unfold replaceCell, idsBelow.
  apply Forall_alter; [done|]. intros row _ Hr. by apply Forall_insert.
Qed.

Lemma cellAt_replaceCell (g : Grid) (x y x' y' : Z) (old z : Zone) :
  0 <= x -> 0 <= y -> 0 <= x' -> 0 <= y' ->
  cellAt g x y = Some old ->
  cellAt (replaceCell x y z g) x' y' =
    if decide (x' = x /\ y' = y) then Some z else cellAt g x' y'.
Proof.
  intros Hx Hy Hx' Hy' (row & Hrow & Hcell)%cellAt_lookup; [|done..].
  unfold cellAt, at_index, replaceCell.
  destruct (Z.ltb_spec y' 0); [lia|].
  destruct (Z.ltb_spec x' 0); [lia|].
  destruct (decide (y' = y)) as [->|Hne].
  - rewrite list_lookup_alter_eq, Hrow. simpl.
    destruct (Z.ltb_spec x' 0); [lia|].
    destruct (decide (x' = x)) as [->|Hnx].
    + rewrite decide_True by done.
      apply list_lookup_insert_eq. by eapply lookup_lt_Some.
    + rewrite decide_False by tauto.
      rewrite list_lookup_insert_ne by lia. done.
  - rewrite list_lookup_alter_ne by lia.
    rewrite decide_False by tauto. done.
Qed.

Lemma squareGrid_cellAt (n : Z) (g : Grid) (x y : Z) :
  squareGrid n g -> 0 <= x < n -> 0 <= y < n -> is_Some (cellAt g x y).
Proof.
  intros [Hlen Hrows] Hx Hy.
  destruct (lookup_lt_is_Some_2 g (Z.to_nat y)) as [row Hrow]; [lia|].
  assert (Hr : length row = Z.to_nat n).
  { by eapply (Forall_lookup_1 _ _ _ _ Hrows). }
  destruct (lookup_lt_is_Some_2 row (Z.to_nat x)) as [z Hz]; [lia|].
  exists z. apply cellAt_lookup; [lia..|]. eauto.
Qed.

(** *** setZone *)

Lemma outOfRange_false (x y : Z) (c : City) :
  outOfRange x y c = false <-> 0 <= x < gridSize c /\ 0 <= y < gridSize c.
Proof.
  unfold outOfRange. rewrite !orb_false_iff, !Z.ltb_ge, !Z.leb_gt. lia.
Qed.

Lemma inCatalog_true (type : string) :
  inCatalog type = true <-> is_Some (ZONE_TYPES !! type).
Proof. unfold inCatalog. apply bool_decide_eq_true. Qed.

Lemma setZone_unchanged (x y : Z) (type : string) (c : City) :
  outOfRange x y c = true \/ inCatalog type = false \/
  (exists z, cellAt (grid c) x y = Some z /\ zoneType z = type) ->
  setZone x y type c = Ret tt c.
Proof.
  intros H. unfold setZone.
  destruct (outOfRange x y c); [done|].
  destruct (inCatalog type); simpl; [|done].
  destruct H as [?|[?|(z & Hz & Ht)]]; try done.
  rewrite Hz. by rewrite (proj2 (String.eqb_eq _ _) Ht).
Qed.

Lemma setZone_negative (x y : Z) (type : string) (c : City) :
  gridSize c <= 0 -> setZone x y type c = Ret tt c.
Proof.
  intros Hn. apply setZone_unchanged. left.
  destruct (outOfRange x y c) eqn:Hr; [done|]. apply outOfRange_false in Hr. lia.
Qed.

Lemma setZone_changed (x y : Z) (type : string) (c : City) (old : Zone)
    (d : Distribution) :
  outOfRange x y c = false -> inCatalog type = true ->
  cellAt (grid c) x y = Some old -> zoneType old <> type ->
  distribution c = Some d ->
  setZone x y type c = Ret tt (zoneSet x y type old d c).
Proof.
  intros Hr Hc Hcell Hne Hd. unfold setZone. rewrite Hr, Hc, Hcell. simpl.
  rewrite (proj2 (String.eqb_neq _ _) Hne), Hd. reflexivity.
Qed.

Lemma lookup_moveCount (oldType type k : string) (d : Distribution) :
  oldType <> type ->
  moveCount oldType type d !! k =
    if decide (k = type) then Some (incr (count d type))
    else if decide (k = oldType) then Some (decr (count d oldType))
    else d !! k.
Proof.
  intros Hne. unfold moveCount.
  destruct (decide (k = type)) as [->|Hk].
  - rewrite lookup_insert_eq. unfold count at 1.
    by rewrite lookup_insert_ne.
  - rewrite lookup_insert_ne by done.
    destruct (decide (k = oldType)) as [->|Hk'].
    + by rewrite lookup_insert_eq.
    + by rewrite lookup_insert_ne.
Qed.

Lemma countsMatch_count (d : Distribution) (g : Grid) (k : string) :
  countsMatch d g -> k ∈ zoneKeys -> count d k = Some (countType k g).
Proof.
  intros H Hk. unfold countsMatch in H. rewrite Forall_forall in H.
  unfold count. by rewrite (H k Hk).
Qed.

Lemma countsMatch_moveCount (d : Distribution) (g : Grid) (x y : Z)
    (old : Zone) (type : string) (i : Id) :
  0 <= x -> 0 <= y ->
  countsMatch d g -> cellAt g x y = Some old -> zoneType old <> type ->
  countsMatch (moveCount (zoneType old) type d) (replaceCell x y (mkZone type i) g).
Proof.
  intros Hx Hy Hm Hcell Hne. unfold countsMatch. rewrite Forall_forall.
  intros k Hk. rewrite (lookup_moveCount _ _ _ _ Hne).
  rewrite (countType_replaceCell k g x y old _ Hx Hy Hcell). simpl.
  destruct (decide (k = type)) as [->|Hk1].
  - rewrite (countsMatch_count d g type Hm Hk). simpl.
    rewrite decide_False by done. rewrite decide_True by done. do 2 f_equal. lia.
  - destruct (decide (k = zoneType old)) as [->|Hk2].
    + rewrite (countsMatch_count d g _ Hm Hk). simpl.
      rewrite decide_True by done. rewrite decide_False by done. do 2 f_equal. lia.
    + rewrite decide_False by done. rewrite decide_False by done.
      unfold countsMatch in Hm. rewrite Forall_forall in Hm.
      rewrite (Hm k Hk). do 2 f_equal. lia.
Qed.

Lemma zoneSet_consistent (x y : Z) (type : string) (old : Zone)
    (d : Distribution) (c : City) :
  0 <= x -> 0 <= y ->
  distribution c = Some d ->
  gridOk (gridSize c) (idSupply c) (grid c) d ->
  cellAt (grid c) x y = Some old -> zoneType old <> type ->
  consistent (zoneSet x y type old d c).
Proof.
  intros Hx Hy Hd (Hsq & Hm & Hids) Hcell Hne.
  exists (moveCount (zoneType old) type d). split; [done|]. simpl. split_and!.
  - by apply squareGrid_replaceCell.
  - by apply countsMatch_moveCount.
  - apply idsBelow_replaceCell; [|simpl; lia].
    eapply idsBelow_mono; [|exact Hids]. lia.
Qed.

(** [setZone] always returns on a consistent City, and tells which of the
    two things it did. *)
Lemma setZone_effect (x y : Z) (type : string) (c : City) :
  consistent c ->
  setZone x y type c = Ret tt c \/
  exists old d,
    0 <= x < gridSize c /\ 0 <= y < gridSize c /\
    is_Some (ZONE_TYPES !! type) /\
    cellAt (grid c) x y = Some old /\ zoneType old <> type /\
    distribution c = Some d /\
    setZone x y type c = Ret tt (zoneSet x y type old d c) /\
    consistent (zoneSet x y type old d c).
Proof.
  intros (d & Hd & Hok).
  destruct (outOfRange x y c) eqn:Hr; [left; apply setZone_unchanged; auto|].
  destruct (inCatalog type) eqn:Hc; [|left; apply setZone_unchanged; auto].
  apply outOfRange_false in Hr as Hr'. destruct Hr' as [Hx Hy].
  destruct (squareGrid_cellAt _ _ x y (proj1 Hok) Hx Hy) as [old Hold].
  destruct (decide (zoneType old = type)) as [Heq|Hne].
  - left. apply setZone_unchanged. right; right. eauto.
  - right. exists old, d. split_and!; try done; try lia.
    + by apply inCatalog_true.
    + by apply setZone_changed.
    + apply zoneSet_consistent; try done; lia.
Qed.

(** *** Statistics *)

Lemma Qltb_lt (x y : Q) : Qltb x y = true <-> (x < y)%Q.
Proof.
  unfold Qltb. rewrite negb_true_iff. split.
  - intros H. apply Qnot_le_lt. intros Hle. apply Qle_bool_iff in Hle. congruence.
  - intros H. destruct (Qle_bool y x) eqn:E; [|done].
    apply Qle_bool_iff in E. apply Qlt_not_le in H. tauto.
Qed.

Lemma round_percent (g b : Q) :
  (0 <= g)%Q -> (g <= b)%Q -> (0 < b)%Q ->
  0 <= Qfloor (g / b * inject_Z 100 + (1 # 2)) <= 100.
Proof.
  intros Hg Hgb Hb.
  assert (H1 : (0 <= g / b)%Q).
  { apply Qle_shift_div_l; [done|]. lra. }
  assert (H2 : (g / b <= 1)%Q).
  { apply Qle_shift_div_r; [done|]. lra. }
  set (r := (g / b)%Q) in *. clearbody r.
  change (inject_Z 100) with 100%Q.
  split.
  - apply (Qfloor_resp_le 0%Q). lra.
  - apply (Qfloor_resp_le _ (201 # 2)%Q). lra.
Qed.

Lemma percent_clamp (v : Z) : percent (clamp (Some v)).
Proof. simpl. lia. Qed.

Ltac js_simpl :=
  cbn [lift2 toQ lit frac Math_round Math_min Math_max clamp percent
       population energyConsumption carbonFootprint greenCoverage transitScore
       walkability airQuality energyEfficiency sustainabilityScore].

(** The bounded indicators of [calculateStats], from counts that are numbers
    with the green cells among the built ones. *)
Lemma statsOf_bounded (n : Z) (d : Distribution) (e g t r i : Z) :
  count d "empty" = Some e -> count d "green" = Some g ->
  count d "transit" = Some t -> count d "residential" = Some r ->
  count d "industrial" = Some i ->
  0 <= g <= n * n - e ->
  percent (calculateSustainabilityScore d) ->
  boundedStats (statsOf n d).
Proof.
  intros He Hg Ht Hr Hi Hrange Hscore.
  unfold boundedStats, statsOf. rewrite He, Hg, Ht, Hr, Hi. js_simpl.
  destruct (gt0 _) eqn:Hb; js_simpl.
  - unfold gt0, lit, lt in Hb. apply Qltb_lt in Hb.
    pose proof (round_percent (inject_Z g) (inject_Z (n * n) - inject_Z e)) as Hround.
    destruct Hround; [| |done|].
    + change 0%Q with (inject_Z 0). rewrite <- Zle_Qle. lia.
    + unfold Qminus. rewrite <- inject_Z_opp, <- inject_Z_plus, <- Zle_Qle. lia.
    + split_and!; try lia; try done.
  - split_and!; try lia; try done.
Qed.

Lemma cellAt_negative (g : Grid) (x y : Z) : x < 0 \/ y < 0 -> cellAt g x y = None.
Proof.
  intros H. unfold cellAt, at_index.
  destruct (Z.ltb_spec y 0); [done|].
  destruct (g !! Z.to_nat y); [|done]. simpl.
  destruct (Z.ltb_spec x 0); [done|lia].
Qed.

Lemma cellAt_replaceCell_other (g : Grid) (x y x' y' : Z) (old z : Zone) :
  0 <= x -> 0 <= y -> ~ (x' = x /\ y' = y) ->
  cellAt g x y = Some old ->
  cellAt (replaceCell x y z g) x' y' = cellAt g x' y'.
Proof.
  intros Hx Hy Hne Hcell.
  destruct (decide (0 <= x' /\ 0 <= y')) as [[Hx' Hy']|Hneg].
  - rewrite (cellAt_replaceCell g x y x' y' old z); try done.
    by rewrite decide_False.
  - rewrite !cellAt_negative by lia. done.
Qed.

Lemma idsBelow_fresh (s : nat) (g : Grid) :
  idsBelow s g -> Forall (Forall (fun z => zoneId z <> s)) g.
Proof.
  intros H. eapply Forall_impl; [exact H|]. simpl. intros row Hr.
  eapply Forall_impl; [exact Hr|]. simpl. intros. lia.
Qed.


(** *** Fresh and cleared cities *)

Lemma rowCount_uniform (t k : string) (row : list Zone) :
  Forall (fun z => zoneType z = t) row ->
  rowCount k row = if decide (t = k) then Z.of_nat (length row) else 0.
Proof.
  induction 1 as [|z row Hz _ IH].
  - by destruct (decide _).
  - rewrite rowCount_cons, IH, Hz. simpl length. destruct (decide (t = k)); lia.
Qed.

Lemma countType_uniform (t k : string) (n : Z) (g : Grid) :
  0 <= n -> squareGrid n g ->
  Forall (Forall (fun z => zoneType z = t)) g ->
  countType k g = if decide (t = k) then n * n else 0.
Proof.
  intros Hn [Hlen Hrows] Hall.
  assert (H : countType k g =
              if decide (t = k) then Z.of_nat (length g) * n else 0).
  { clear Hlen. induction Hall as [|row g Hrow _ IH].
    - by destruct (decide _).
    - apply Forall_cons in Hrows as [Hr Hrows].
      rewrite countType_cons, (rowCount_uniform t k row Hrow), (IH Hrows), Hr.
      simpl length. destruct (decide _); lia. }
  rewrite H, Hlen. destruct (decide _); lia.
Qed.

Lemma lookup_emptyDistribution (n : Z) (k : string) :
  k ∈ zoneKeys ->
  emptyDistribution n !! k = Some (Some (if decide (k = "empty") then n * n else 0)).
Proof.
  unfold zoneKeys. rewrite !elem_of_cons, elem_of_nil.
  intros [->|[->|[->|[->|[->|[->|[->|[]]]]]]]]; reflexivity.
Qed.

Lemma countsMatch_emptyDistribution (n : Z) (g : Grid) :
  0 <= n -> squareGrid n g ->
  Forall (Forall (fun z => zoneType z = "empty")) g ->
  countsMatch (emptyDistribution n) g.
Proof.
  intros Hn Hsq Hall. unfold countsMatch. rewrite Forall_forall. intros k Hk.
  rewrite (lookup_emptyDistribution n k Hk).
  rewrite (countType_uniform "empty" k n g Hn Hsq Hall).
  destruct (decide (k = "empty")) as [->|?]; [done|]. by rewrite decide_False.
Qed.

Lemma newCity_consistent (size_ : SizeArg) (supply : nat) (c0 : City) :
  newCity size_ supply = Some c0 -> 0 <= gridSize c0 -> consistent c0.
Proof.
  intros (sz & n & tp & g & Hsq & Hall & Hids & ->)%constructor_effect Hn.
  simpl in *. exists (emptyDistribution n). split; [done|]. simpl.
  split_and!; try done. by apply countsMatch_emptyDistribution.
Qed.

(** What [clear] leaves, on any City. *)
Lemma clear_effect (c : City) :
  exists g,
    clear c =
      Ret tt (set_stats (statsOf (gridSize c) (emptyDistribution (gridSize c)))
               (set_distribution (Some (emptyDistribution (gridSize c)))
                 (set_grid g
                   (set_idSupply (idSupply c + Z.to_nat (gridSize c) * Z.to_nat (gridSize c))
                      c)))) /\
    squareGrid (gridSize c) g /\
    Forall (Forall (fun z => zoneType z = "empty")) g /\
    idsBelow (idSupply c + Z.to_nat (gridSize c) * Z.to_nat (gridSize c)) g.
Proof.
  destruct (resetGrid_effect c) as (g & Hg & Hsq & Hall & Hids).
  exists g. split_and!; try done.
  unfold clear. rewrite (bind_Ret _ _ _ _ _ Hg). reflexivity.
Qed.

(** *** The sum of the counts *)

Lemma sumValues_insert (k : string) (v : num) (m : Distribution) :
  m !! k = None -> sumValues (<[k := v]> m) = lift2 Z.add (sumValues m) v.
Proof.
  intros H. unfold sumValues. rewrite map_fold_insert_L; [done| |done].
  intros j1 j2 z1 z2 y _ _ _. destruct y, z1, z2; simpl; try done. f_equal. lia.
Qed.

Lemma sumValues_sevenCounts (f : string -> Z) :
  sumValues (sevenCounts f) = Some (sumKeys f).
Proof.
  unfold sevenCounts.
  rewrite !sumValues_insert by (by simplify_map_eq).
  unfold sumValues. rewrite map_fold_empty. simpl. unfold sumKeys. f_equal. lia.
Qed.

Lemma lookup_sevenCounts (f : string -> Z) (k : string) :
  sevenCounts f !! k = if decide (k ∈ zoneKeys) then Some (Some (f k)) else None.
Proof.
  unfold sevenCounts, zoneKeys.
  destruct (decide (k ∈ _)) as [Hin|Hout].
  - rewrite !elem_of_cons, elem_of_nil in Hin.
    destruct Hin as [->|[->|[->|[->|[->|[->|[->|[]]]]]]]]; reflexivity.
  - rewrite !elem_of_cons, elem_of_nil in Hout.
    rewrite !lookup_insert_ne by (intros <-; tauto). apply lookup_empty.
Qed.

Lemma closed_sevenCounts (d : Distribution) (g : Grid) :
  countsMatch d g -> keysClosed d -> d = sevenCounts (fun k => countType k g).
Proof.
  intros Hm Hk. apply map_eq. intros k. rewrite lookup_sevenCounts.
  unfold countsMatch in Hm. rewrite Forall_forall in Hm.
  destruct (decide (k ∈ zoneKeys)) as [Hin|Hout].
  - by apply Hm.
  - destruct (d !! k) eqn:E; [|done]. exfalso. apply Hout, Hk. by eexists.
Qed.

Lemma sumKeys_plus (a b : string -> Z) :
  sumKeys (fun k => a k + b k) = sumKeys a + sumKeys b.
Proof. unfold sumKeys. lia. Qed.

Lemma sumKeys_cell (t : string) :
  t ∈ zoneKeys -> sumKeys (fun k => if decide (t = k) then 1 else 0) = 1.
Proof.
  unfold zoneKeys. rewrite !elem_of_cons, elem_of_nil.
  intros [->|[->|[->|[->|[->|[->|[->|[]]]]]]]]; reflexivity.
Qed.

Lemma sumKeys_rowCount (row : list Zone) :
  Forall (fun z => zoneType z ∈ zoneKeys) row ->
  sumKeys (fun k => rowCount k row) = Z.of_nat (length row).
Proof.
  induction 1 as [|z row Hz _ IH].
  - reflexivity.
  - transitivity (sumKeys (fun k => (if decide (zoneType z = k) then 1 else 0)
                                    + rowCount k row)).
    + unfold sumKeys. by rewrite !rowCount_cons.
    + rewrite sumKeys_plus, (sumKeys_cell _ Hz), IH. simpl length. lia.
Qed.

Lemma sumKeys_countType (n : Z) (g : Grid) :
  0 <= n -> squareGrid n g -> typesClosed g ->
  sumKeys (fun k => countType k g) = n * n.
Proof.
  intros Hn [Hlen Hrows] Hall.
  assert (H : sumKeys (fun k => countType k g) = Z.of_nat (length g) * n).
  { clear Hlen. induction Hall as [|row g Hrow _ IH].
    - reflexivity.
    - apply Forall_cons in Hrows as [Hr Hrows].
      transitivity (sumKeys (fun k => rowCount k row + countType k g)).
      + reflexivity.
      + rewrite sumKeys_plus, (sumKeys_rowCount row Hrow), (IH Hrows), Hr.
        simpl length. lia. }
  rewrite H, Hlen. lia.
Qed.

Lemma countType_nonneg (k : string) (g : Grid) : 0 <= countType k g.
Proof.
  induction g as [|row g IH]; [done|].
  rewrite countType_cons. unfold rowCount. lia.
Qed.

Lemma closed_tallied (n : Z) (g : Grid) (d : Distribution) :
  0 <= n -> squareGrid n g -> countsMatch d g -> typesClosed g -> keysClosed d ->
  tallied n d.
Proof.
  intros Hn Hsq Hm Ht Hk. split.
  - rewrite (closed_sevenCounts d g Hm Hk), sumValues_sevenCounts.
    by rewrite (sumKeys_countType n g).
  - intros k v Hv. unfold countsMatch in Hm. rewrite Forall_forall in Hm.
    assert (Hin : k ∈ zoneKeys) by (apply Hk; by eexists).
    rewrite (Hm k Hin) in Hv. injection Hv as <-.
    eexists. split; [done|]. apply countType_nonneg.
Qed.

Lemma emptyDistribution_seven (n : Z) :
  emptyDistribution n = sevenCounts (fun k => if decide (k = "empty") then n * n else 0).
Proof. reflexivity. Qed.

Lemma emptyDistribution_tallied (n : Z) : tallied n (emptyDistribution n).
Proof.
  split.
  - rewrite emptyDistribution_seven, sumValues_sevenCounts. unfold sumKeys. simpl.
    f_equal. lia.
  - intros k v. rewrite emptyDistribution_seven, lookup_sevenCounts.
    destruct (decide (k ∈ zoneKeys)); [|done]. intros [= <-].
    eexists. split; [done|]. destruct (decide _); nia.
Qed.

Lemma emptyDistribution_keysClosed (n : Z) : keysClosed (emptyDistribution n).
Proof.
  intros k [v Hv]. rewrite emptyDistribution_seven, lookup_sevenCounts in Hv.
  by destruct (decide (k ∈ zoneKeys)).
Qed.

Lemma typesClosed_cellAt (g : Grid) (x y : Z) (z : Zone) :
  0 <= x -> 0 <= y -> typesClosed g -> cellAt g x y = Some z ->
  zoneType z ∈ zoneKeys.
Proof.
  intros Hx Hy Ht (row & Hrow & Hcell)%cellAt_lookup; [|done..].
  unfold typesClosed in Ht.
  pose proof (Forall_lookup_1 _ _ _ _ Ht Hrow) as Hr. simpl in Hr.
  exact (Forall_lookup_1 _ _ _ _ Hr Hcell).
Qed.

Lemma setZone_closed (x y : Z) (type : string) (c : City) (d : Distribution) :
  (forall k, is_Some (ZONE_TYPES !! k) -> k ∈ zoneKeys) ->
  distribution c = Some d ->
  gridOk (gridSize c) (idSupply c) (grid c) d ->
  typesClosed (grid c) -> keysClosed d ->
  exists c' d',
    setZone x y type c = Ret tt c' /\ gridSize c' = gridSize c /\
    distribution c' = Some d' /\
    gridOk (gridSize c') (idSupply c') (grid c') d' /\
    typesClosed (grid c') /\ keysClosed d'.
Proof.
  intros Hcat Hd Hok Ht Hk.
  destruct (setZone_effect x y type c) as [Hsame|Hchg]; [by exists d|..].
  - exists c, d. done.
  - destruct Hchg as (old & d0 & Hx & Hy & Hin & Hold & Hne & Hd0 & Hset & Hc').
    assert (d0 = d) as -> by congruence.
    destruct Hc' as (d' & Hd' & Hok').
    exists (zoneSet x y type old d c), d'. split_and!; try done.
    + simpl. unfold replaceCell, typesClosed.
      apply Forall_alter; [done|]. intros row _ Hr. apply Forall_insert; [done|].
      simpl. by apply Hcat.
    + simpl in Hd'. injection Hd' as <-. intros k.
      rewrite (lookup_moveCount _ _ _ _ Hne).
      destruct (decide (k = type)) as [->|?]; [intros _; by apply Hcat|].
      destruct (decide (k = zoneType old)) as [->|?]; [|by apply Hk].
      intros _. apply (typesClosed_cellAt (grid c) x y); try done; lia.
Qed.

Lemma setZones_closed (calls : list (Z * Z * string)) (c : City) (d : Distribution) :
  (forall k, is_Some (ZONE_TYPES !! k) -> k ∈ zoneKeys) ->
  distribution c = Some d ->
  gridOk (gridSize c) (idSupply c) (grid c) d ->
  typesClosed (grid c) -> keysClosed d ->
  exists c' d',
    setZones calls c = Ret tt c' /\ gridSize c' = gridSize c /\
    distribution c' = Some d' /\
    gridOk (gridSize c') (idSupply c') (grid c') d' /\
    typesClosed (grid c') /\ keysClosed d'.
Proof.
  intros Hcat. revert c d.
  induction calls as [|[[x y] type] calls IH]; intros c d Hd Hok Ht Hk.
  - exists c, d. done.
  - destruct (setZone_closed x y type c d Hcat Hd Hok Ht Hk)
      as (c1 & d1 & Hset & Hn1 & Hd1 & Hok1 & Ht1 & Hk1).
    destruct (IH c1 d1 Hd1 Hok1 Ht1 Hk1) as (c2 & d2 & Hrun & Hn2 & Hrest).
    exists c2, d2. split; [|split; [congruence|done]].
    unfold setZones in *. cbn [for_each]. by rewrite (bind_Ret _ _ _ _ _ Hset).
Qed.

Lemma setZones_negative (calls : list (Z * Z * string)) (c : City) :
  gridSize c <= 0 -> setZones calls c = Ret tt c.
Proof.
  intros Hn. induction calls as [|[[x y] type] calls IH]; [done|].
  unfold setZones in *. cbn [for_each].
  by rewrite (bind_Ret _ _ _ _ _ (setZone_negative _ _ _ c Hn)).
Qed.


(** *** Worked statistics *)

(** C4 (amended).  On a 10 by 10 City whose cells are all residential,
    [calculateStats] yields greenCoverage 0, airQuality 60 and transitScore
    20: the residential share enters the score as the ratio 100/100 = 1, so
    the score is [round(50 + 0 - 1 * 30)]. *)
Theorem residential_city_stats (c : City) :
  consistent c ->
  gridSize c = 10 ->
  Forall (Forall (fun z => zoneType z = "residential")) (grid c) ->
  exists c',
    calculateStats c = Ret tt c' /\
    greenCoverage (stats c') = Some 0 /\
    transitScore (stats c') = Some 20 /\
    airQuality (stats c') = Some 60.
Proof.
  intros (d & Hd & Hsq & Hm & _) Hn Hall. rewrite Hn in Hsq.
  assert (Hcount : forall k, k ∈ zoneKeys ->
            count d k = Some (if decide ("residential" = k) then 100 else 0)).
  { intros k Hk. rewrite (countsMatch_count d (grid c) k Hm Hk).
    by rewrite (countType_uniform "residential" k 10 (grid c)). }
  unfold calculateStats. rewrite Hd, Hn. eexists. split; [reflexivity|].
  unfold statsOf. cbv zeta. cbn [stats set_stats greenCoverage transitScore airQuality].
  rewrite !Hcount by set_solver. done.
Qed.

Lemma gt0_difference_self (z : Z) : gt0 (lit z - toQ (Some z))%js = false.
Proof.
  unfold gt0, lit, lt, toQ. cbn [lift2].
  destruct (Qltb _ _) eqn:E; [|done].
  apply Qltb_lt in E. change (inject_Z 0) with 0%Q in E. lra.
Qed.

(** The statistics of a grid without built cells. *)
Lemma statsOf_emptyDistribution (n : Z) :
  let st := statsOf n (emptyDistribution n) in
  greenCoverage st = Some 0 /\ transitScore st = Some 50 /\
  walkability st = Some 50 /\ airQuality st = Some 60 /\
  energyEfficiency st = Some 60 /\ carbonFootprint st = Some 0.
Proof.
  assert (Hcount : forall k, k ∈ zoneKeys ->
            count (emptyDistribution n) k =
              Some (if decide (k = "empty") then n * n else 0)).
  { intros k Hk. unfold count. by rewrite (lookup_emptyDistribution n k Hk). }
  unfold statsOf. cbv zeta.
  cbn [greenCoverage transitScore walkability airQuality energyEfficiency carbonFootprint].
  rewrite !Hcount by set_solver.
  rewrite !decide_True by done. rewrite !decide_False by done.
  rewrite !(gt0_difference_self (n * n)).
  assert (Hmax : gt0 ((lit (n * n)%Z - toQ (Some (n * n)%Z)) * lit 5)%js = false).
  { unfold gt0, lit, lt, toQ. cbn [lift2].
    destruct (Qltb _ _) eqn:E; [|done].
    apply Qltb_lt in E. change (inject_Z 0) with 0%Q in E.
    change (inject_Z 5) with 5%Q in E. lra. }
  rewrite Hmax. done.
Qed.

(** C5.  The constructor does not call [calculateStats]: a new City holds
    the literal airQuality 70, also in its first snapshot, while
    [calculateStats] on its all-empty distribution gives 60, which is what
    [clear] stores for the same grid. *)
Theorem new_city_stats_are_not_calculated (size_ : SizeArg) (supply : nat)
    (c0 : City) :
  newCity size_ supply = Some c0 ->
  airQuality (stats c0) = Some 70 /\
  (exists d, distribution c0 = Some d /\
             airQuality (statsOf (gridSize c0) d) = Some 60 /\
             stats c0 <> statsOf (gridSize c0) d) /\
  (exists c', clear c0 = Ret tt c' /\ airQuality (stats c') = Some 60) /\
  (exists s, history c0 = [s] /\ airQuality (snapStats s) = Some 70).
Proof.
  intros Hnew.
  destruct (newCity_fields _ _ _ Hnew) as (_ & _ & _ & Hd & Hst & Hh & _).
  destruct (statsOf_emptyDistribution (gridSize c0)) as (_ & _ & _ & Hair & _).
  split_and!.
  - by rewrite Hst.
  - eexists. split; [exact Hd|]. split; [done|].
    intros Heq. rewrite <- Heq, Hst in Hair. discriminate.
  - destruct (clear_effect c0) as (g & -> & _). eexists. split; [done|]. done.
  - eexists. split; [exact Hh|]. simpl. by rewrite Hst.
Qed.

(** *** importData *)

Lemma calculateStats_Some (c : City) (d : Distribution) :
  distribution c = Some d ->
  calculateStats c = Ret tt (set_stats (statsOf (gridSize c) d) c).
Proof. unfold calculateStats. by intros ->. Qed.

Lemma calculateStats_None (c : City) :
  distribution c = None -> calculateStats c = Throw c.
Proof. unfold calculateStats. by intros ->. Qed.


(** *** Invariants through sequences and loops *)

Lemma keeps_ret {A : Type} (P : City -> Prop) (a : A) : keeps P (ret a) P.
Proof. by intros c Hc. Qed.

Lemma keeps_bind {A B : Type} (P Q R : City -> Prop) (m : M A) (f : A -> M B) :
  keeps P m Q -> (forall a, keeps Q (f a) R) -> keeps P (bind m f) R.
Proof.
  intros Hm Hf c Hc. unfold bind. specialize (Hm c Hc).
  destruct (m c) as [a c'| |]; try done. by apply Hf.
Qed.

Lemma keeps_weaken {A : Type} (P P' Q Q' : City -> Prop) (m : M A) :
  keeps P m Q -> (forall c, P' c -> P c) -> (forall c, Q c -> Q' c) ->
  keeps P' m Q'.
Proof.
  intros Hm HP HQ c Hc. specialize (Hm c (HP c Hc)).
  destruct (m c); try done. by apply HQ.
Qed.

Lemma keeps_for_each {X : Type} (P : City -> Prop) (l : list X) (body : X -> M unit) :
  (forall v, v ∈ l -> keeps P (body v) P) -> keeps P (for_each l body) P.
Proof.
  induction l as [|v l IH]; intros Hbody.
  - apply keeps_ret.
  - cbn [for_each]. eapply keeps_bind.
    + apply Hbody. set_solver.
    + intros _. apply IH. intros w Hw. apply Hbody. set_solver.
Qed.

Lemma keeps_for_stride (P : City -> Prop) (start step bound : Z) (body : Z -> M unit) :
  (forall v, keeps P (body v) P) -> keeps P (for_stride start step bound body) P.
Proof.
  intros Hbody. unfold for_stride.
  destruct (bound <=? start); [apply keeps_ret|].
  destruct (step <=? 0).
  - eapply keeps_bind; [apply Hbody|]. by intros _ c _.
  - apply keeps_for_each. auto.
Qed.

(** *** The invariant [sound] *)

Lemma rowCount_pair (k1 k2 : string) (row : list Zone) :
  k1 <> k2 -> rowCount k1 row + rowCount k2 row <= Z.of_nat (length row).
Proof.
  intros Hne. induction row as [|z row IH]; [done|].
  rewrite !rowCount_cons. simpl length.
  destruct (decide (zoneType z = k1)), (decide (zoneType z = k2)); try lia.
  congruence.
Qed.

Lemma countType_pair (k1 k2 : string) (n : Z) (g : Grid) :
  squareGrid n g -> k1 <> k2 -> countType k1 g + countType k2 g <= n * n.
Proof.
  intros [Hlen Hrows] Hne.
  assert (H : countType k1 g + countType k2 g
              <= Z.of_nat (length g) * Z.of_nat (Z.to_nat n)).
  { clear Hlen. induction Hrows as [|row g Hr _ IH]; [done|].
    rewrite !countType_cons. pose proof (rowCount_pair k1 k2 row Hne).
    simpl length. lia. }
  rewrite Hlen in H. nia.
Qed.

Lemma tripleOk_statsOf (n : Z) (supply : nat) (g : Grid) (d : Distribution) :
  (forall d, percent (calculateSustainabilityScore d)) ->
  tripleOk n supply g d -> boundedStats (statsOf n d).
Proof.
  intros score_percent [(Hsq & Hm & _)|(Hn & -> & ->)].
  - pose proof (countType_pair "green" "empty" n g Hsq) as Hpair.
    pose proof (countType_nonneg "green" g).
    eapply (statsOf_bounded n d);
      try (apply (countsMatch_count d g); [done|set_solver]); [|done].
    split; [done|]. specialize (Hpair ltac:(done)). lia.
  - destruct (statsOf_emptyDistribution n) as (Hg & Ht & Hw & Ha & He & _).
    unfold boundedStats. rewrite Hg, Ht, Hw, Ha, He. simpl.
    split_and!; try lia. apply score_percent.
Qed.

Section Invariant.

Variable good : Stats -> Prop.
Hypothesis good_statsOf :
  forall n supply g d, tripleOk n supply g d -> good (statsOf n d).
Hypothesis good_initial : good initialStats.

Lemma tripleOk_mono (n : Z) (s s' : nat) (g : Grid) (d : Distribution) :
  (s <= s')%nat -> tripleOk n s g d -> tripleOk n s' g d.
Proof.
  intros Hle [(Hsq & Hm & Hids)|Hneg]; [left|by right].
  split_and!; try done. by eapply idsBelow_mono.
Qed.

Lemma snapshotsOk_mono (n : Z) (s s' : nat) (h : list Snapshot) :
  (s <= s')%nat -> Forall (snapshotOk good n s) h -> Forall (snapshotOk good n s') h.
Proof.
  intros Hle H. eapply Forall_impl; [exact H|]. intros sn [Ht Hb].
  split; [|done]. by eapply tripleOk_mono.
Qed.

Lemma setZone_sound (x y : Z) (type : string) :
  keeps (sound good) (setZone x y type) (sound good).
Proof.
  intros c ((d & Hd & Hok) & Hb & Hv & Hh).
  destruct Hok as [Hok|(Hn & Hg & Hde)].
  - destruct (setZone_effect x y type c) as [->|Hchg]; [by exists d|..].
    + split_and!; try done. exists d. split; [done|by left].
    + destruct Hchg as (old & d0 & Hx & Hy & Hin & Hold & Hne & Hd0 & -> & Hc').
      destruct Hc' as (d' & Hd' & Hok').
      split_and!.
      * exists d'. split; [done|by left].
      * simpl. simpl in Hd'. injection Hd' as <-.
        apply (good_statsOf _ (S (idSupply c)) (replaceCell x y (mkZone type (idSupply c)) (grid c))). left. exact Hok'.
      * exact Hv.
      * simpl. eapply snapshotsOk_mono; [|exact Hh]. lia.
  - rewrite setZone_negative by lia.
    split_and!; try done. exists d. split; [done|]. by right.
Qed.

Lemma calculateStats_sound : keeps (sound good) calculateStats (sound good).
Proof.
  intros c ((d & Hd & Hok) & Hb & Hv & Hh).
  rewrite (calculateStats_Some c d Hd).
  split_and!; try done.
  - by exists d.
  - simpl. by eapply good_statsOf.
Qed.

Lemma saveState_sound : keeps (sound good) saveState (sound good).
Proof.
  intros c ((d & Hd & Hok) & Hb & [Hi Hlen] & Hh).
  destruct (saveState_effect c) as (c' & -> & Hv' & _ & _ & Hh' & _ & Hc'); [lia|done|].
  rewrite Hc'. split_and!; try done.
  - by exists d.
  - simpl. rewrite Hh'.
    assert (Hpushed : Forall (snapshotOk good (gridSize c) (idSupply c))
              (take (Z.to_nat (historyIndex c + 1)) (history c) ++ [snapshot c])).
    { apply Forall_app. split; [by apply Forall_take|].
      apply Forall_singleton. split; [|done]. simpl. by rewrite Hd. }
    destruct (50 <? _); [by apply Forall_drop|done].
Qed.

Lemma restore_sound (s : Snapshot) (i : Z) (c : City) :
  sound good c -> s ∈ history c -> 0 <= i < Z.of_nat (length (history c)) ->
  sound good (restore s (set_historyIndex i c)).
Proof.
  intros ((d & Hd & Hok) & Hb & [Hi Hlen] & Hh) Hs Hrange.
  rewrite Forall_forall in Hh. destruct (Hh s Hs) as [Hts Hbs].
  split_and!; try done.
  - eexists. split; [reflexivity|]. exact Hts.
  - by apply Forall_forall.
Qed.

Lemma undo_sound : keeps (sound good) undo (sound good).
Proof.
  intros c Hc. pose proof Hc as (_ & _ & Hv & _).
  destruct (undo_effect c Hv) as [H0 Hpos].
  destruct (Z.eq_dec (historyIndex c) 0) as [Hz|Hz].
  - by rewrite (H0 Hz).
  - destruct Hv as [Hi Hlen].
    destruct Hpos as (s & Hs & ->); [lia|].
    apply restore_sound; [done| |lia].
    apply at_index_Some in Hs as [_ Hs]. by eapply list_elem_of_lookup_2.
Qed.

Lemma redo_sound : keeps (sound good) redo (sound good).
Proof.
  intros c Hc. pose proof Hc as (_ & _ & Hv & _).
  destruct (redo_effect c Hv) as [H0 Hpos].
  destruct (Z.eq_dec (historyIndex c) (Z.of_nat (length (history c)) - 1)) as [Hz|Hz].
  - by rewrite (H0 Hz).
  - destruct Hv as [Hi Hlen].
    destruct Hpos as (s & Hs & ->); [lia|].
    apply restore_sound; [done| |lia].
    apply at_index_Some in Hs as [_ Hs]. by eapply list_elem_of_lookup_2.
Qed.

Lemma setZone_gridSize (x y : Z) (type : string) (c c' : City) :
  setZone x y type c = Ret tt c' -> gridSize c' = gridSize c.
Proof.
  unfold setZone.
  destruct (outOfRange x y c); [by intros [= <-]|].
  destruct (negb (inCatalog type)); [by intros [= <-]|].
  destruct (cellAt (grid c) x y) as [old|]; [|done].
  destruct (String.eqb _ _); [by intros [= <-]|].
  destruct (distribution c) as [d|]; [|done].
  intros [= <-]. reflexivity.
Qed.

Lemma setZone_soundAt (n x y : Z) (type : string) :
  keeps (soundAt good n) (setZone x y type) (soundAt good n).
Proof.
  intros c [Hc Hn]. pose proof (setZone_sound x y type c Hc) as H.
  destruct (setZone x y type c) as [[] c'| |] eqn:E; try done.
  split; [done|]. by rewrite (setZone_gridSize _ _ _ _ _ E).
Qed.

Lemma clear_soundAt (n : Z) : keeps (soundAt good n) clear (soundAt good n).
Proof.
  intros c [((d & Hd & Hok) & Hb & Hv & Hh) Hn].
  destruct (clear_effect c) as (g & -> & Hsq & Hall & Hids).
  assert (Ht : tripleOk (gridSize c)
                 (idSupply c + Z.to_nat (gridSize c) * Z.to_nat (gridSize c)) g
                 (emptyDistribution (gridSize c))).
  { destruct (Z.le_gt_cases 0 (gridSize c)) as [Hpos|Hneg].
    - left. split_and!; try done. by apply countsMatch_emptyDistribution.
    - right. split_and!; try done; try lia.
      destruct Hsq as [Hlen _]. destruct g; [done|simpl in Hlen; lia]. }
  split; [|done]. split_and!; try done.
  - eexists. split; [reflexivity|]. exact Ht.
  - simpl. by eapply good_statsOf.
  - simpl. eapply snapshotsOk_mono; [|exact Hh]. lia.
Qed.

Lemma soundAt_sound (n : Z) {A : Type} (m : M A) :
  (forall n, keeps (soundAt good n) m (soundAt good n)) ->
  keeps (sound good) m (sound good).
Proof.
  intros H c Hc. specialize (H (gridSize c) c (conj Hc eq_refl)).
  destruct (m c); try done. apply H.
Qed.

Lemma fillArea_soundAt (n x1 y1 x2 y2 : Z) (type : string) :
  keeps (soundAt good n) (fillArea x1 y1 x2 y2 type) (soundAt good n).
Proof.
  unfold fillArea. eapply keeps_bind.
  - apply keeps_for_each. intros y _. apply keeps_for_each. intros x _.
    apply setZone_soundAt.
  - intros _ c [Hc Hn]. pose proof (saveState_sound c Hc) as H.
    destruct (saveState_effect c) as (c' & Hs & _ & _ & _ & _ & _ & Hc').
    + destruct Hc as (_ & _ & [? ?] & _). lia.
    + by destruct Hc as (_ & _ & [? ?] & _).
    + rewrite Hs in *. split; [done|]. rewrite Hc'. by simpl.
Qed.

Lemma saveState_soundAt (n : Z) : keeps (soundAt good n) saveState (soundAt good n).
Proof.
  intros c [Hc Hn]. pose proof (saveState_sound c Hc) as H.
  destruct (saveState_effect c) as (c' & Hs & _ & _ & _ & _ & _ & Hc').
  - destruct Hc as (_ & _ & [? ?] & _). lia.
  - by destruct Hc as (_ & _ & [? ?] & _).
  - rewrite Hs in *. split; [done|]. rewrite Hc'. by simpl.
Qed.

Lemma calculateStats_soundAt (n : Z) : keeps (soundAt good n) calculateStats (soundAt good n).
Proof.
  intros c [Hc Hn]. pose proof (calculateStats_sound c Hc) as H.
  destruct Hc as ((d & Hd & _) & _). rewrite (calculateStats_Some c d Hd) in *.
  split; [done|]. by simpl.
Qed.

Lemma generateRoadNetwork_soundAt (n : Z) :
  keeps (soundAt good n) generateRoadNetwork (soundAt good n).
Proof.
  intros c Hc. unfold generateRoadNetwork. revert c Hc.
  change (keeps (soundAt good n)
    (fun c => (for_stride (gridSize c / 8) (gridSize c / 8) (gridSize c) (fun y =>
       for_each (seqZ 0 (gridSize c)) (fun x => setZone x y "road")) ;;;
     for_stride (gridSize c / 8) (gridSize c / 8) (gridSize c) (fun x =>
       for_each (seqZ 0 (gridSize c)) (fun y => setZone x y "road")) ;;;
     for_each (seqZ (-2) 5) (fun i =>
       for_each (seqZ 0 (gridSize c)) (fun j =>
         let offset := j - gridSize c / 2 in
         if (0 <=? gridSize c / 2 + offset + i) && (gridSize c / 2 + offset + i <? gridSize c)
         then setZone j (gridSize c / 2 + offset + i) "road"
         else ret tt))) c) (soundAt good n)).
  intros c Hc.
  refine (keeps_bind (soundAt good n) (soundAt good n) (soundAt good n) _ _ _ _ c Hc).
  { apply keeps_for_stride. intros y. apply keeps_for_each. intros x _.
    apply setZone_soundAt. }
  intros _. eapply keeps_bind.
  { apply keeps_for_stride. intros x. apply keeps_for_each. intros y _.
    apply setZone_soundAt. }
  intros _. apply keeps_for_each. intros i _. apply keeps_for_each. intros j _.
  simpl. destruct (_ && _); [apply setZone_soundAt|apply keeps_ret].
Qed.

Lemma addTransitHubs_soundAt (n : Z) :
  keeps (soundAt good n) addTransitHubs (soundAt good n).
Proof.
  intros c Hc. unfold addTransitHubs.
  refine (keeps_for_stride (soundAt good n) _ _ _ _ _ c Hc).
  intros y. apply keeps_for_stride. intros x.
  repeat (eapply keeps_bind; [apply setZone_soundAt|intros _]).
  apply setZone_soundAt.
Qed.

Lemma sound_set_drawCount (k : nat) (c : City) : sound good c -> sound good (set_drawCount k c).
Proof. by intros H. Qed.

Lemma zoneCell_soundAt (n x y : Z) (random : nat -> Q) (params : LayoutParams) :
  0 <= n -> 0 <= x < n -> 0 <= y < n ->
  keeps (soundAt good n) (zoneCell random params x y) (soundAt good n).
Proof.
  intros Hn Hx Hy c [Hc Hgs]. unfold zoneCell.
  pose proof Hc as ((d & Hd & Hok) & _).
  destruct Hok as [(Hsq & _)|(Hneg & _)]; [|lia].
  rewrite Hgs in Hsq.
  destruct (squareGrid_cellAt n (grid c) x y Hsq Hx Hy) as [z ->].
  destruct (negb (String.eqb (zoneType z) "empty")); [done|].
  rewrite (bind_Ret (Math_random random) _ c _ _ eq_refl).
  destruct (negb (String.eqb _ "empty")); [|done].
  apply setZone_soundAt. split; [by apply sound_set_drawCount|done].
Qed.

Lemma generateLayout_soundAt (n : Z) (random : nat -> Q) (params : LayoutParams) :
  keeps (soundAt good n) (generateLayout random params) (soundAt good n).
Proof.
  intros c Hc. unfold generateLayout. rewrite (proj2 Hc).
  revert c Hc.
  change (keeps (soundAt good n)
    (clear ;;; generateRoadNetwork ;;;
     for_each (seqZ 0 n) (fun y =>
       for_each (seqZ 0 n) (fun x => zoneCell random params x y)) ;;;
     addTransitHubs ;;; calculateStats ;;; saveState) (soundAt good n)).
  eapply keeps_bind; [apply clear_soundAt|intros _].
  eapply keeps_bind; [apply generateRoadNetwork_soundAt|intros _].
  eapply keeps_bind.
  { apply keeps_for_each. intros y Hy. apply keeps_for_each. intros x Hx.
    apply elem_of_seqZ in Hy, Hx. apply zoneCell_soundAt; lia. }
  intros _.
  eapply keeps_bind; [apply addTransitHubs_soundAt|intros _].
  eapply keeps_bind; [apply calculateStats_soundAt|intros _].
  apply saveState_soundAt.
Qed.

Lemma perform_sound (call : Call) : keeps (sound good) (perform call) (sound good).
Proof.
  destruct call; simpl.
  - apply setZone_sound.
  - apply (soundAt_sound 0). intros n. apply fillArea_soundAt.
  - apply (soundAt_sound 0). intros n. apply clear_soundAt.
  - apply (soundAt_sound 0). intros n. apply generateLayout_soundAt.
  - apply saveState_sound.
  - eapply keeps_bind; [apply undo_sound|intros _; apply keeps_ret].
  - eapply keeps_bind; [apply redo_sound|intros _; apply keeps_ret].
Qed.

Lemma newCity_sound (size_ : SizeArg) (supply : nat) (c0 : City) :
  newCity size_ supply = Some c0 -> sound good c0.
Proof.
  intros Hnew.
  destruct (newCity_fields _ _ _ Hnew) as (Hsq & Hall & Hids & Hd & Hst & Hh & Hi).
  destruct (newCity_cursorValid _ _ _ Hnew) as [Hv _].
  assert (Ht : tripleOk (gridSize c0) (idSupply c0) (grid c0)
                 (emptyDistribution (gridSize c0))).
  { destruct (Z.le_gt_cases 0 (gridSize c0)) as [Hpos|Hneg].
    - left. split_and!; try done. by apply countsMatch_emptyDistribution.
    - right. split_and!; try done; try lia.
      destruct Hsq as [Hlen _]. destruct (grid c0); [done|simpl in Hlen; lia]. }
  assert (Hb : good (stats c0)) by (by rewrite Hst).
  split_and!; try done.
  - by eexists.
  - rewrite Hh. apply Forall_singleton. split; [|done]. simpl. by rewrite Hd.
Qed.

Lemma sound_consistent (c : City) : sound good c -> 0 <= gridSize c -> consistent c.
Proof.
  intros ((d & Hd & [Hok|(Hneg & _)]) & _) Hn; [|lia]. by exists d.
Qed.

Lemma reachable_sound (c : City) : reachable c -> sound good c.
Proof.
  intros (size_ & supply & c0 & calls & Hnew & Hrun).
  pose proof (keeps_for_each (sound good) calls perform (fun v _ => perform_sound v) c0
                (newCity_sound _ _ _ Hnew)) as H.
  by rewrite Hrun in H.
Qed.

End Invariant.

(** Every state that a constructed City reaches is consistent, or has a
    negative grid size and no cell. *)
Lemma reachable_consistent (c : City) :
  reachable c -> consistent c \/ gridSize c < 0.
Proof.
  intros Hc.
  pose proof (reachable_sound (fun _ => True) (fun _ _ _ _ _ => I) I c Hc)
    as ((d & Hd & [Hok|(Hneg & _)]) & _).
  - left. by exists d.
  - by right.
Qed.

(** C6.  Provided [calculateSustainabilityScore] returns a number in
    [0, 100], which is all the spec says about it: in every state that a
    constructed City reaches through setZone, fillArea, clear,
    generateLayout, saveState, undo and redo, each of transitScore,
    walkability, airQuality, energyEfficiency, greenCoverage and
    sustainabilityScore is a number in [0, 100]. *)
Theorem bounded_indicators (c : City) :
  (forall d, percent (calculateSustainabilityScore d)) ->
  reachable c ->
  percent (transitScore (stats c)) /\ percent (walkability (stats c)) /\
  percent (airQuality (stats c)) /\ percent (energyEfficiency (stats c)) /\
  percent (greenCoverage (stats c)) /\ percent (sustainabilityScore (stats c)).
Proof.
  intros Hscore Hc.
  assert (Hinit : boundedStats initialStats).
  { unfold boundedStats. simpl. lia. }
  pose proof (reachable_sound boundedStats
                (fun n supply g d => tripleOk_statsOf n supply g d Hscore)
                Hinit c Hc) as (_ & Hb & _).
  exact Hb.
Qed.



(** *** Calls that return *)

Lemma returns_ret {A : Type} (P : City -> Prop) (a : A) : returns P (ret a) P.
Proof. intros c Hc. by exists a, c. Qed.

Lemma returns_bind {A B : Type} (P Q R : City -> Prop) (m : M A) (f : A -> M B) :
  returns P m Q -> (forall a, returns Q (f a) R) -> returns P (bind m f) R.
Proof.
  intros Hm Hf c Hc. destruct (Hm c Hc) as (a & c1 & H1 & Hq).
  destruct (Hf a c1 Hq) as (b & c2 & H2 & Hr).
  exists b, c2. split; [|done]. by rewrite (bind_Ret _ _ _ _ _ H1).
Qed.

Lemma returns_weaken {A : Type} (P P' Q Q' : City -> Prop) (m : M A) :
  returns P m Q -> (forall c, P' c -> P c) -> (forall c, Q c -> Q' c) ->
  returns P' m Q'.
Proof.
  intros Hm HP HQ c Hc. destruct (Hm c (HP c Hc)) as (a & c' & H & Hq).
  exists a, c'. split; [done|]. by apply HQ.
Qed.

(** A loop whose invariant records the values handled so far. *)
Lemma returns_for_each {X : Type} (Inv : list X -> City -> Prop) (l pre : list X)
    (body : X -> M unit) :
  (forall done v, v ∈ l -> returns (Inv done) (body v) (Inv (done ++ [v]))) ->
  returns (Inv pre) (for_each l body) (Inv (pre ++ l)).
Proof.
  revert pre. induction l as [|v l IH]; intros pre Hbody.
  - rewrite app_nil_r. apply returns_ret.
  - cbn [for_each]. eapply returns_bind.
    + apply Hbody. set_solver.
    + intros _. replace (pre ++ v :: l) with ((pre ++ [v]) ++ l)
        by (by rewrite <- app_assoc).
      apply IH. intros done w Hw. apply Hbody. set_solver.
Qed.

Lemma returns_for_each_same {X : Type} (P : City -> Prop) (l : list X)
    (body : X -> M unit) :
  (forall v, v ∈ l -> returns P (body v) P) -> returns P (for_each l body) P.
Proof.
  intros Hbody.
  apply (returns_for_each (fun _ => P) l [] body). auto.
Qed.

Lemma for_stride_positive (start step bound : Z) (body : Z -> M unit) :
  0 < step ->
  for_stride start step bound body = for_each (strides start step bound) body.
Proof.
  intros Hs. unfold for_stride, strides.
  destruct (Z.leb_spec bound start); [done|].
  destruct (Z.leb_spec step 0); [lia|done].
Qed.

(** *** Where transit cells come from *)

Lemma cellAt_inrange (n : Z) (g : Grid) (x y : Z) (z : Zone) :
  squareGrid n g -> cellAt g x y = Some z -> 0 <= x < n /\ 0 <= y < n.
Proof.
  intros [Hlen Hrows] Hcell.
  destruct (decide (0 <= x /\ 0 <= y)) as [[Hx Hy]|Hneg].
  - apply cellAt_lookup in Hcell as (row & Hrow & Hz); [|done..].
    pose proof (Forall_lookup_1 _ _ _ _ Hrows Hrow) as Hr. simpl in Hr.
    apply lookup_lt_Some in Hrow, Hz. lia.
  - rewrite cellAt_negative in Hcell by lia. done.
Qed.

Lemma cellAt_elem (g : Grid) (x y : Z) (z : Zone) :
  cellAt g x y = Some z -> exists row, row ∈ g /\ z ∈ row.
Proof.
  intros Hcell.
  destruct (decide (0 <= x /\ 0 <= y)) as [[Hx Hy]|Hneg].
  - apply cellAt_lookup in Hcell as (row & Hrow & Hz); [|done..].
    exists row. split; by eapply list_elem_of_lookup_2.
  - rewrite cellAt_negative in Hcell by lia. done.
Qed.

Lemma setZone_gridAt (n x y : Z) (type : string) :
  returns (gridAt n) (setZone x y type) (gridAt n).
Proof.
  intros c [Hc Hn].
  destruct (setZone_effect x y type c Hc) as [H|(old & d & _ & _ & _ & _ & _ & _ & H & Hc')].
  - exists tt, c. done.
  - exists tt. eexists. split; [exact H|]. split; [done|]. by simpl.
Qed.

Lemma setZone_noTransit (n x y : Z) (type : string) :
  type <> "transit" ->
  returns (fun c => gridAt n c /\ noTransit (grid c)) (setZone x y type)
          (fun c => gridAt n c /\ noTransit (grid c)).
Proof.
  intros Ht c [[Hc Hn] Hno].
  destruct (setZone_effect x y type c Hc) as [H|(old & d & _ & _ & _ & _ & _ & _ & H & Hc')].
  - exists tt, c. done.
  - exists tt. eexists. split; [exact H|]. split; [split; [done|by simpl]|].
    simpl. unfold replaceCell, noTransit.
    apply Forall_alter; [done|]. intros row _ Hr. by apply Forall_insert.
Qed.

Lemma noTransit_transitExactly (c : City) :
  noTransit (grid c) -> transitExactly (fun _ _ => False) c.
Proof.
  intros Hno x y z (row & Hrow & Hz)%cellAt_elem.
  unfold noTransit in Hno. rewrite Forall_forall in Hno.
  specialize (Hno row Hrow). rewrite Forall_forall in Hno.
  specialize (Hno z Hz). tauto.
Qed.

Lemma setZone_transit (n x0 y0 : Z) (S : Z -> Z -> Prop) :
  is_Some (ZONE_TYPES !! "transit") ->
  returns (fun c => gridAt n c /\ transitExactly S c)
          (setZone x0 y0 "transit")
          (fun c => gridAt n c /\
                    transitExactly (fun x y => S x y \/ (x = x0 /\ y = y0)) c).
Proof.
  intros Hcat c [[Hc Hn] Hex]. pose proof Hc as (d & Hd & Hok).
  pose proof (proj1 Hok) as Hsq.
  destruct (outOfRange x0 y0 c) eqn:Hr.
  - exists tt, c. rewrite setZone_unchanged by auto. split_and!; try done.
    intros x y z Hz. rewrite (Hex x y z Hz).
    destruct (cellAt_inrange _ _ _ _ _ Hsq Hz) as [Hx Hy].
    split; [tauto|]. intros [?|[-> ->]]; [done|].
    assert (outOfRange x0 y0 c = false) by (apply outOfRange_false; lia).
    congruence.
  - apply outOfRange_false in Hr as Hr'. destruct Hr' as [Hx Hy].
    destruct (squareGrid_cellAt _ _ x0 y0 Hsq Hx Hy) as [old Hold].
    destruct (decide (zoneType old = "transit")) as [Heq|Hne].
    + exists tt, c. rewrite setZone_unchanged by eauto. split_and!; try done.
      intros x y z Hz. rewrite <- (Hex x y z Hz).
      split; [tauto|]. intros [?|[-> ->]]; [done|]. congruence.
    + exists tt, (zoneSet x0 y0 "transit" old d c).
      rewrite (setZone_changed x0 y0 "transit" c old d); try done;
        [|by apply inCatalog_true].
      split; [done|]. split; [split; [|done]|].
      * apply zoneSet_consistent; try done; lia.
      * intros x y z. simpl.
        destruct (decide (x = x0 /\ y = y0)) as [[-> ->]|Hother].
        -- rewrite (cellAt_replaceCell _ x0 y0 x0 y0 old) by (done || lia).
           rewrite decide_True by done. intros [= <-]. simpl. tauto.
        -- rewrite (cellAt_replaceCell_other _ x0 y0 x y old) by (done || lia).
           intros Hz. rewrite (Hex x y z Hz). tauto.
Qed.

Lemma transitExactly_ext (S S' : Z -> Z -> Prop) (c : City) :
  (forall x y, S x y <-> S' x y) -> transitExactly S c -> transitExactly S' c.
Proof. intros HS H x y z Hz. rewrite <- HS. by apply H. Qed.

Lemma pickZone_not_transit (params : LayoutParams) (x y center : Z) (rand : Q) :
  commercialRatio params = Some 0%Q -> transitRatio params = Some 0%Q ->
  (0 <= rand)%Q ->
  pickZone params x y center rand <> "transit".
Proof.
  intros Hc Ht Hrand. unfold pickZone. rewrite Hc, Ht. simpl default.
  assert (Hno : Qltb rand (0 * 2 + 0 * 2) = false).
  { destruct (Qltb _ _) eqn:E; [|done]. apply Qltb_lt in E. lra. }
  rewrite Hno.
  repeat match goal with
         | |- context [if ?b then _ else _] => destruct b
         end; done.
Qed.

Lemma clear_beforeHubs (n : Z) :
  0 <= n -> returns (fun c => gridSize c = n) clear (beforeHubs n).
Proof.
  intros Hn c Hc. destruct (clear_effect c) as (g & Hg & Hsq & Hall & Hids).
  exists tt. eexists. split; [exact Hg|]. split; [split|].
  - eexists. split; [reflexivity|]. simpl. split_and!; try done.
    apply countsMatch_emptyDistribution; try done. lia.
  - done.
  - simpl. eapply Forall_impl; [exact Hall|]. simpl. intros row Hr.
    eapply Forall_impl; [exact Hr|]. simpl. by intros z ->.
Qed.

Lemma setZone_beforeHubs (n x y : Z) (type : string) :
  type <> "transit" -> returns (beforeHubs n) (setZone x y type) (beforeHubs n).
Proof. apply setZone_noTransit. Qed.

Lemma generateRoadNetwork_beforeHubs (n : Z) :
  8 <= n -> returns (beforeHubs n) generateRoadNetwork (beforeHubs n).
Proof.
  intros Hn c Hc. unfold generateRoadNetwork.
  pose proof Hc as [[_ Hgs] _]. rewrite Hgs.
  assert (Hsp : 0 < n / 8) by (apply Z.div_str_pos; lia).
  rewrite !(for_stride_positive _ _ _ _ Hsp).
  revert c Hc Hgs. intros c Hc _. revert c Hc.
  change (returns (beforeHubs n)
    (for_each (strides (n / 8) (n / 8) n) (fun y =>
       for_each (seqZ 0 n) (fun x => setZone x y "road")) ;;;
     for_each (strides (n / 8) (n / 8) n) (fun x =>
       for_each (seqZ 0 n) (fun y => setZone x y "road")) ;;;
     for_each (seqZ (-2) 5) (fun i =>
       for_each (seqZ 0 n) (fun j =>
         let offset := j - n / 2 in
         if (0 <=? n / 2 + offset + i) && (n / 2 + offset + i <? n)
         then setZone j (n / 2 + offset + i) "road"
         else ret tt))) (beforeHubs n)).
  eapply returns_bind.
  { apply returns_for_each_same. intros y _. apply returns_for_each_same.
    intros x _. by apply setZone_beforeHubs. }
  intros _. eapply returns_bind.
  { apply returns_for_each_same. intros x _. apply returns_for_each_same.
    intros y _. by apply setZone_beforeHubs. }
  intros _. apply returns_for_each_same. intros i _.
  apply returns_for_each_same. intros j _.
  simpl. destruct (_ && _); [by apply setZone_beforeHubs|apply returns_ret].
Qed.

Lemma zoneCell_beforeHubs (n x y : Z) (random : nat -> Q) (params : LayoutParams) :
  commercialRatio params = Some 0%Q -> transitRatio params = Some 0%Q ->
  (forall k, (0 <= random k)%Q) ->
  0 <= x < n -> 0 <= y < n ->
  returns (beforeHubs n) (zoneCell random params x y) (beforeHubs n).
Proof.
  intros Hc Ht Hrand Hx Hy c Hb. unfold zoneCell.
  pose proof Hb as [[(d & Hd & Hsq & _) Hgs] Hno]. rewrite Hgs in Hsq.
  destruct (squareGrid_cellAt n (grid c) x y Hsq Hx Hy) as [z ->].
  destruct (negb (String.eqb (zoneType z) "empty")); [by exists tt, c|].
  rewrite (bind_Ret (Math_random random) _ c _ _ eq_refl).
  destruct (negb (String.eqb _ "empty")).
  - apply setZone_beforeHubs; [|done].
    apply pickZone_not_transit; try done.
  - eexists tt, _. split; [reflexivity|]. done.
Qed.

Lemma calculateStats_grid (P : City -> Prop) :
  (forall c st, P c -> P (set_stats st c)) ->
  returns (fun c => P c /\ consistent c) calculateStats P.
Proof.
  intros HP c [Hc (d & Hd & _)]. rewrite (calculateStats_Some c d Hd).
  eexists tt, _. split; [reflexivity|]. by apply HP.
Qed.

Lemma saveState_total (c : City) :
  exists h i, saveState c = Ret tt (set_historyIndex i (set_history h c)).
Proof. unfold saveState. destruct (50 <? _); by eexists _, _. Qed.

Lemma returns_transit_ext (n : Z) {A : Type} (m : M A) (P : City -> Prop)
    (S S' : Z -> Z -> Prop) :
  (forall x y, S x y <-> S' x y) ->
  returns P m (fun c => gridAt n c /\ transitExactly S c) ->
  returns P m (fun c => gridAt n c /\ transitExactly S' c).
Proof.
  intros HS Hm. eapply returns_weaken; [exact Hm|auto|].
  intros c [Hg Ht]. split; [done|]. by eapply transitExactly_ext.
Qed.

Lemma hub_cluster (n x0 y0 : Z) (S : Z -> Z -> Prop) :
  is_Some (ZONE_TYPES !! "transit") ->
  returns (fun c => gridAt n c /\ transitExactly S c)
    (setZone x0 y0 "transit" ;;;
     setZone (x0 + 1) y0 "transit" ;;;
     setZone x0 (y0 + 1) "transit" ;;;
     setZone (x0 + 1) (y0 + 1) "transit")
    (fun c => gridAt n c /\ transitExactly (fun x y => S x y \/ hubRect x0 y0 x y) c).
Proof.
  intros Hcat.
  eapply returns_bind; [by apply setZone_transit|intros _].
  eapply returns_bind; [by apply setZone_transit|intros _].
  eapply returns_bind; [by apply setZone_transit|intros _].
  eapply returns_transit_ext; [|by apply setZone_transit].
  intros x y. unfold hubRect. simpl. split.
  - intros [[[[?|?]|?]|?]|?]; [by left|right; lia..].
  - intros [?|[[->| ->] [->| ->]]]; auto 10.
Qed.

Lemma hub_row (n y0 : Z) (xs : list Z) (S : Z -> Z -> Prop) :
  is_Some (ZONE_TYPES !! "transit") ->
  returns (fun c => gridAt n c /\ transitExactly S c)
    (for_each xs (fun x =>
       setZone x y0 "transit" ;;;
       setZone (x + 1) y0 "transit" ;;;
       setZone x (y0 + 1) "transit" ;;;
       setZone (x + 1) (y0 + 1) "transit"))
    (fun c => gridAt n c /\
              transitExactly (fun x y => S x y \/ exists x0, x0 ∈ xs /\ hubRect x0 y0 x y) c).
Proof.
  intros Hcat.
  pose (Inv := fun (done : list Z) (c : City) =>
    gridAt n c /\
    transitExactly (fun x y => S x y \/ exists x0, x0 ∈ done /\ hubRect x0 y0 x y) c).
  eapply returns_weaken.
  - apply (returns_for_each Inv xs []). intros done x0 _. unfold Inv.
    eapply returns_transit_ext; [|by apply hub_cluster].
    intros x y. simpl. split.
    + intros [[HS|(x1 & Hx1 & Hr)]|Hr]; [by left|right..].
      * exists x1. split; [set_solver|done].
      * exists x0. split; [set_solver|done].
    + intros [HS|(x1 & Hx1 & Hr)]; [by left; left|].
      apply elem_of_app in Hx1 as [Hx1|Hx1].
      * left; right. eauto.
      * right. apply list_elem_of_singleton in Hx1 as ->. done.
  - intros c [Hg Ht]. split; [done|]. eapply transitExactly_ext; [|exact Ht].
    intros x y. simpl. split; [by left|]. intros [?|(x1 & Hx1 & _)]; [done|].
    by apply elem_of_nil in Hx1.
  - intros c Hc. exact Hc.
Qed.

Lemma hub_grid (n : Z) (xs ys : list Z) :
  is_Some (ZONE_TYPES !! "transit") ->
  returns (beforeHubs n)
    (for_each ys (fun y =>
       for_each xs (fun x =>
         setZone x y "transit" ;;;
         setZone (x + 1) y "transit" ;;;
         setZone x (y + 1) "transit" ;;;
         setZone (x + 1) (y + 1) "transit")))
    (fun c => gridAt n c /\ transitExactly (inHubs xs ys) c).
Proof.
  intros Hcat.
  pose (Inv := fun (done : list Z) (c : City) =>
    gridAt n c /\ transitExactly (inHubs xs done) c).
  eapply returns_weaken.
  - apply (returns_for_each Inv ys []). intros done y0 _. unfold Inv.
    eapply returns_transit_ext; [|by apply hub_row].
    intros x y. simpl. unfold inHubs. split.
    + intros [(x1 & y1 & Hx1 & Hy1 & Hr)|(x1 & Hx1 & Hr)].
      * exists x1, y1. split_and!; try done. set_solver.
      * exists x1, y0. split_and!; try done. set_solver.
    + intros (x1 & y1 & Hx1 & Hy1 & Hr).
      apply elem_of_app in Hy1 as [Hy1|Hy1].
      * left. eauto 6.
      * right. apply list_elem_of_singleton in Hy1 as ->. eauto.
  - intros c [Hg Hno]. split; [done|].
    eapply transitExactly_ext; [|by apply noTransit_transitExactly].
    intros x y. simpl. split; [done|]. intros (x1 & y1 & _ & Hy1 & _).
    by apply elem_of_nil in Hy1.
  - intros c Hc. exact Hc.
Qed.

Lemma addTransitHubs_hubs (n : Z) :
  is_Some (ZONE_TYPES !! "transit") -> 8 <= n ->
  returns (beforeHubs n) addTransitHubs
    (fun c => gridAt n c /\
              transitExactly (inHubs (strides (n / 4) (n / 4) n)
                                     (strides (n / 4) (n / 4) n)) c).
Proof.
  intros Hcat Hn c Hc. unfold addTransitHubs.
  pose proof Hc as [[_ Hgs] _]. rewrite Hgs.
  assert (Hsp : 0 < n / 4) by (apply Z.div_str_pos; lia).
  rewrite (for_stride_positive _ _ _ _ Hsp).
  assert (Hinner : forall y,
    for_stride (n / 4) (n / 4) n (fun x =>
         setZone x y "transit" ;;;
         setZone (x + 1) y "transit" ;;;
         setZone x (y + 1) "transit" ;;;
         setZone (x + 1) (y + 1) "transit") =
    for_each (strides (n / 4) (n / 4) n) (fun x =>
         setZone x y "transit" ;;;
         setZone (x + 1) y "transit" ;;;
         setZone x (y + 1) "transit" ;;;
         setZone (x + 1) (y + 1) "transit")).
  { intros y. by apply for_stride_positive. }
  assert (Heq : forall l c,
    for_each l (fun y => for_stride (n / 4) (n / 4) n (fun x =>
         setZone x y "transit" ;;;
         setZone (x + 1) y "transit" ;;;
         setZone x (y + 1) "transit" ;;;
         setZone (x + 1) (y + 1) "transit")) c =
    for_each l (fun y => for_each (strides (n / 4) (n / 4) n) (fun x =>
         setZone x y "transit" ;;;
         setZone (x + 1) y "transit" ;;;
         setZone x (y + 1) "transit" ;;;
         setZone (x + 1) (y + 1) "transit")) c).
  { induction l as [|y l IH]; intros c1; [done|].
    cbn [for_each]. rewrite Hinner. unfold bind.
    destruct (for_each _ _ c1); try done. }
  rewrite Heq. by apply hub_grid.
Qed.

Lemma elem_of_strides (start step bound v : Z) :
  v ∈ strides start step bound <->
  exists i, 0 <= i /\ start < bound /\ i < (bound - start + step - 1) / step /\
            v = start + i * step.
Proof.
  unfold strides. rewrite list_elem_of_fmap. split.
  - intros (i & -> & Hi). apply elem_of_seqZ in Hi. exists i.
    destruct (Z.leb_spec bound start); [lia|]. split_and!; try done; lia.
  - intros (i & H0 & Hlt & Hi & ->). exists i. split; [done|].
    apply elem_of_seqZ. destruct (Z.leb_spec bound start); lia.
Qed.

Lemma hubStart_strides (n v : Z) :
  8 <= n -> v ∈ strides (n / 4) (n / 4) n <-> hubStart n v = true.
Proof.
  intros Hn. set (s := n / 4).
  assert (Hs : 2 <= s) by (apply Z.div_le_lower_bound; lia).
  assert (Hsn : s < n) by (apply Z.div_lt; lia).
  rewrite elem_of_strides. unfold hubStart. fold s.
  rewrite !andb_true_iff, !Z.ltb_lt, Z.eqb_eq.
  replace (n - s + s - 1) with (n - 1) by lia.
  split.
  - intros (i & H0 & _ & Hi & ->).
    replace (s + i * s) with ((i + 1) * s) by lia.
    split_and!; [nia| |by apply Z.mod_mul; lia].
    pose proof (Z.mul_div_le (n - 1) s ltac:(lia)). nia.
  - intros [[Hpos Hlt] Hmod].
    apply Z.mod_divide in Hmod as [q Hq]; [|lia].
    assert (q <= (n - 1) / s) by (apply Z.div_le_lower_bound; nia).
    exists (q - 1). split_and!; try lia; nia.
Qed.

Lemma inHubs_hubCoord (n x y : Z) :
  8 <= n ->
  inHubs (strides (n / 4) (n / 4) n) (strides (n / 4) (n / 4) n) x y <->
  hubCoord n x = true /\ hubCoord n y = true.
Proof.
  intros Hn. unfold inHubs, hubRect, hubCoord. rewrite !orb_true_iff. split.
  - intros (x0 & y0 & Hx0 & Hy0 & Hx & Hy).
    apply hubStart_strides in Hx0, Hy0; try done.
    split.
    + destruct Hx as [->| ->]; [by left|right].
      by replace (x0 + 1 - 1) with x0 by lia.
    + destruct Hy as [->| ->]; [by left|right].
      by replace (y0 + 1 - 1) with y0 by lia.
  - intros [Hx Hy].
    assert (Hex : forall v, hubStart n v = true \/ hubStart n (v - 1) = true ->
              exists v0, v0 ∈ strides (n / 4) (n / 4) n /\ (v = v0 \/ v = v0 + 1)).
    { intros v [H|H].
      - exists v. split; [by apply hubStart_strides|by left].
      - exists (v - 1). split; [by apply hubStart_strides|right; lia]. }
    destruct (Hex x Hx) as (x0 & Hx0 & Hx').
    destruct (Hex y Hy) as (y0 & Hy0 & Hy'). eauto 6.
Qed.

Lemma generateLayout_hubs (n : Z) (random : nat -> Q) (params : LayoutParams) :
  is_Some (ZONE_TYPES !! "transit") ->
  commercialRatio params = Some 0%Q -> transitRatio params = Some 0%Q ->
  (forall k, (0 <= random k)%Q) ->
  8 <= n ->
  returns (fun c => gridSize c = n) (generateLayout random params)
    (fun c => gridAt n c /\
              transitExactly (fun x y => hubCoord n x = true /\ hubCoord n y = true) c).
Proof.
  intros Hcat Hc Ht Hrand Hn c Hgs. unfold generateLayout. rewrite Hgs.
  revert c Hgs.
  change (returns (fun c => gridSize c = n)
    (clear ;;; generateRoadNetwork ;;;
     for_each (seqZ 0 n) (fun y =>
       for_each (seqZ 0 n) (fun x => zoneCell random params x y)) ;;;
     addTransitHubs ;;; calculateStats ;;; saveState)
    (fun c => gridAt n c /\
              transitExactly (fun x y => hubCoord n x = true /\ hubCoord n y = true) c)).
  eapply returns_bind; [apply clear_beforeHubs; lia|intros _].
  eapply returns_bind; [by apply generateRoadNetwork_beforeHubs|intros _].
  eapply returns_bind.
  { apply returns_for_each_same. intros y Hy. apply returns_for_each_same.
    intros x Hx. apply elem_of_seqZ in Hx, Hy.
    apply zoneCell_beforeHubs; try done; lia. }
  intros _.
  eapply returns_bind; [by apply addTransitHubs_hubs|intros _].
  eapply returns_bind.
  { eapply returns_weaken.
    - apply (calculateStats_grid
               (fun c => gridAt n c /\
                  transitExactly (inHubs (strides (n / 4) (n / 4) n)
                                         (strides (n / 4) (n / 4) n)) c)).
      intros c st Hp. exact Hp.
    - intros c Hp. split; [exact Hp|]. apply Hp.
    - intros c Hp. exact Hp. }
  intros _ c [Hg Hex].
  destruct (saveState_total c) as (h & i & ->).
  eexists tt, _. split; [reflexivity|]. split; [exact Hg|].
  eapply transitExactly_ext; [|exact Hex].
  intros x y. by apply inHubs_hubCoord.
Qed.

(** *** Counting the transit cells *)

Lemma rowCount_pointwise (k : string) (Pb : Z -> bool) (row : list Zone) (off : Z) :
  (forall i z, row !! i = Some z ->
               (zoneType z = k <-> Pb (off + Z.of_nat i) = true)) ->
  rowCount k row =
    Z.of_nat (length (filter (fun v => Pb v) (seqZ off (Z.of_nat (length row))))).
Proof.
  revert off. induction row as [|z row IH]; intros off H.
  - reflexivity.
  - rewrite rowCount_cons. rewrite seqZ_cons by (simpl; lia).
    rewrite filter_cons.
    replace (Z.pred (Z.of_nat (length (z :: row)))) with (Z.of_nat (length row))
      by (simpl; lia).
    rewrite (IH (Z.succ off)).
    + pose proof (H 0%nat z eq_refl) as H0. rewrite Z.add_0_r in H0.
      destruct (Pb off) eqn:E; simpl.
      * rewrite decide_True by (by apply H0). lia.
      * rewrite decide_False; [lia|]. intros Hk%H0. done.
    + intros i z' Hz'. rewrite (H (S i) z' Hz').
      by replace (off + Z.of_nat (S i)) with (Z.succ off + Z.of_nat i) by lia.
Qed.

Lemma countType_pointwise (k : string) (Hb : Z -> bool) (w : Z) (g : Grid) (off : Z) :
  (forall j row, g !! j = Some row ->
                 rowCount k row = if Hb (off + Z.of_nat j) then w else 0) ->
  countType k g =
    w * Z.of_nat (length (filter (fun v => Hb v) (seqZ off (Z.of_nat (length g))))).
Proof.
  revert off. induction g as [|row g IH]; intros off H.
  - simpl. lia.
  - rewrite countType_cons. rewrite seqZ_cons by (simpl; lia).
    rewrite filter_cons.
    replace (Z.pred (Z.of_nat (length (row :: g)))) with (Z.of_nat (length g))
      by (simpl; lia).
    rewrite (IH (Z.succ off)).
    + pose proof (H 0%nat row eq_refl) as H0. rewrite Z.add_0_r in H0. rewrite H0.
      destruct (Hb off); simpl; lia.
    + intros j r Hr. rewrite (H (S j) r Hr).
      by replace (off + Z.of_nat (S j)) with (Z.succ off + Z.of_nat j) by lia.
Qed.

Lemma length_filter_andb (Pb : Z -> bool) (b : bool) (l : list Z) :
  length (filter (fun v => Pb v && b) l) =
    if b then length (filter (fun v => Pb v) l) else 0%nat.
Proof.
  induction l as [|v l IH]; [by destruct b|].
  rewrite !filter_cons. destruct b.
  - rewrite andb_true_r. destruct (Pb v); simpl; by rewrite IH.
  - rewrite andb_false_r. simpl. done.
Qed.

Lemma transit_count (n : Z) (c : City) :
  0 <= n -> squareGrid n (grid c) ->
  transitExactly (fun x y => hubCoord n x = true /\ hubCoord n y = true) c ->
  transitCells c = hubSpan n * hubSpan n.
Proof.
  intros Hn [Hlen Hrows] Hex. unfold transitCells, hubSpan.
  rewrite (countType_pointwise "transit" (hubCoord n)
             (Z.of_nat (length (filter (fun v => hubCoord n v) (seqZ 0 n))))
             (grid c) 0).
  - rewrite Hlen, Z2Nat.id by done. done.
  - intros j row Hrow. rewrite Z.add_0_l.
    pose proof (Forall_lookup_1 _ _ _ _ Hrows Hrow) as Hr. simpl in Hr.
    rewrite (rowCount_pointwise "transit"
               (fun v => hubCoord n v && hubCoord n (Z.of_nat j)) row 0).
    + rewrite Hr, Z2Nat.id by done.
      rewrite (length_filter_andb (hubCoord n)). by destruct (hubCoord n _).
    + intros i z Hz. rewrite Z.add_0_l, andb_true_iff.
      apply (Hex (Z.of_nat i) (Z.of_nat j) z).
      apply cellAt_lookup; [lia..|]. exists row. by rewrite !Nat2Z.id.
Qed.

Lemma length_filter_orb (A B : Z -> bool) (l : list Z) :
  (forall v, v ∈ l -> A v = true -> B v = true -> False) ->
  length (filter (fun v => A v || B v) l) =
    (length (filter (fun v => A v) l) + length (filter (fun v => B v) l))%nat.
Proof.
  induction l as [|v l IH]; intros Hdis; [done|].
  rewrite !filter_cons.
  assert (Hl : forall w, w ∈ l -> A w = true -> B w = true -> False).
  { intros w Hw. apply Hdis. set_solver. }
  specialize (Hdis v ltac:(set_solver)).
  destruct (A v), (B v); simpl; rewrite (IH Hl); lia.
Qed.

Lemma length_filter_shift (P : Z -> bool) (off : Z) (m : nat) :
  length (filter (fun v => P (v - 1)) (seqZ (off + 1) (Z.of_nat m))) =
  length (filter (fun v => P v) (seqZ off (Z.of_nat m))).
Proof.
  revert off. induction m as [|m IH]; intros off; [done|].
  rewrite (seqZ_cons (off + 1)), (seqZ_cons off) by lia. rewrite !filter_cons.
  replace (Z.pred (Z.of_nat (S m))) with (Z.of_nat m) by lia.
  replace (off + 1 - 1) with off by lia.
  replace (Z.succ (off + 1)) with (Z.succ off + 1) by lia.
  destruct (P off); simpl; by rewrite IH.
Qed.

Lemma length_filter_pred (P : Z -> bool) (n : Z) :
  1 <= n -> P (-1) = false -> P (n - 1) = false ->
  length (filter (fun v => P (v - 1)) (seqZ 0 n)) =
  length (filter (fun v => P v) (seqZ 0 n)).
Proof.
  intros Hn Hlow Hhigh.
  rewrite (seqZ_cons 0 n) at 1 by lia. rewrite filter_cons.
  change (0 - 1) with (-1). rewrite Hlow.
  destruct (decide (Is_true false)) as [[]|_].
  replace (Z.pred n) with (Z.of_nat (Z.to_nat (n - 1))) by lia.
  change (Z.succ 0) with (0 + 1).
  rewrite length_filter_shift.
  assert (seqZ 0 n = seqZ 0 (Z.of_nat (Z.to_nat (n - 1)) + 1)) as ->
    by (f_equal; lia).
  rewrite seqZ_app by lia. rewrite filter_app, length_app.
  rewrite (seqZ_cons _ 1) by lia. simpl (Z.pred 1). rewrite (seqZ_nil _ 0) by lia.
  rewrite filter_cons.
  replace (0 + Z.of_nat (Z.to_nat (n - 1))) with (n - 1) by lia.
  rewrite Hhigh. destruct (decide (Is_true false)) as [[]|_]. simpl. lia.
Qed.

Lemma hubSpan_twice (n : Z) :
  8 <= n -> (n - 1) mod (n / 4) <> 0 ->
  hubSpan n * hubSpan n = 4 * intersections n.
Proof.
  intros Hn Hfit. unfold hubSpan, intersections. cbv zeta.
  assert (Hs : 2 <= n / 4) by (apply Z.div_le_lower_bound; lia).
  assert (Hlen : length (filter (fun v => hubCoord n v) (seqZ 0 n)) =
                 (2 * length (filter (fun v => hubStart n v) (seqZ 0 n)))%nat).
  { unfold hubCoord. rewrite length_filter_orb.
    - rewrite (length_filter_pred (hubStart n)); [lia|lia|done|].
      unfold hubStart. apply andb_false_iff. right. by apply Z.eqb_neq.
    - intros v _. unfold hubStart.
      rewrite !andb_true_iff, !Z.eqb_eq. intros [_ H1] [_ H2].
      apply Z.mod_divide in H1 as [q1 Hq1]; [|lia].
      apply Z.mod_divide in H2 as [q2 Hq2]; [|lia].
      assert (Hone : 1 = (q1 - q2) * (n / 4)) by lia.
      destruct (Z.lt_trichotomy (q1 - q2) 0) as [?|[?|?]]; nia. }
  rewrite Hlen. lia.
Qed.

(** C9 (amended).  With "transit" in the catalog, a grid of at least 8 by 8
    and random numbers that are not negative, [generateLayout] with zero
    commercial and transit ratios (the industrial ratio is destructured but
    never read) returns, and the transit cells are then
    the cells whose row and whose column are both covered by a cluster:
    their number is the square of the number of covered coordinates.  It is
    4 times the number of intersections when no intersection lies on the
    last row and column, that is when [gridSize - 1] is not a multiple of
    [floor(gridSize / 4)]; clusters that reach past the edge are cut off. *)
Theorem transit_hub_cells (c : City) (random : nat -> Q) (params : LayoutParams) :
  is_Some (ZONE_TYPES !! "transit") ->
  commercialRatio params = Some 0%Q ->
  transitRatio params = Some 0%Q ->
  (forall k, (0 <= random k)%Q) ->
  8 <= gridSize c ->
  exists c',
    generateLayout random params c = Ret tt c' /\
    gridSize c' = gridSize c /\
    (forall x y z, cellAt (grid c') x y = Some z ->
       (zoneType z = "transit" <->
        hubCoord (gridSize c) x = true /\ hubCoord (gridSize c) y = true)) /\
    transitCells c' = hubSpan (gridSize c) * hubSpan (gridSize c) /\
    ((gridSize c - 1) mod (gridSize c / 4) <> 0 ->
     transitCells c' = 4 * intersections (gridSize c)).
Proof.
  intros Hcat Hc Ht Hrand Hn.
  destruct (generateLayout_hubs (gridSize c) random params Hcat Hc Ht Hrand Hn c eq_refl)
    as ([] & c' & Hrun & [Hcons Hgs] & Hex).
  exists c'. split_and!; try done.
  - apply transit_count; [lia| |done].
    destruct Hcons as (d & _ & Hsq & _). by rewrite Hgs in Hsq.
  - intros Hfit. rewrite <- (hubSpan_twice (gridSize c) Hn Hfit).
    apply transit_count; [lia| |done].
    destruct Hcons as (d & _ & Hsq & _). by rewrite Hgs in Hsq.
Qed.

(** *** Shared objects *)

Lemma alter_as_insert {A : Type} (f : A -> A) (l : list A) (j : nat) (v : A) :
  l !! j = Some v -> alter f j l = <[j := f v]> l.
Proof.
  intros Hv. apply list_eq. intros i. destruct (decide (i = j)) as [->|Hne].
  - rewrite list_lookup_alter_eq, Hv. simpl.
    symmetry. apply list_lookup_insert_eq. by eapply lookup_lt_Some.
  - rewrite list_lookup_alter_ne by done. by rewrite list_lookup_insert_ne.
Qed.

Lemma rows_after_write (rows : gmap Ref (list Zone)) (rowRefs : list Ref)
    (g : Grid) (j : nat) (rowRef : Ref) (row' : list Zone) :
  Forall2 (fun rr row => rows !! rr = Some row) rowRefs g ->
  NoDup rowRefs -> rowRefs !! j = Some rowRef ->
  Forall2 (fun rr row => <[rowRef := row']> rows !! rr = Some row)
          rowRefs (<[j := row']> g).
Proof.
  intros Hall Hnd Hj.
  apply Forall2_same_length_lookup in Hall as [Hlen Hall].
  apply Forall2_same_length_lookup. split; [by rewrite length_insert|].
  intros i rr row Hrr Hrow.
  destruct (decide (i = j)) as [->|Hne].
  - assert (rr = rowRef) as -> by congruence.
    rewrite lookup_insert_eq.
    rewrite list_lookup_insert_eq in Hrow; [done|].
    rewrite <- Hlen. by eapply lookup_lt_Some.
  - rewrite list_lookup_insert_ne in Hrow by done.
    rewrite lookup_insert_ne; [by eapply Hall|].
    intros <-. apply Hne. by eapply (NoDup_lookup rowRefs).
Qed.

(** The store-level [setZone] does on the objects what [setZone] does on
    the City they stand for. *)
Lemma setZoneRefs_represents (h : Store) (r : CityRefs) (c c' : City)
    (x y : Z) (type : string) :
  represents h r c ->
  setZone x y type c = Ret tt c' ->
  exists h' r', setZoneRefs x y type r h = Some (h', r') /\ represents h' r' c'.
Proof.
  destruct r as [gr sr dr n sup].
  intros (Hgrid & (rowRefs & Hrefs & Hnd) & Hd & Hst & Hn & Hsup) Hset.
  simpl in *. subst n sup.
  unfold setZone in Hset. unfold setZoneRefs. simpl.
  change ((x <? 0) || (gridSize c <=? x) || (y <? 0) || (gridSize c <=? y))
    with (outOfRange x y c).
  destruct (outOfRange x y c) eqn:Hr.
  { injection Hset as <-. eexists _, _. split; [done|].
    unfold represents. simpl. eauto 10. }
  destruct (inCatalog type); simpl in *;
    [|injection Hset as <-; eexists _, _; split; [done|]; unfold represents;
      simpl; eauto 10].
  apply outOfRange_false in Hr as [Hx Hy].
  destruct (cellAt (grid c) x y) as [old|] eqn:Hcell; [|done].
  apply cellAt_lookup in Hcell as (row & Hrow & Hz); [|lia..].
  unfold readGrid in Hgrid. rewrite Hrefs in Hgrid. simpl in Hgrid.
  apply mapM_Some_1 in Hgrid.
  destruct (Forall2_lookup_r _ _ _ _ _ Hgrid Hrow) as (rowRef & Hrr & Hobj).
  rewrite Hrefs. simpl.
  rewrite (proj2 (at_index_Some rowRefs y rowRef) (conj (proj1 Hy) Hrr)). simpl.
  rewrite Hobj. simpl.
  rewrite (proj2 (at_index_Some row x old) (conj (proj1 Hx) Hz)). simpl.
  destruct (String.eqb (zoneType old) type).
  { injection Hset as <-. eexists _, _. split; [done|].
    unfold represents, readGrid. simpl. rewrite Hrefs. simpl.
    split_and!; try done; [by apply mapM_Some_2|eauto]. }
  destruct (distribution c) as [d|] eqn:Hdist; [|done].
  rewrite Hd. simpl. rewrite Hst. simpl.
  injection Hset as <-.
  eexists _, _. split; [reflexivity|].
  unfold represents, readGrid. simpl. rewrite Hrefs. simpl.
  split_and!; try done.
  - apply mapM_Some_2. unfold replaceCell.
    rewrite (alter_as_insert _ _ _ row Hrow).
    by apply rows_after_write.
  - eauto.
  - by rewrite lookup_insert_eq.
  - by rewrite lookup_insert_eq.
Qed.

(** C10.  The object that [exportData] returns holds the City's own grid,
    stats and distribution objects.  After a [setZone] that changes a cell,
    the City still holds these objects, and reading them through the
    export object made before the call gives the new zone, the
    recalculated stats and the moved counts, where the same read before
    the call gave the old zone. *)
Theorem export_shares_live_objects (h : Store) (r : CityRefs) (x y : Z)
    (type : string) (old : Zone) (d : Distribution) (st : Stats) :
  0 <= x < refGridSize r -> 0 <= y < refGridSize r ->
  is_Some (ZONE_TYPES !! type) ->
  readCell h (gridRef r) x y = Some old -> zoneType old <> type ->
  distributionObjects h !! distributionRef r = Some d ->
  statsObjects h !! statsRef r = Some st ->
  exists h' r',
    setZoneRefs x y type r h = Some (h', r') /\
    gridRef r' = exportGridRef (exportDataRefs r) /\
    statsRef r' = exportStatsRef (exportDataRefs r) /\
    distributionRef r' = exportDistributionRef (exportDataRefs r) /\
    readCell h (exportGridRef (exportDataRefs r)) x y = Some old /\
    readCell h' (exportGridRef (exportDataRefs r)) x y =
      Some (mkZone type (refIdSupply r)) /\
    statsObjects h' !! exportStatsRef (exportDataRefs r) =
      Some (statsOf (refGridSize r) (moveCount (zoneType old) type d)) /\
    distributionObjects h' !! exportDistributionRef (exportDataRefs r) =
      Some (moveCount (zoneType old) type d).
Proof.
  intros Hx Hy Hcat Hcell Hne Hd Hst.
  unfold readCell in Hcell.
  destruct (gridObjects h !! gridRef r) as [rowRefs|] eqn:Hg; [|done].
  simpl in Hcell.
  destruct (at_index rowRefs y) as [rowRef|] eqn:Hrr; [|done]. simpl in Hcell.
  destruct (rowObjects h !! rowRef) as [row|] eqn:Hrow; [|done]. simpl in Hcell.
  unfold setZoneRefs.
  assert (Hrange : (x <? 0) || (refGridSize r <=? x) || (y <? 0)
                   || (refGridSize r <=? y) = false).
  { rewrite !orb_false_iff, !Z.ltb_ge, !Z.leb_gt. lia. }
  rewrite Hrange, (proj2 (inCatalog_true type) Hcat), Hg. simpl.
  rewrite Hrr. simpl. rewrite Hrow. simpl. rewrite Hcell. simpl.
  rewrite (proj2 (String.eqb_neq _ _) Hne), Hd. simpl. rewrite Hst. simpl.
  eexists _, _. split; [reflexivity|]. simpl.
  split_and!; try done.
  - unfold readCell. rewrite Hg. simpl. rewrite Hrr. simpl. rewrite Hrow. done.
  - unfold readCell. simpl. rewrite Hg. simpl. rewrite Hrr. simpl.
    rewrite lookup_insert_eq. simpl.
    apply at_index_Some. split; [lia|].
    apply list_lookup_insert_eq.
    apply at_index_Some in Hcell as [_ Hcell]. by eapply lookup_lt_Some.
  - by rewrite lookup_insert_eq.
  - by rewrite lookup_insert_eq.
Qed.

(** ** Further properties of the City model *)

(** Reading a field of a City that setters built. *)
Ltac fields :=
  cbn [cityId name size gridSize targetPopulation grid stats distribution
       history historyIndex idSupply drawCount
       set_cityId set_name set_size set_gridSize set_targetPopulation set_grid
       set_stats set_distribution set_history set_historyIndex set_idSupply
       set_drawCount].

(** *** Undo, redo and saving *)

Lemma restore_snapshot (c : City) : is_Some (distribution c) -> restore (snapshot c) c = c.
Proof. destruct c as [? ? ? ? ? ? ? [d|] ? ? ? ?]; [done|]. by intros [? ?]. Qed.

(** [undo] followed by [redo] puts the City on the snapshot under the
    cursor.  That is the state from before the two calls when nothing was
    edited since that snapshot was taken; edits made since are lost. *)
Theorem redo_after_undo (c : City) (s : Snapshot) :
  cursorValid c -> 0 < historyIndex c ->
  at_index (history c) (historyIndex c) = Some s ->
  exists c1,
    undo c = Ret true c1 /\
    redo c1 = Ret true (restore s c) /\
    (synced c -> restore s c = c).
Proof.
  intros Hv Hpos Hs. pose proof Hv as [Hi Hlen].
  destruct (undo_effect c Hv) as [_ Hu].
  destruct (Hu Hpos) as (s' & Hs' & Hundo). clear Hu.
  eexists. split; [exact Hundo|]. split.
  - unfold redo. simpl.
    destruct (Z.leb_spec (Z.of_nat (length (history c)) - 1) (historyIndex c - 1)); [lia|].
    unfold moveTo. simpl.
    replace (historyIndex c - 1 + 1) with (historyIndex c) by lia.
    rewrite Hs. by destruct c.
  - intros [Hsync Hd]. rewrite Hs in Hsync. injection Hsync as ->.
    by apply restore_snapshot.
Qed.

Lemma saveState_cursor_last (c c' : City) :
  -1 <= historyIndex c < Z.of_nat (length (history c)) ->
  (length (history c) <= 50)%nat ->
  saveState c = Ret tt c' ->
  Z.of_nat (length (history c')) = Z.min 50 (historyIndex c + 2) /\
  historyIndex c' = Z.of_nat (length (history c')) - 1.
Proof.
  intros Hi Hlen. unfold saveState. rewrite slice0_take by lia.
  assert (Hk : length (take (Z.to_nat (historyIndex c + 1)) (history c))
               = Z.to_nat (historyIndex c + 1)).
  { rewrite length_take. lia. }
  rewrite length_app, Hk. simpl length.
  destruct (Z.ltb_spec 50 (Z.of_nat (Z.to_nat (historyIndex c + 1) + 1)));
    intros [= <-]; fields; rewrite ?length_drop, ?length_app, ?Hk; simpl length;
    lia.
Qed.

(** [saveState] leaves the cursor on the snapshot it pushed, which is the
    last one: the snapshots that lay beyond the cursor are gone and [redo]
    fails.  The snapshots up to the cursor stay, unless the cap of 50 drops
    the oldest. *)
Theorem saveState_discards_redo (c : City) :
  cursorValid c ->
  exists c',
    saveState c = Ret tt c' /\
    historyIndex c' = Z.of_nat (length (history c')) - 1 /\
    Z.of_nat (length (history c')) = Z.min 50 (historyIndex c + 2) /\
    at_index (history c') (historyIndex c') = Some (snapshot c) /\
    (historyIndex c + 2 <= 50 ->
     forall j, 0 <= j <= historyIndex c ->
       at_index (history c') j = at_index (history c) j) /\
    redo c' = Ret false c'.
Proof.
  intros [Hi Hlen].
  destruct (saveState_effect c) as (c' & Hsave & Hv' & Hat & _ & Hh & Hidx & _);
    [lia|done|].
  destruct (saveState_cursor_last c c') as [Hl Hlast]; [lia|done|done|].
  exists c'. split_and!; try done.
  - intros Hsmall j Hj. rewrite Hh.
    destruct (Z.ltb_spec 50 (historyIndex c + 2)); [lia|].
    unfold at_index. destruct (Z.ltb_spec j 0); [lia|].
    rewrite lookup_app_l by (rewrite length_take; lia).
    rewrite lookup_take_lt by lia. done.
  - destruct (redo_effect c' Hv') as [H0 _]. by apply H0.
Qed.

(** *** Reading and writing cells *)

Lemma squareGrid_cellAt_None (n : Z) (g : Grid) (x y : Z) :
  squareGrid n g -> ~ (0 <= x < n /\ 0 <= y < n) -> cellAt g x y = None.
Proof.
  intros Hsq Hout. destruct (cellAt g x y) as [z|] eqn:E; [|done].
  destruct (cellAt_inrange n g x y z Hsq E). tauto.
Qed.

Lemma getZone_cellAt (c : City) (x y : Z) :
  consistent c -> getZone x y c = Ret (cellAt (grid c) x y) c.
Proof.
  intros (d & _ & Hsq & _). unfold getZone.
  destruct (outOfRange x y c) eqn:Hr.
  - rewrite (squareGrid_cellAt_None _ _ x y Hsq); [done|].
    intros H. apply outOfRange_false in H. congruence.
  - apply outOfRange_false in Hr as [Hx Hy].
    destruct (squareGrid_cellAt _ _ x y Hsq Hx Hy) as [z Hz].
    rewrite Hz. unfold cellAt in *.
    destruct (at_index (grid c) y) as [row|]; [|done]. simpl in Hz. by rewrite Hz.
Qed.

(** [getZone] reads what [setZone] wrote: after [setZone(x, y, type)] with
    coordinates in range and a type of the catalog, [getZone(x, y)] returns
    a zone of that type, and at every other position what it returned
    before; out of range it returns [null].  It never changes the City. *)
Theorem getZone_after_setZone (c : City) (x y : Z) (type : string) :
  consistent c -> 0 <= x < gridSize c -> 0 <= y < gridSize c ->
  is_Some (ZONE_TYPES !! type) ->
  exists c' z,
    setZone x y type c = Ret tt c' /\
    getZone x y c' = Ret (Some z) c' /\ zoneType z = type /\
    (forall x' y', ~ (x' = x /\ y' = y) ->
       exists r, getZone x' y' c = Ret r c /\ getZone x' y' c' = Ret r c') /\
    (forall x' y', ~ (0 <= x' < gridSize c' /\ 0 <= y' < gridSize c') ->
       getZone x' y' c' = Ret None c').
Proof.
  intros Hc Hx Hy Hcat.
  assert (Hout : forall c0 x' y', consistent c0 ->
            ~ (0 <= x' < gridSize c0 /\ 0 <= y' < gridSize c0) ->
            getZone x' y' c0 = Ret None c0).
  { intros c0 x' y' Hc0 Hr. rewrite (getZone_cellAt c0 x' y' Hc0).
    destruct Hc0 as (d & _ & Hsq & _).
    by rewrite (squareGrid_cellAt_None _ _ x' y' Hsq Hr). }
  destruct (setZone_effect x y type c Hc)
    as [Hsame|(old & d & _ & _ & _ & Hold & Hne & Hd & Hset & Hc')].
  - pose proof Hc as (d & Hd & Hsq & _).
    destruct (squareGrid_cellAt _ _ x y Hsq Hx Hy) as [z Hz].
    exists c, z. split_and!; try done.
    + by rewrite (getZone_cellAt c x y Hc), Hz.
    + destruct (decide (zoneType z = type)) as [Heq|Hne]; [done|].
      exfalso. rewrite (setZone_changed x y type c z d) in Hsame; try done.
      * injection Hsame as Hsame.
        apply (f_equal idSupply) in Hsame. simpl in Hsame. lia.
      * by apply outOfRange_false.
      * by apply inCatalog_true.
    + intros x' y' _. eexists. split; by apply getZone_cellAt.
    + intros x' y'. by apply Hout.
  - exists (zoneSet x y type old d c), (mkZone type (idSupply c)).
    split_and!; try done.
    + rewrite (getZone_cellAt _ x y Hc'). simpl.
      rewrite (cellAt_replaceCell (grid c) x y x y old) by (done || lia).
      by rewrite decide_True.
    + intros x' y' Hother. eexists. split; [by apply getZone_cellAt|].
      rewrite (getZone_cellAt _ x' y' Hc'). simpl.
      rewrite (cellAt_replaceCell_other (grid c) x y x' y' old) by (done || lia).
      done.
    + intros x' y'. by apply Hout.
Qed.

(** *** fillArea *)

Lemma for_each_skip {X : Type} (l : list X) (body : X -> M unit) (c : City) :
  (forall v, v ∈ l -> body v c = Ret tt c) -> for_each l body c = Ret tt c.
Proof.
  induction l as [|v l IH]; intros Hbody; [done|].
  cbn [for_each]. rewrite (bind_Ret _ _ c c tt) by (apply Hbody; set_solver).
  apply IH. intros w Hw. apply Hbody. set_solver.
Qed.


Lemma painted_ext (n : Z) (type : string) (g0 : Grid) (h0 : list Snapshot) (i0 : Z)
    (S S' : Z -> Z -> Prop) (c : City) :
  (forall x y, S x y <-> S' x y) ->
  painted n type g0 h0 i0 S c -> painted n type g0 h0 i0 S' c.
Proof.
  intros Hiff (Hg & Hh & Hi & Hcells). split_and!; try done.
  intros x y z Hz. destruct (Hcells x y z Hz) as [H1 H2].
  split; intros H; [apply H1|apply H2]; by rewrite Hiff.
Qed.

Lemma setZone_painted (n : Z) (type : string) (g0 : Grid) (h0 : list Snapshot)
    (i0 : Z) (S : Z -> Z -> Prop) (x0 y0 : Z) :
  is_Some (ZONE_TYPES !! type) ->
  returns (painted n type g0 h0 i0 S) (setZone x0 y0 type)
          (painted n type g0 h0 i0 (fun x y => S x y \/ (x = x0 /\ y = y0))).
Proof.
  intros Hcat c ([Hc Hn] & Hh & Hi & Hcells).
  destruct (setZone_effect x0 y0 type c Hc)
    as [Hsame|(old & d & Hx & Hy & _ & Hold & Hne & Hd & Hset & Hc')].
  - exists tt, c. split; [done|]. split_and!; try done.
    intros x y z Hz. destruct (Hcells x y z Hz) as [H1 H2]. split.
    + intros [HS|[-> ->]]; [by apply H1|].
      destruct (decide (zoneType z = type)) as [Heq|Hne]; [done|].
      exfalso. pose proof Hc as (d & Hd & Hsq & _).
      destruct (cellAt_inrange _ _ _ _ _ Hsq Hz) as [Hx Hy].
      rewrite (setZone_changed x0 y0 type c z d) in Hsame; try done.
      * injection Hsame as Hsame.
        apply (f_equal idSupply) in Hsame. simpl in Hsame. lia.
      * by apply outOfRange_false.
      * by apply inCatalog_true.
    + intros Hno. apply H2. tauto.
  - exists tt, (zoneSet x0 y0 type old d c). split; [done|].
    split_and!; try done.
    intros x y z. simpl.
    destruct (decide (x = x0 /\ y = y0)) as [[-> ->]|Hother].
    + rewrite (cellAt_replaceCell (grid c) x0 y0 x0 y0 old) by (done || lia).
      rewrite decide_True by done. intros [= <-]. split; [done|tauto].
    + rewrite (cellAt_replaceCell_other (grid c) x0 y0 x y old) by (done || lia).
      intros Hz. destruct (Hcells x y z Hz) as [H1 H2]. split.
      * intros [HS|?]; [by apply H1|tauto].
      * intros Hno. apply H2. tauto.
Qed.

Lemma fill_row (n : Z) (type : string) (g0 : Grid) (h0 : list Snapshot) (i0 : Z)
    (S : Z -> Z -> Prop) (x0 w y0 : Z) :
  is_Some (ZONE_TYPES !! type) ->
  returns (painted n type g0 h0 i0 S)
          (for_each (seqZ x0 w) (fun x => setZone x y0 type))
          (painted n type g0 h0 i0
             (fun x y => S x y \/ (x0 <= x < x0 + w /\ y = y0))).
Proof.
  intros Hcat.
  eapply returns_weaken.
  - apply (returns_for_each
             (fun done => painted n type g0 h0 i0
                            (fun x y => S x y \/ (x ∈ done /\ y = y0)))
             (seqZ x0 w) []).
    intros done v _. eapply returns_weaken.
    + apply (setZone_painted n type g0 h0 i0
               (fun x y => S x y \/ (x ∈ done /\ y = y0)) v y0 Hcat).
    + done.
    + intros c. apply painted_ext. intros x y.
      rewrite elem_of_app, list_elem_of_singleton. tauto.
  - intros c. apply painted_ext. intros x y. rewrite elem_of_nil. tauto.
  - intros c. apply painted_ext. intros x y. simpl. rewrite elem_of_seqZ. tauto.
Qed.

Lemma fill_rows (n : Z) (type : string) (g0 : Grid) (h0 : list Snapshot) (i0 : Z)
    (x0 w y0 h : Z) :
  is_Some (ZONE_TYPES !! type) ->
  returns (painted n type g0 h0 i0 (fun _ _ => False))
          (for_each (seqZ y0 h) (fun y =>
             for_each (seqZ x0 w) (fun x => setZone x y type)))
          (painted n type g0 h0 i0
             (fun x y => x0 <= x < x0 + w /\ y0 <= y < y0 + h)).
Proof.
  intros Hcat.
  eapply returns_weaken.
  - apply (returns_for_each
             (fun done => painted n type g0 h0 i0
                            (fun x y => x0 <= x < x0 + w /\ y ∈ done))
             (seqZ y0 h) []).
    intros done v _. eapply returns_weaken.
    + apply (fill_row n type g0 h0 i0
               (fun x y => x0 <= x < x0 + w /\ y ∈ done) x0 w v Hcat).
    + done.
    + intros c. apply painted_ext. intros x y.
      rewrite elem_of_app, list_elem_of_singleton. tauto.
  - intros c. apply painted_ext. intros x y. rewrite elem_of_nil. tauto.
  - intros c. apply painted_ext. intros x y. simpl. rewrite elem_of_seqZ. tauto.
Qed.

(** [fillArea] with a type of the catalog: afterwards every cell of the
    rectangle, taken with its corners in any order and cut to the grid, has
    that type, every other cell is the zone it was, the distribution counts
    the new grid, and one snapshot of the result lies under the cursor. *)
Theorem fillArea_paints_rectangle (c : City) (x1 y1 x2 y2 : Z) (type : string) :
  consistent c -> cursorValid c -> is_Some (ZONE_TYPES !! type) ->
  exists c',
    fillArea x1 y1 x2 y2 type c = Ret tt c' /\
    consistent c' /\ gridSize c' = gridSize c /\
    (forall x y z, cellAt (grid c') x y = Some z ->
       (inRect x1 y1 x2 y2 x y -> zoneType z = type) /\
       (~ inRect x1 y1 x2 y2 x y -> cellAt (grid c) x y = Some z)) /\
    cursorValid c' /\ synced c'.
Proof.
  intros Hc Hv Hcat.
  destruct (fill_rows (gridSize c) type (grid c) (history c) (historyIndex c)
              (Z.min x1 x2) (Z.max x1 x2 - Z.min x1 x2 + 1)
              (Z.min y1 y2) (Z.max y1 y2 - Z.min y1 y2 + 1) Hcat c)
    as ([] & c1 & Hloop & [Hc1 Hn1] & Hh1 & Hi1 & Hcells).
  { split_and!; done. }
  destruct (saveState_effect c1) as (c' & Hsave & Hv' & Hat & _ & _ & _ & Hc');
    [rewrite Hh1, Hi1; destruct Hv; lia|rewrite Hh1; by destruct Hv|].
  exists c'. unfold fillArea. rewrite (bind_Ret _ _ _ _ _ Hloop).
  split; [done|]. split_and!; try done.
  - rewrite Hc'. destruct Hc1 as (d & Hd & Hok). by exists d.
  - by rewrite Hc'.
  - rewrite Hc'. simpl. intros x y z Hz. destruct (Hcells x y z Hz) as [H1 H2].
    unfold inRect. split; intros H; [apply H1|apply H2]; lia.
  - destruct Hc1 as (d & Hd & _). split; [|rewrite Hc'; by exists d].
    rewrite Hat. f_equal. rewrite Hc'. done.
Qed.

(** *** clear *)

(** [clear] returns from any state, also one that a failed import left
    without a distribution: afterwards the grid is [gridSize] by [gridSize],
    every cell is empty, the distribution is the literal with every cell
    counted as empty, the statistics are those of a grid without built
    cells, and the history is as it was. *)
Theorem clear_from_any_state (c : City) :
  exists c',
    clear c = Ret tt c' /\
    gridSize c' = gridSize c /\
    squareGrid (gridSize c) (grid c') /\
    Forall (Forall (fun z => zoneType z = "empty")) (grid c') /\
    distribution c' = Some (emptyDistribution (gridSize c)) /\
    (0 <= gridSize c -> consistent c') /\
    (greenCoverage (stats c') = Some 0 /\ transitScore (stats c') = Some 50 /\
     walkability (stats c') = Some 50 /\ airQuality (stats c') = Some 60 /\
     energyEfficiency (stats c') = Some 60 /\ carbonFootprint (stats c') = Some 0) /\
    history c' = history c /\ historyIndex c' = historyIndex c.
Proof.
  destruct (clear_effect c) as (g & Hg & Hsq & Hall & Hids).
  destruct (statsOf_emptyDistribution (gridSize c)) as (? & ? & ? & ? & ? & ?).
  eexists. split; [exact Hg|]. fields. split_and!; try done.
  intros Hn. eexists. split; [reflexivity|]. fields. split_and!; try done.
  apply countsMatch_emptyDistribution; try done.
Qed.

(** *** The distribution counts the cells *)

(** In every state that a constructed City reaches through setZone,
    fillArea, clear, generateLayout, saveState, undo and redo, the grid has
    [gridSize] rows of [gridSize] cells, and for each of the seven keys of
    the distribution literal the count is the number of cells of that type;
    the same holds of the grid and the distribution of every snapshot in
    the history. *)
Theorem distribution_counts_cells (c : City) :
  reachable c -> 0 <= gridSize c ->
  (exists d, distribution c = Some d /\
     squareGrid (gridSize c) (grid c) /\
     forall k, k ∈ zoneKeys -> count d k = Some (countType k (grid c))) /\
  Forall (fun s =>
            squareGrid (gridSize c) (snapGrid s) /\
            forall k, k ∈ zoneKeys ->
              count (snapDistribution s) k = Some (countType k (snapGrid s)))
         (history c).
Proof.
  intros Hc Hn.
  pose proof (reachable_sound (fun _ => True) (fun _ _ _ _ _ => I) I c Hc)
    as ((d & Hd & Hok) & _ & _ & Hhist).
  split.
  - exists d. destruct Hok as [(Hsq & Hm & _)|(Hneg & _)]; [|lia].
    split_and!; try done. intros k Hk. by apply countsMatch_count.
  - eapply Forall_impl; [exact Hhist|]. simpl.
    intros s [[(Hsq & Hm & _)|(Hneg & _)] _]; [|lia].
    split; [done|]. intros k Hk. by apply countsMatch_count.
Qed.

(** *** The constructor *)


(** *** Export and import *)

Lemma orString_Some (s fallback : string) : s <> "" -> orString (Some s) fallback = s.
Proof. intros H. simpl. by rewrite (proj2 (String.eqb_neq _ _) H). Qed.

(** What a successful [importData] did: it assigned the payload's
    properties, with their fallbacks, to the City, recalculated the
    statistics and recorded a snapshot. *)
Lemma importData_true (p : Payload) (c0 c1 : City) :
  importData (Some p) c0 = Ret true c1 ->
  exists i supply n d,
    dataDistribution p = Some d /\
    saveState (mkCity i (orString (dataName p) "Imported City")
                 (orString (dataSize p) "medium") n (targetPopulation c0)
                 (dataGrid p) (statsOf n d) (Some d) (history c0)
                 (historyIndex c0) supply (drawCount c0)) = Ret tt c1 /\
    (dataGridSize p = Some n /\ n <> 0 \/
     (dataGridSize p = None \/ dataGridSize p = Some 0) /\
     exists cfg, CITY_SIZES !! orString (dataSize p) "medium" = Some cfg /\
                 n = sizeGrid cfg).
Proof.
  unfold importData, try_catch, importBody.
  set (start := match dataId p with Some i => ret i | None => generateId end).
  assert (Hstart : exists i supply, start c0 = Ret i (set_idSupply supply c0)).
  { unfold start. destruct (dataId p) as [i|].
    - exists i, (idSupply c0). unfold ret. by rewrite set_idSupply_same.
    - eexists _, _. reflexivity. }
  destruct Hstart as (i & supply & Hs).
  rewrite (bind_Ret _ _ _ _ _ Hs).
  rewrite (bind_Ret (modify _) _ _ _ _ eq_refl).
  rewrite (bind_Ret (modify _) _ _ _ _ eq_refl).
  rewrite (bind_Ret (modify _) _ _ _ _ eq_refl).
  set (c2 := set_size _ (set_name _ (set_cityId i (set_idSupply supply c0)))).
  assert (Hsize :
    (exists n, importGridSize p c2 = Ret tt (set_gridSize n c2) /\
       (dataGridSize p = Some n /\ n <> 0 \/
        (dataGridSize p = None \/ dataGridSize p = Some 0) /\
        exists cfg, CITY_SIZES !! orString (dataSize p) "medium" = Some cfg /\
                    n = sizeGrid cfg)) \/
    importGridSize p c2 = Throw c2).
  { unfold importGridSize.
    destruct (dataGridSize p) as [n|]; [destruct (Z.eqb_spec n 0) as [->|Hn]|];
      try (change (size c2) with (orString (dataSize p) "medium");
           destruct (CITY_SIZES !! _) as [cfg|] eqn:E); eauto 10. }
  destruct Hsize as [(n & Hsize & Hn)|Hsize].
  - rewrite (bind_Ret _ _ _ _ _ Hsize).
    rewrite (bind_Ret (modify _) _ _ _ _ eq_refl).
    rewrite (bind_Ret (modify _) _ _ _ _ eq_refl).
    destruct (dataDistribution p) as [d|] eqn:Hdist.
    + erewrite (bind_Ret calculateStats); [|by apply calculateStats_Some].
      fields. intros H. exists i, supply, n, d. split; [done|]. split; [|done].
      unfold bind in H.
      destruct (saveState _) as [[] c'| |] eqn:Hsave; try discriminate.
      injection H as <-. rewrite <- Hsave. f_equal.
    + erewrite (bind_Throw calculateStats); [|by apply calculateStats_None].
      discriminate.
  - rewrite (bind_Throw _ _ _ _ Hsize). discriminate.
Qed.

(** [importData] of a payload that has a grid size other than 0 and a
    distribution: it returns [true]. *)
Lemma importData_succeeds (p : Payload) (c0 : City) (n : Z) (d : Distribution) :
  dataGridSize p = Some n -> n <> 0 -> dataDistribution p = Some d ->
  exists c',
    importData (Some p) c0 = Ret true c' /\
    (forall i, dataId p = Some i -> cityId c' = i) /\
    name c' = orString (dataName p) "Imported City" /\
    size c' = orString (dataSize p) "medium" /\
    gridSize c' = n /\ grid c' = dataGrid p /\
    distribution c' = Some d /\
    stats c' = statsOf n d /\
    targetPopulation c' = targetPopulation c0 /\
    (cursorValid c0 ->
     cursorValid c' /\ synced c' /\ redo c' = Ret false c').
Proof.
  intros Hgs Hn Hd.
  unfold importData, try_catch, importBody. rewrite Hd.
  set (start := match dataId p with Some i => ret i | None => generateId end).
  assert (Hstart : exists i supply,
            start c0 = Ret i (set_idSupply supply c0) /\
            forall j, dataId p = Some j -> i = j).
  { unfold start. destruct (dataId p) as [i|].
    - exists i, (idSupply c0). unfold ret. rewrite set_idSupply_same.
      split; [done|]. by intros j [= ->].
    - eexists _, _. split; [reflexivity|done]. }
  destruct Hstart as (i & supply & Hs & Hid).
  rewrite (bind_Ret _ _ _ _ _ Hs).
  rewrite (bind_Ret (modify _) _ _ _ _ eq_refl).
  rewrite (bind_Ret (modify _) _ _ _ _ eq_refl).
  rewrite (bind_Ret (modify _) _ _ _ _ eq_refl).
  erewrite (bind_Ret (importGridSize _)); cycle 1.
  { unfold importGridSize. rewrite Hgs.
    destruct (Z.eqb_spec n 0); [done|reflexivity]. }
  rewrite (bind_Ret (modify _) _ _ _ _ eq_refl).
  rewrite (bind_Ret (modify _) _ _ _ _ eq_refl).
  erewrite (bind_Ret calculateStats); [|apply calculateStats_Some; by fields].
  fields.
  match goal with |- context [bind saveState _ ?cm] => set (c1 := cm) end.
  destruct (saveState_total c1) as (h & j & Hsave).
  rewrite (bind_Ret _ _ _ _ _ Hsave).
  eexists. split; [reflexivity|]. fields. unfold c1 at 1 2 3 4 5 6 7 8. fields.
  split_and!; try done.
  intros [Hi Hlen].
  destruct (saveState_effect c1) as (c' & Hsave' & Hv' & Hat & _ & _ & _ & Hc');
    [unfold c1; fields; lia|unfold c1; by fields|].
  rewrite Hsave in Hsave'. injection Hsave' as Hsave'. rewrite Hsave'.
  split_and!; try done.
  - split.
    + rewrite Hat. f_equal. rewrite Hc'. done.
    + rewrite Hc'. unfold c1. fields. by eexists.
  - destruct (redo_effect c' Hv') as [H0 _]. apply H0.
    apply (saveState_cursor_last c1 c');
      [unfold c1; fields; lia|unfold c1; by fields|].
    by rewrite Hsave, Hsave'.
Qed.

(** A City that takes in what another City exports: [importData] applied to
    the object of [exportData] returns [true] and the receiving City then
    has the exporter's id, name, size, grid size, grid and distribution,
    statistics calculated afresh from that distribution, and one more
    snapshot; its target population stays what it was.  This needs a name
    and a size key that are not empty strings and a grid size other than 0,
    for which [importData] would take its fallbacks. *)
Theorem import_of_export (c c0 : City) (d : Distribution) :
  distribution c = Some d -> name c <> "" -> size c <> "" -> gridSize c <> 0 ->
  exists c',
    importData (Some (exportAsPayload (exportData c))) c0 = Ret true c' /\
    cityId c' = cityId c /\ name c' = name c /\ size c' = size c /\
    gridSize c' = gridSize c /\ grid c' = grid c /\
    distribution c' = distribution c /\
    stats c' = statsOf (gridSize c) d /\
    targetPopulation c' = targetPopulation c0 /\
    (cursorValid c0 ->
     cursorValid c' /\ synced c' /\ redo c' = Ret false c').
Proof.
  intros Hd Hname Hsize Hn.
  destruct (importData_succeeds (exportAsPayload (exportData c)) c0 (gridSize c) d)
    as (c' & Himport & Hid & Hnm & Hsz & Hrest); try done.
  exists c'. rewrite Hd. split; [done|]. split; [by apply Hid|].
  change (dataName _) with (Some (name c)) in Hnm.
  change (dataSize _) with (Some (size c)) in Hsz.
  rewrite orString_Some in Hnm, Hsz by done. done.
Qed.

(** [undo] after a successful import brings back the grid, distribution and
    statistics from before the import, but not the grid size, name, size key
    or id, which no snapshot records.  When the import made the grid size
    larger, the restored grid is smaller than the grid size says, and
    [setZone] on a position beyond the restored grid throws. *)
Theorem undo_after_import (c0 c1 : City) (p : Payload) (s : Snapshot) :
  cursorValid c0 ->
  at_index (history c0) (historyIndex c0) = Some s ->
  importData (Some p) c0 = Ret true c1 ->
  exists c2,
    undo c1 = Ret true c2 /\
    grid c2 = snapGrid s /\ distribution c2 = Some (snapDistribution s) /\
    stats c2 = snapStats s /\
    gridSize c2 = gridSize c1 /\ name c2 = name c1 /\ size c2 = size c1 /\
    cityId c2 = cityId c1 /\
    (squareGrid (gridSize c0) (snapGrid s) -> 0 <= gridSize c0 < gridSize c1 ->
     forall type, is_Some (ZONE_TYPES !! type) ->
       setZone 0 (gridSize c0) type c2 = Throw c2).
Proof.
  intros [Hi Hlen] Hs Himport.
  destruct (importData_true p c0 c1 Himport) as (i & supply & n & d & _ & Hsave & _).
  match type of Hsave with saveState ?c = _ => set (cm := c) in * end.
  destruct (saveState_effect cm) as (c1' & Hsave' & Hv1 & _ & Hprev & _ & _ & Hc1);
    [unfold cm; fields; lia|unfold cm; by fields|].
  rewrite Hsave in Hsave'. injection Hsave' as <-.
  destruct Hprev as [Hpos Hprev]; [unfold cm; fields; lia|].
  change (at_index (history cm) (historyIndex cm)) with
    (at_index (history c0) (historyIndex c0)) in Hprev. rewrite Hs in Hprev.
  destruct (undo_effect c1 Hv1) as [_ Hu].
  destruct (Hu Hpos) as (s' & Hs' & Hundo). clear Hu.
  rewrite Hprev in Hs'. injection Hs' as <-.
  eexists. split; [exact Hundo|]. unfold restore. fields.
  split_and!; try done.
  intros Hsq Hn type Hcat. unfold setZone, outOfRange. fields.
  destruct (Z.ltb_spec 0 0); [lia|].
  destruct (Z.leb_spec (gridSize c1) 0); [lia|].
  destruct (Z.ltb_spec (gridSize c0) 0); [lia|].
  destruct (Z.leb_spec (gridSize c1) (gridSize c0)); [lia|].
  cbn [orb]. rewrite (proj2 (inCatalog_true type) Hcat). cbn [negb].
  unfold deepClone.
  rewrite (squareGrid_cellAt_None _ _ 0 (gridSize c0) Hsq) by lia. done.
Qed.

(** [importData] does not compare the grid with the grid size: a payload
    whose grid has fewer rows than its grid size says is taken in, with
    [true] for a result, and on the City it leaves, [setZone] and [getZone]
    throw at the first row that is missing. *)
Theorem import_accepts_short_grid (p : Payload) (c0 : City) (n : Z)
    (d : Distribution) :
  dataGridSize p = Some n -> dataDistribution p = Some d ->
  Z.of_nat (length (dataGrid p)) < n ->
  exists c1,
    importData (Some p) c0 = Ret true c1 /\
    gridSize c1 = n /\ grid c1 = dataGrid p /\
    forall x, 0 <= x < n ->
      getZone x (Z.of_nat (length (dataGrid p))) c1 = Throw c1 /\
      forall type, is_Some (ZONE_TYPES !! type) ->
        setZone x (Z.of_nat (length (dataGrid p))) type c1 = Throw c1.
Proof.
  intros Hgs Hd Hshort.
  destruct (importData_succeeds p c0 n d)
    as (c1 & Himport & _ & _ & _ & Hn & Hg & _); [done|lia|done|].
  exists c1. split_and!; try done. intros x Hx.
  assert (Hrange : outOfRange x (Z.of_nat (length (dataGrid p))) c1 = false).
  { apply outOfRange_false. lia. }
  assert (Hrow : at_index (grid c1) (Z.of_nat (length (dataGrid p))) = None).
  { unfold at_index. destruct (Z.ltb_spec (Z.of_nat (length (dataGrid p))) 0); [done|].
    apply lookup_ge_None. rewrite Hg. lia. }
  split.
  - unfold getZone. by rewrite Hrange, Hrow.
  - intros type Hcat. unfold setZone, cellAt.
    rewrite Hrange, (proj2 (inCatalog_true type) Hcat), Hrow. done.
Qed.

(** *** fillArea, undo and redo *)

Lemma setZone_history (n : Z) (h : list Snapshot) (i : Z) (x y : Z) (type : string) :
  returns (fun c => gridAt n c /\ history c = h /\ historyIndex c = i)
          (setZone x y type)
          (fun c => gridAt n c /\ history c = h /\ historyIndex c = i).
Proof.
  intros c ([Hc Hn] & Hh & Hi).
  destruct (setZone_effect x y type c Hc)
    as [H|(old & d & _ & _ & _ & _ & _ & _ & H & Hc')].
  - by exists tt, c.
  - exists tt. eexists. split; [exact H|]. done.
Qed.

(** [fillArea] can be undone and redone: on a City whose live state is the
    snapshot under the cursor, [fillArea] followed by [undo] brings back the
    grid, the distribution and the statistics from before, zone for zone,
    and [redo] then brings back those that [fillArea] left. *)
Theorem fillArea_undo_redo (c : City) (x1 y1 x2 y2 : Z) (type : string) :
  consistent c -> cursorValid c -> synced c ->
  exists c1 c2 c3,
    fillArea x1 y1 x2 y2 type c = Ret tt c1 /\
    undo c1 = Ret true c2 /\
    grid c2 = grid c /\ distribution c2 = distribution c /\ stats c2 = stats c /\
    redo c2 = Ret true c3 /\
    grid c3 = grid c1 /\ distribution c3 = distribution c1 /\ stats c3 = stats c1.
Proof.
  intros Hc [Hi Hlen] [Hsync [d Hd]].
  destruct (returns_for_each_same
              (fun c' => gridAt (gridSize c) c' /\ history c' = history c /\
                         historyIndex c' = historyIndex c)
              (seqZ (Z.min y1 y2) (Z.max y1 y2 - Z.min y1 y2 + 1))
              (fun y => for_each (seqZ (Z.min x1 x2) (Z.max x1 x2 - Z.min x1 x2 + 1))
                          (fun x => setZone x y type))) with (c := c)
    as ([] & cm & Hloop & [Hcm Hn] & Hh & Hidx).
  { intros y _. apply returns_for_each_same. intros x _. apply setZone_history. }
  { done. }
  destruct (saveState_effect cm) as (c1 & Hsave & Hv1 & Hat & Hprev & _ & _ & Hc1);
    [rewrite Hh, Hidx; lia|by rewrite Hh|].
  destruct Hprev as [Hpos Hprev]; [rewrite Hidx; lia|].
  rewrite Hh, Hidx, Hsync in Hprev.
  destruct (undo_effect c1 Hv1) as [_ Hu].
  destruct (Hu Hpos) as (s & Hs & Hundo). clear Hu.
  rewrite Hprev in Hs. injection Hs as <-.
  pose proof Hcm as (dm & Hdm & _).
  eexists c1, _, _. split.
  { unfold fillArea. by rewrite (bind_Ret _ _ _ _ _ Hloop). }
  split; [exact Hundo|]. unfold restore, snapshot, deepClone. fields.
  rewrite Hd. cbn [default snapGrid snapDistribution snapStats].
  split_and!.
  - done.
  - done.
  - done.
  - unfold redo, moveTo. fields.
    destruct (Z.leb_spec (Z.of_nat (length (history c1)) - 1) (historyIndex c1 - 1));
      [destruct Hv1; lia|].
    replace (historyIndex c1 - 1 + 1) with (historyIndex c1) by lia.
    rewrite Hat. reflexivity.
  - unfold restore, snapshot, deepClone. fields. by rewrite Hc1.
  - unfold restore, snapshot, deepClone. fields. rewrite Hc1. fields.
    by rewrite Hdm.
  - unfold restore, snapshot, deepClone. fields. by rewrite Hc1.
Qed.

(** *** generateLayout on small grids *)

Lemma for_stride_stuck (n : Z) (body : Z -> M unit) (c c' : City) :
  0 < n -> body 0 c = Ret tt c' -> for_stride 0 0 n body c = Diverge.
Proof.
  intros Hn Hbody. unfold for_stride.
  destruct (Z.leb_spec n 0); [lia|]. simpl.
  by rewrite (bind_Ret _ _ _ _ _ Hbody).
Qed.

(** On a grid of 1 to 7 cells a side the spacing of the road network,
    [floor(gridSize / 8)], is 0, and the loop that lays the horizontal roads
    never advances: [generateLayout] does not return, whatever the state of
    the City, the parameters and the random numbers. *)
Theorem generateLayout_small_grid (c : City) (random : nat -> Q)
    (params : LayoutParams) :
  1 <= gridSize c <= 7 ->
  generateLayout random params c = Diverge.
Proof.
  intros Hn. unfold generateLayout.
  destruct (clear_beforeHubs (gridSize c) ltac:(lia) c eq_refl)
    as ([] & c1 & Hclear & [[Hc1 Hn1] _]).
  rewrite (bind_Ret _ _ _ _ _ Hclear).
  assert (Hroads : generateRoadNetwork c1 = Diverge).
  { unfold generateRoadNetwork. rewrite Hn1.
    replace (gridSize c / 8) with 0 by (symmetry; apply Z.div_small; lia).
    destruct (returns_for_each_same (gridAt (gridSize c)) (seqZ 0 (gridSize c))
                (fun x => setZone x 0 "road")) with (c := c1)
      as ([] & c2 & Hrow & _).
    { intros x _. apply setZone_gridAt. }
    { done. }
    unfold bind at 1.
    by rewrite (for_stride_stuck (gridSize c) _ c1 c2) by (done || lia). }
  unfold bind. by rewrite Hroads.
Qed.

(** *** The range of the carbon footprint *)

Lemma rowCount_five (row : list Zone) :
  0 <= rowCount "empty" row /\ 0 <= rowCount "industrial" row /\
  0 <= rowCount "commercial" row /\ 0 <= rowCount "green" row /\
  0 <= rowCount "transit" row /\
  rowCount "empty" row + rowCount "industrial" row + rowCount "commercial" row
  + rowCount "green" row + rowCount "transit" row <= Z.of_nat (length row).
Proof.
  induction row as [|z row IH]; [done|].
  rewrite !rowCount_cons. simpl length.
  repeat match goal with
         | |- context [decide (zoneType z = ?k)] =>
           destruct (decide (zoneType z = k))
         end; try lia; congruence.
Qed.

Lemma countType_five (n : Z) (g : Grid) :
  squareGrid n g ->
  countType "empty" g + countType "industrial" g + countType "commercial" g
  + countType "green" g + countType "transit" g <= n * n.
Proof.
  intros [Hlen Hrows].
  assert (H : countType "empty" g + countType "industrial" g
              + countType "commercial" g + countType "green" g
              + countType "transit" g
              <= Z.of_nat (length g) * Z.of_nat (Z.to_nat n)).
  { clear Hlen. induction Hrows as [|row g Hr _ IH]; [done|].
    rewrite !countType_cons. pose proof (rowCount_five row).
    simpl length. lia. }
  rewrite Hlen in H. nia.
Qed.

Lemma carbon_round (net mx : Q) :
  (0 < mx)%Q -> (- (8 # 5) * mx <= net)%Q -> (net <= 2 * mx)%Q ->
  -160 <= Qfloor (net / mx * inject_Z 100 + (1 # 2)) <= 200.
Proof.
  intros Hmx Hlo Hhi.
  assert (H1 : (- (8 # 5) <= net / mx)%Q) by (by apply Qle_shift_div_l).
  assert (H2 : (net / mx <= 2)%Q) by (by apply Qle_shift_div_r).
  set (r := (net / mx)%Q) in *. clearbody r.
  change (inject_Z 100) with 100%Q.
  split.
  - apply (Qfloor_resp_le ((-319) # 2)%Q). lra.
  - apply (Qfloor_resp_le _ (401 # 2)%Q). lra.
Qed.

(** On a City whose distribution counts its cells, [calculateStats] gives a
    carbon footprint that is a number between -160 (only green cells) and
    200 (only industrial cells). *)
Theorem carbonFootprint_range (c : City) :
  consistent c ->
  exists c' v,
    calculateStats c = Ret tt c' /\
    carbonFootprint (stats c') = Some v /\ -160 <= v <= 200.
Proof.
  intros (d & Hd & Hsq & Hm & _).
  rewrite (calculateStats_Some c d Hd).
  pose proof (countType_five _ _ Hsq) as Hsum.
  pose proof (countType_nonneg "empty" (grid c)) as He.
  pose proof (countType_nonneg "industrial" (grid c)) as Hi.
  pose proof (countType_nonneg "commercial" (grid c)) as Hcm.
  pose proof (countType_nonneg "green" (grid c)) as Hg.
  pose proof (countType_nonneg "transit" (grid c)) as Ht.
  set (e := countType "empty" (grid c)) in *.
  set (i := countType "industrial" (grid c)) in *.
  set (cm := countType "commercial" (grid c)) in *.
  set (g := countType "green" (grid c)) in *.
  set (t := countType "transit" (grid c)) in *.
  set (n := gridSize c) in *.
  assert (Hcount : forall k, k ∈ zoneKeys -> count d k = Some (countType k (grid c))).
  { intros k Hk. by apply countsMatch_count. }
  assert (Hv : exists v, carbonFootprint (statsOf n d) = Some v /\ -160 <= v <= 200).
  { unfold statsOf. cbv zeta. cbn [carbonFootprint].
    rewrite !Hcount by set_solver. fold e i cm g t. js_simpl.
    destruct (gt0 _) eqn:Hb; js_simpl; [|exists 0; split; [done|lia]].
    eexists. split; [reflexivity|].
    unfold gt0, lit, lt in Hb. apply Qltb_lt in Hb.
    assert (H : (inject_Z e + inject_Z i + inject_Z cm + inject_Z g + inject_Z t
                 <= inject_Z (n * n)
                 /\ inject_Z 0 <= inject_Z i /\ inject_Z 0 <= inject_Z cm
                 /\ inject_Z 0 <= inject_Z g /\ inject_Z 0 <= inject_Z t)%Q).
    { rewrite <- !inject_Z_plus, <- !Zle_Qle. lia. }
    revert H.
    change (inject_Z 0) with 0%Q. change (inject_Z 10) with 10%Q.
    change (inject_Z 5) with 5%Q. change (inject_Z 8) with 8%Q.
    change (inject_Z 4) with 4%Q. intros H.
    apply carbon_round; [exact Hb|lra|lra]. }
  destruct Hv as (v & Hv & Hrange).
  eexists _, v. split; [reflexivity|]. by fields.
Qed.

(** *** The road network *)

Lemma strides_multiples (s n v : Z) :
  0 < s -> v ∈ strides s s n <-> 0 < v < n /\ v mod s = 0.
Proof.
  intros Hs. rewrite elem_of_strides.
  replace (n - s + s - 1) with (n - 1) by lia.
  split.
  - intros (i & H0 & Hsn & Hi & ->).
    replace (s + i * s) with ((i + 1) * s) by lia.
    split_and!; [nia| |by apply Z.mod_mul; lia].
    pose proof (Z.mul_div_le (n - 1) s ltac:(lia)). nia.
  - intros [[Hpos Hlt] Hmod].
    apply Z.mod_divide in Hmod as [q Hq]; [|lia].
    assert (q <= (n - 1) / s) by (apply Z.div_le_lower_bound; nia).
    assert (1 <= q) by nia.
    assert (s <= q * s) by nia.
    exists (q - 1). split_and!; try lia.
Qed.

Lemma fill_col (n : Z) (type : string) (g0 : Grid) (h0 : list Snapshot) (i0 : Z)
    (S : Z -> Z -> Prop) (x0 y0 h : Z) :
  is_Some (ZONE_TYPES !! type) ->
  returns (painted n type g0 h0 i0 S)
          (for_each (seqZ y0 h) (fun y => setZone x0 y type))
          (painted n type g0 h0 i0
             (fun x y => S x y \/ (x = x0 /\ y0 <= y < y0 + h))).
Proof.
  intros Hcat.
  eapply returns_weaken.
  - apply (returns_for_each
             (fun done => painted n type g0 h0 i0
                            (fun x y => S x y \/ (x = x0 /\ y ∈ done)))
             (seqZ y0 h) []).
    intros done v _. eapply returns_weaken.
    + apply (setZone_painted n type g0 h0 i0
               (fun x y => S x y \/ (x = x0 /\ y ∈ done)) x0 v Hcat).
    + done.
    + intros c. apply painted_ext. intros x y.
      rewrite elem_of_app, list_elem_of_singleton. tauto.
  - intros c. apply painted_ext. intros x y. rewrite elem_of_nil. tauto.
  - intros c. apply painted_ext. intros x y. simpl. rewrite elem_of_seqZ. tauto.
Qed.

(** A loop over a list of rows, or of columns, or of diagonals. *)
Lemma fill_lines (n : Z) (type : string) (g0 : Grid) (h0 : list Snapshot) (i0 : Z)
    (S : Z -> Z -> Prop) (line : Z -> Z -> Z -> Prop) (vs : list Z)
    (body : Z -> M unit) :
  (forall S' v, returns (painted n type g0 h0 i0 S') (body v)
                  (painted n type g0 h0 i0 (fun x y => S' x y \/ line v x y))) ->
  returns (painted n type g0 h0 i0 S) (for_each vs body)
          (painted n type g0 h0 i0
             (fun x y => S x y \/ exists v, v ∈ vs /\ line v x y)).
Proof.
  intros Hbody.
  eapply returns_weaken.
  - apply (returns_for_each
             (fun done => painted n type g0 h0 i0
                (fun x y => S x y \/ exists v, v ∈ done /\ line v x y))
             vs []).
    intros done v _. eapply returns_weaken.
    + apply (Hbody (fun x y => S x y \/ exists v, v ∈ done /\ line v x y) v).
    + done.
    + intros c. apply painted_ext. intros x y. split.
      * intros [[HS|(w & Hw & Hl)]|Hl]; [by left| |].
        -- right. exists w. split; [|done]. set_solver.
        -- right. exists v. split; [|done]. set_solver.
      * intros [HS|(w & Hw & Hl)]; [by left; left|].
        apply elem_of_app in Hw as [Hw|Hw%list_elem_of_singleton].
        -- left; right. by exists w.
        -- right. by subst w.
  - intros c. apply painted_ext. intros x y. split; [by left|].
    intros [HS|(w & Hw & _)]; [done|]. by apply elem_of_nil in Hw.
  - intros c. by apply painted_ext.
Qed.

Lemma diagonal_step (n : Z) (type : string) (g0 : Grid) (h0 : list Snapshot)
    (i0 : Z) (S : Z -> Z -> Prop) (j y0 : Z) :
  is_Some (ZONE_TYPES !! type) ->
  returns (painted n type g0 h0 i0 S)
          (if (0 <=? y0) && (y0 <? n) then setZone j y0 type else ret tt)
          (painted n type g0 h0 i0 (fun x y => S x y \/ (x = j /\ y = y0))).
Proof.
  intros Hcat. destruct (_ && _) eqn:Hrange; [by apply setZone_painted|].
  intros c Hc. exists tt, c. split; [done|].
  destruct Hc as ([Hc Hn] & Hh & Hi & Hcells). split_and!; try done.
  intros x y z Hz. destruct (Hcells x y z Hz) as [H1 H2]. split.
  - intros [HS|[-> ->]]; [by apply H1|].
    destruct Hc as (d & _ & Hsq & _).
    destruct (cellAt_inrange _ _ _ _ _ Hsq Hz) as [_ Hy].
    apply andb_false_iff in Hrange as [?%Z.leb_gt|?%Z.ltb_ge]; lia.
  - intros Hno. apply H2. tauto.
Qed.

(** [generateRoadNetwork] on a grid of at least 8 by 8, with "road" in the
    catalog: it returns, and it has turned into road the rows and the
    columns at the positive multiples of [floor(gridSize / 8)] and the band
    of five cells along the diagonal; every other cell is the zone it was.
    The history is not touched. *)
Theorem generateRoadNetwork_roads (c : City) :
  consistent c -> 8 <= gridSize c -> is_Some (ZONE_TYPES !! "road") ->
  exists c',
    generateRoadNetwork c = Ret tt c' /\
    consistent c' /\ gridSize c' = gridSize c /\
    history c' = history c /\ historyIndex c' = historyIndex c /\
    forall x y z, cellAt (grid c') x y = Some z ->
      (onRoad (gridSize c) x y = true -> zoneType z = "road") /\
      (onRoad (gridSize c) x y = false -> cellAt (grid c) x y = Some z).
Proof.
  intros Hc Hn Hcat. set (n := gridSize c) in *.
  assert (Hsp : 0 < n / 8) by (apply Z.div_str_pos; lia).
  assert (Hrun : returns
    (painted n "road" (grid c) (history c) (historyIndex c) (fun _ _ => False))
    (for_each (strides (n / 8) (n / 8) n) (fun y =>
       for_each (seqZ 0 n) (fun x => setZone x y "road")) ;;;
     for_each (strides (n / 8) (n / 8) n) (fun x =>
       for_each (seqZ 0 n) (fun y => setZone x y "road")) ;;;
     for_each (seqZ (-2) 5) (fun i =>
       for_each (seqZ 0 n) (fun j =>
         let offset := j - n / 2 in
         if (0 <=? n / 2 + offset + i) && (n / 2 + offset + i <? n)
         then setZone j (n / 2 + offset + i) "road"
         else ret tt)))
    (painted n "road" (grid c) (history c) (historyIndex c)
       (fun x y =>
          ((False \/ exists v, v ∈ strides (n / 8) (n / 8) n /\
                               (0 <= x < 0 + n /\ y = v)) \/
           exists v, v ∈ strides (n / 8) (n / 8) n /\
                     (x = v /\ 0 <= y < 0 + n)) \/
          exists i, i ∈ seqZ (-2) 5 /\
            exists j, j ∈ seqZ 0 n /\ (x = j /\ y = n / 2 + (j - n / 2) + i)))).
  { eapply returns_bind.
    { apply (fill_lines n "road" _ _ _ _ (fun v x y => 0 <= x < 0 + n /\ y = v)).
      intros S' v. eapply returns_weaken; [|done|].
      { by apply (fill_row n "road" (grid c) (history c) (historyIndex c)
                    S' 0 n v). }
      intros c0. by apply painted_ext. }
    intros _. eapply returns_bind.
    { apply (fill_lines n "road" _ _ _ _ (fun v x y => x = v /\ 0 <= y < 0 + n)).
      intros S' v. eapply returns_weaken; [|done|].
      { by apply (fill_col n "road" (grid c) (history c) (historyIndex c)
                    S' v 0 n). }
      intros c0. by apply painted_ext. }
    intros _.
    apply (fill_lines n "road" _ _ _ _
             (fun i x y => exists j, j ∈ seqZ 0 n /\
                             (x = j /\ y = n / 2 + (j - n / 2) + i))).
    intros S' i.
    apply (fill_lines n "road" _ _ _ S'
             (fun j x y => x = j /\ y = n / 2 + (j - n / 2) + i)).
    intros S'' j. cbv zeta. by apply diagonal_step. }
  destruct (Hrun c) as ([] & c' & Hret & [Hc' Hn'] & Hh & Hi & Hcells).
  { split_and!; done. }
  exists c'. split.
  { unfold generateRoadNetwork. fold n.
    rewrite !(for_stride_positive _ _ _ _ Hsp). exact Hret. }
  split_and!; try done.
  intros x y z Hz. destruct (Hcells x y z Hz) as [H1 H2].
  pose proof Hc' as (d & _ & Hsq & _). rewrite Hn' in Hsq.
  destruct (cellAt_inrange _ _ _ _ _ Hsq Hz) as [Hx Hy].
  assert (Hline : forall v, 0 <= v < n ->
            roadLine n v = true <-> v ∈ strides (n / 8) (n / 8) n).
  { intros v Hv. rewrite (strides_multiples _ _ _ Hsp). unfold roadLine.
    rewrite !andb_true_iff, !Z.ltb_lt, Z.eqb_eq. tauto. }
  assert (Hiff : onRoad n x y = true <->
     ((False \/ exists v, v ∈ strides (n / 8) (n / 8) n /\
                          (0 <= x < 0 + n /\ y = v)) \/
      exists v, v ∈ strides (n / 8) (n / 8) n /\ (x = v /\ 0 <= y < 0 + n)) \/
     exists i, i ∈ seqZ (-2) 5 /\
       exists j, j ∈ seqZ 0 n /\ (x = j /\ y = n / 2 + (j - n / 2) + i)).
  { unfold onRoad. rewrite !orb_true_iff, andb_true_iff, !Z.leb_le.
    rewrite (Hline y Hy), (Hline x Hx). split.
    - intros [[Hr|Hr]|Hd].
      + left; left; right. exists y. split; [done|lia].
      + left; right. exists x. split; [done|lia].
      + right. exists (y - x). split; [apply elem_of_seqZ; lia|].
        exists x. split; [apply elem_of_seqZ; lia|lia].
    - intros [[[[]|(v & Hv & _ & ->)]|(v & Hv & -> & _)]|(i & Hi' & j & _ & -> & ->)].
      + by left; left.
      + by left; right.
      + right. apply elem_of_seqZ in Hi'. lia. }
  split.
  - intros Hon. apply H1. by apply Hiff.
  - intros Hoff. apply H2. rewrite <- Hiff. by rewrite Hoff.
Qed.

(** *** The rings of the generated layout *)

Lemma normalizedDistAbove_mono (x y center : Z) (t t' : Q) :
  (0 < t')%Q -> (t' <= t)%Q ->
  normalizedDistAbove x y center t = true ->
  normalizedDistAbove x y center t' = true.
Proof.
  intros Hpos Hle. unfold normalizedDistAbove.
  destruct (0 <? center) eqn:Hc; [|done].
  apply Z.ltb_lt in Hc. rewrite !Qltb_lt.
  assert (H0 : (0 < inject_Z center)%Q).
  { change 0%Q with (inject_Z 0). by rewrite <- Zlt_Qlt. }
  set (k := inject_Z center) in *. clearbody k.
  set (d := inject_Z _). clearbody d.
  intros H. eapply Qle_lt_trans; [|exact H].
  assert (0 <= t' * (14 # 10) * k)%Q by nra.
  assert (t' * (14 # 10) * k <= t * (14 # 10) * k)%Q by nra.
  nra.
Qed.

Lemma pickZone_ring (params : LayoutParams) (n x y : Z) (rand : Q) :
  ringAllows n (pickZone params x y (n / 2) rand) x y.
Proof.
  unfold ringAllows, pickZone. cbv zeta.
  destruct (normalizedDistAbove x y (n / 2) (9 # 10)) eqn:H9.
  { repeat match goal with
           | |- context [if ?b then _ else _] => destruct b
           end; split_and!; done. }
  destruct (normalizedDistAbove x y (n / 2) (6 # 10)) eqn:H6.
  { assert (H3 : normalizedDistAbove x y (n / 2) (3 # 10) = true).
    { apply (normalizedDistAbove_mono x y (n / 2) (6 # 10)); [lra|lra|done]. }
    repeat match goal with
           | |- context [if ?b then _ else _] => destruct b
           end; split_and!; done. }
  destruct (normalizedDistAbove x y (n / 2) (3 # 10)) eqn:H3;
    repeat match goal with
           | |- context [if ?b then _ else _] => destruct b
           end; split_and!; done.
Qed.

Lemma setZone_ringed (n x y : Z) (type : string) :
  ringAllows n type x y -> returns (ringed n) (setZone x y type) (ringed n).
Proof.
  intros Hring c [[Hc Hn] Hcells].
  destruct (setZone_effect x y type c Hc)
    as [H|(old & d & Hx & Hy & _ & Hold & _ & _ & H & Hc')].
  - by exists tt, c.
  - exists tt. eexists. split; [exact H|]. split; [by split|].
    intros x' y' z. simpl.
    destruct (decide (x' = x /\ y' = y)) as [[-> ->]|Hother].
    + rewrite (cellAt_replaceCell (grid c) x y x y old) by (done || lia).
      rewrite decide_True by done. by intros [= <-].
    + rewrite (cellAt_replaceCell_other (grid c) x y x' y' old) by (done || lia).
      apply Hcells.
Qed.

Lemma ringAllows_other (n : Z) (type : string) (x y : Z) :
  type <> "industrial" -> type <> "residential" -> type <> "commercial" ->
  ringAllows n type x y.
Proof. intros. unfold ringAllows. split_and!; done. Qed.

Lemma clear_ringed (n : Z) :
  0 <= n -> returns (fun c => gridSize c = n) clear (ringed n).
Proof.
  intros Hn c Hc.
  destruct (clear_beforeHubs n Hn c Hc) as ([] & c' & Hclear & Hg & _).
  exists tt, c'. split; [done|]. split; [done|].
  destruct (clear_effect c) as (g & Hg' & _ & Hall & _).
  rewrite Hg' in Hclear. injection Hclear as <-. simpl.
  intros x y z Hz. destruct (cellAt_elem _ _ _ _ Hz) as (row & Hrow & Hin).
  rewrite Forall_forall in Hall. specialize (Hall row Hrow).
  rewrite Forall_forall in Hall. rewrite (Hall z Hin).
  by apply ringAllows_other.
Qed.

Lemma generateRoadNetwork_ringed (n : Z) :
  8 <= n -> returns (ringed n) generateRoadNetwork (ringed n).
Proof.
  intros Hn c Hc. unfold generateRoadNetwork.
  pose proof Hc as [[_ Hgs] _]. rewrite Hgs.
  assert (Hsp : 0 < n / 8) by (apply Z.div_str_pos; lia).
  rewrite !(for_stride_positive _ _ _ _ Hsp).
  assert (Hroad : forall x y, returns (ringed n) (setZone x y "road") (ringed n)).
  { intros x y. apply setZone_ringed. by apply ringAllows_other. }
  revert c Hc Hgs. intros c Hc _. revert c Hc.
  change (returns (ringed n)
    (for_each (strides (n / 8) (n / 8) n) (fun y =>
       for_each (seqZ 0 n) (fun x => setZone x y "road")) ;;;
     for_each (strides (n / 8) (n / 8) n) (fun x =>
       for_each (seqZ 0 n) (fun y => setZone x y "road")) ;;;
     for_each (seqZ (-2) 5) (fun i =>
       for_each (seqZ 0 n) (fun j =>
         let offset := j - n / 2 in
         if (0 <=? n / 2 + offset + i) && (n / 2 + offset + i <? n)
         then setZone j (n / 2 + offset + i) "road"
         else ret tt))) (ringed n)).
  eapply returns_bind.
  { apply returns_for_each_same. intros y _. apply returns_for_each_same.
    intros x _. apply Hroad. }
  intros _. eapply returns_bind.
  { apply returns_for_each_same. intros x _. apply returns_for_each_same.
    intros y _. apply Hroad. }
  intros _. apply returns_for_each_same. intros i _.
  apply returns_for_each_same. intros j _.
  simpl. destruct (_ && _); [apply Hroad|apply returns_ret].
Qed.

Lemma addTransitHubs_ringed (n : Z) :
  8 <= n -> returns (ringed n) addTransitHubs (ringed n).
Proof.
  intros Hn c Hc. unfold addTransitHubs.
  pose proof Hc as [[_ Hgs] _]. rewrite Hgs.
  assert (Hsp : 0 < n / 4) by (apply Z.div_str_pos; lia).
  rewrite (for_stride_positive _ _ _ _ Hsp).
  assert (Hhub : forall x y, returns (ringed n) (setZone x y "transit") (ringed n)).
  { intros x y. apply setZone_ringed. by apply ringAllows_other. }
  revert c Hc Hgs. intros c Hc _. revert c Hc.
  apply returns_for_each_same. intros y _.
  rewrite (for_stride_positive _ _ _ _ Hsp).
  apply returns_for_each_same. intros x _.
  eapply returns_bind; [apply Hhub|intros _].
  eapply returns_bind; [apply Hhub|intros _].
  eapply returns_bind; [apply Hhub|intros _].
  apply Hhub.
Qed.

Lemma zoneCell_ringed (n x y : Z) (random : nat -> Q) (params : LayoutParams) :
  0 <= x < n -> 0 <= y < n ->
  returns (ringed n) (zoneCell random params x y) (ringed n).
Proof.
  intros Hx Hy c Hr. unfold zoneCell.
  pose proof Hr as [[(d & Hd & Hsq & _) Hgs] Hcells]. rewrite Hgs in Hsq.
  destruct (squareGrid_cellAt n (grid c) x y Hsq Hx Hy) as [z ->].
  destruct (negb (String.eqb (zoneType z) "empty")); [by exists tt, c|].
  rewrite (bind_Ret (Math_random random) _ c _ _ eq_refl).
  cbn [gridSize set_drawCount]. rewrite Hgs.
  assert (Hr' : ringed n (set_drawCount (S (drawCount c)) c)).
  { destruct Hr as [[(d' & ? & ?) ?] ?]. split; [split|]; try done.
    by exists d'. }
  destruct (negb (String.eqb _ "empty")).
  - by apply setZone_ringed; [apply pickZone_ring|].
  - by eexists tt, _.
Qed.


(** ** Saved cities *)

Lemma find_cons (id : Id) (r : SavedCity) (l : list SavedCity) :
  find id (r :: l) = if decide (savedId r = id) then Some r else find id l.
Proof.
  unfold find. cbn [list_find]. destruct (decide (savedId r = id)); [done|].
  destruct (list_find _ l) as [[i x]|]; done.
Qed.

Lemma findIndex_cons (id : Id) (r : SavedCity) (l : list SavedCity) :
  findIndex id (r :: l) =
    if decide (savedId r = id) then Some 0%nat else S <$> findIndex id l.
Proof.
  unfold findIndex. cbn [list_find]. destruct (decide (savedId r = id)); [done|].
  destruct (list_find _ l) as [[i x]|]; done.
Qed.

Lemma find_None (id : Id) (l : list SavedCity) :
  find id l = None <-> id ∉ savedId <$> l.
Proof.
  induction l as [|r l IH].
  { split; [intros _ H; by apply elem_of_nil in H|done]. }
  rewrite find_cons, fmap_cons, not_elem_of_cons.
  destruct (decide (savedId r = id)); [split; [done|intros [? _]; congruence]|].
  rewrite IH. split; [by split|tauto].
Qed.

Lemma findIndex_None (id : Id) (l : list SavedCity) :
  findIndex id l = None <-> id ∉ savedId <$> l.
Proof.
  rewrite <- find_None. unfold find, findIndex.
  by destruct (list_find _ l) as [[i x]|].
Qed.

Lemma findIndex_Some (id : Id) (l : list SavedCity) (i : nat) :
  findIndex id l = Some i ->
  exists r, l !! i = Some r /\ savedId r = id /\ find id l = Some r.
Proof.
  unfold find, findIndex. destruct (list_find _ l) as [[j x]|] eqn:E; [|done].
  intros [= <-]. apply list_find_Some in E as (Hx & Hid & _). eauto.
Qed.

Lemma find_app (id : Id) (l1 l2 : list SavedCity) :
  find id (l1 ++ l2) = match find id l1 with Some r => Some r | None => find id l2 end.
Proof.
  induction l1 as [|r l1 IH]; [done|].
  rewrite <- app_comm_cons, !find_cons. by destruct (decide (savedId r = id)).
Qed.

Lemma find_insert (id : Id) (l : list SavedCity) (i : nat) (r : SavedCity) :
  findIndex (savedId r) l = Some i ->
  find id (<[i := r]> l) = if decide (savedId r = id) then Some r else find id l.
Proof.
  revert i. induction l as [|a l IH]; intros i; [done|].
  rewrite findIndex_cons. destruct (decide (savedId a = savedId r)) as [Ha|Ha].
  - intros [= <-]. cbn [insert list_insert]. rewrite !find_cons.
    destruct (decide (savedId r = id)) as [Hr|Hr]; [done|].
    rewrite decide_False by congruence. done.
  - destruct (findIndex (savedId r) l) as [j|] eqn:E; [|done].
    intros [= <-]. cbn [insert list_insert]. rewrite !find_cons.
    destruct (decide (savedId a = id)) as [Hai|Hai]; [|exact (IH j eq_refl)].
    rewrite decide_False by congruence. done.
Qed.

Lemma find_delete (id : Id) (l : list SavedCity) (i : nat) (r : SavedCity) :
  l !! i = Some r -> savedId r <> id -> find id (delete i l) = find id l.
Proof.
  revert i. induction l as [|a l IH]; intros [|i] Hi Hne; try done.
  - injection Hi as ->. cbn [delete list_delete]. rewrite find_cons.
    by rewrite decide_False.
  - cbn [delete list_delete]. rewrite !find_cons.
    destruct (decide (savedId a = id)); [done|]. exact (IH i Hi Hne).
Qed.

Lemma savedIds_insert (l : list SavedCity) (i : nat) (r : SavedCity) :
  findIndex (savedId r) l = Some i -> savedId <$> <[i := r]> l = savedId <$> l.
Proof.
  intros (r0 & Hr0 & Hid & _)%findIndex_Some.
  rewrite list_fmap_insert. apply list_insert_id.
  by rewrite list_lookup_fmap, Hr0, <- Hid.
Qed.

Lemma saveAll_effect (st : CityStorage) :
  cities (saveAll st).2 = cities st /\
  stored (saveAll st).2 =
    (if quotaExceeded localStorage (cities st) then stored st else Some (cities st)).
Proof. unfold saveAll. by destruct (quotaExceeded _ _). Qed.

(** What [save] leaves in the list. *)
Lemma save_cities (city : City) (name_ : option string) (now : string)
    (st : CityStorage) :
  cities (save city name_ now st).2 =
    match findIndex (cityId city) (cities st) with
    | Some i => <[i := (save city name_ now st).1]> (cities st)
    | None =>
      (if decide (MAX_STORED_CITIES <= length (cities st))%nat
       then drop 1 (cities st) else cities st) ++ [(save city name_ now st).1]
    end.
Proof.
  unfold save, saveAll. cbn [fst snd cities savedId].
  by destruct (quotaExceeded _ _).
Qed.

Lemma load_save (city : City) (name_ : option string) (now : string)
    (st : CityStorage) :
  load (cityId city) (save city name_ now st).2 = Some (save city name_ now st).1.
Proof.
  unfold load. rewrite save_cities.
  destruct (findIndex _ _) as [i|] eqn:E.
  - rewrite (find_insert _ _ i) by done. by rewrite decide_True.
  - rewrite find_app. apply findIndex_None in E.
    assert (Hnone : find (cityId city)
              (if decide (MAX_STORED_CITIES <= length (cities st))%nat
               then drop 1 (cities st) else cities st) = None).
    { apply find_None. intros Hin. apply E.
      destruct (decide _); [|done].
      rewrite fmap_drop in Hin. by apply (subseteq_drop 1) in Hin. }
    rewrite Hnone, find_cons. by rewrite decide_True.
Qed.

(** [load] after [save] returns the record that [save] built and returned,
    whether or not the browser store took the write; when it did, it holds
    the list as it is in memory, otherwise what it held before. *)
Theorem load_after_save (city : City) (name_ : option string) (now : string)
    (st : CityStorage) :
  let r := (save city name_ now st).1 in
  let st' := (save city name_ now st).2 in
  load (cityId city) st' = Some r /\
  savedId r = cityId city /\ savedGrid r = grid city /\
  savedGridSize r = gridSize city /\ savedStats r = stats city /\
  (forall d, distribution city = Some d -> savedDistribution r = d) /\
  stored st' = (if quotaExceeded localStorage (cities st') then stored st
                else Some (cities st')).
Proof.
  cbv zeta. split_and!; try done.
  - apply load_save.
  - intros d Hd. unfold save. cbn [fst savedDistribution]. by rewrite Hd.
  - unfold save. cbn [snd].
    match goal with |- context [saveAll ?X] =>
      destruct (saveAll_effect X) as [Hc Hs]; by rewrite Hs, Hc end.
Qed.

Lemma delete_cities (id : Id) (st : CityStorage) :
  cities (delete_ id st).2 =
    match findIndex id (cities st) with
    | Some i => delete i (cities st)
    | None => cities st
    end.
Proof.
  unfold delete_. destruct (findIndex _ _) as [i|]; [|done]. cbn [snd].
  apply saveAll_effect.
Qed.

(** [save] and [delete] keep the list within [MAX_STORED_CITIES] records
    with no id twice, when it was so before; [clearAll] leaves such a list
    too.  Saving a City whose id is in the list replaces that record in
    place, and the ids stay what they were, in the same order. *)
Theorem storage_stays_ok (city : City) (name_ : option string) (now : string)
    (id : Id) (st : CityStorage) :
  storageOk st ->
  storageOk (save city name_ now st).2 /\
  storageOk (delete_ id st).2 /\
  storageOk (clearAll st) /\
  (cityId city ∈ savedIds st -> savedIds (save city name_ now st).2 = savedIds st).
Proof.
  intros [Hlen Hnd]. unfold storageOk, savedIds in *.
  rewrite save_cities, delete_cities. split_and!.
  - destruct (findIndex (cityId city) _) as [i|]; [by rewrite length_insert|].
    rewrite length_app. simpl length. unfold MAX_STORED_CITIES in *.
    destruct (decide _); [rewrite length_drop|]; lia.
  - destruct (findIndex (cityId city) _) as [i|] eqn:E.
    + by rewrite (savedIds_insert _ i).
    + apply findIndex_None in E. rewrite fmap_app. apply NoDup_app.
      assert (Hsub : (savedId <$> (if decide (MAX_STORED_CITIES <= length (cities st))%nat
                                   then drop 1 (cities st) else cities st))
                     ⊆ savedId <$> cities st).
      { destruct (decide _); [|done]. rewrite fmap_drop. apply subseteq_drop. }
      split_and!.
      * destruct (decide _); [|done]. rewrite fmap_drop.
        eapply sublist_NoDup; [exact Hnd|apply sublist_drop].
      * intros x Hx [->|[]%elem_of_nil]%elem_of_cons. apply E. by apply Hsub.
      * apply NoDup_singleton.
  - destruct (findIndex id _) as [i|]; [|done].
    pose proof (sublist_length _ _ (sublist_delete (cities st) i)). lia.
  - destruct (findIndex id _) as [i|]; [|done].
    rewrite list_fmap_delete.
    eapply sublist_NoDup; [exact Hnd|apply sublist_delete].
  - simpl. lia.
  - apply NoDup_nil_2.
  - intros Hin. destruct (findIndex (cityId city) _) as [i|] eqn:E.
    + by rewrite (savedIds_insert _ i).
    + by apply findIndex_None in E.
Qed.

(** Saving an eleventh City: when the list is full and the City's id is
    not in it, [save] drops the oldest record, which [load] then no longer
    finds, and adds the new one at the end; every other record is still
    loaded as before. *)
Theorem save_evicts_oldest (city : City) (name_ : option string) (now : string)
    (st : CityStorage) (oldest : SavedCity) (rest : list SavedCity) :
  NoDup (savedIds st) ->
  cities st = oldest :: rest ->
  (MAX_STORED_CITIES <= length (cities st))%nat ->
  cityId city ∉ savedIds st ->
  let st' := (save city name_ now st).2 in
  cities st' = rest ++ [(save city name_ now st).1] /\
  load (savedId oldest) st = Some oldest /\
  load (savedId oldest) st' = None /\
  forall id', id' <> savedId oldest -> id' <> cityId city ->
    load id' st' = load id' st.
Proof.
  intros Hnd Hl Hfull Hnew. cbv zeta. unfold load, savedIds in *.
  rewrite save_cities.
  rewrite (proj2 (findIndex_None _ _) Hnew).
  rewrite decide_True by done. rewrite Hl in *. cbn [drop]. rewrite drop_0.
  rewrite fmap_cons in Hnd, Hnew. apply NoDup_cons in Hnd as [Hhead Hnd].
  apply not_elem_of_cons in Hnew as [Hne Hnew].
  split_and!; try done.
  - rewrite find_cons. by rewrite decide_True.
  - apply find_None. rewrite fmap_app. intros [Hin|Hin]%elem_of_app; [done|].
    apply list_elem_of_singleton in Hin. simpl in Hin. congruence.
  - intros id' H1 H2. rewrite find_app, !find_cons.
    rewrite (decide_False (P := savedId oldest = id')) by congruence.
    destruct (find id' rest); [done|].
    rewrite decide_False; [done|]. simpl. congruence.
Qed.

(** [save] leaves the other records alone when nothing has to go: if the
    City's id is in the list, or the list has room, every other id is
    loaded as before. *)
Theorem save_keeps_others (city : City) (name_ : option string) (now : string)
    (st : CityStorage) (id' : Id) :
  cityId city ∈ savedIds st \/ (length (cities st) < MAX_STORED_CITIES)%nat ->
  id' <> cityId city ->
  load id' (save city name_ now st).2 = load id' st.
Proof.
  intros Hroom Hne. unfold load, savedIds in *. rewrite save_cities.
  destruct (findIndex (cityId city) _) as [i|] eqn:E.
  - rewrite (find_insert _ _ i) by done. by rewrite decide_False.
  - apply findIndex_None in E. destruct Hroom as [Hin|Hlt]; [done|].
    rewrite decide_False by lia. rewrite find_app, find_cons.
    destruct (find id' (cities st)); [done|].
    rewrite decide_False; [done|]. simpl. congruence.
Qed.

(** [delete] returns [true] exactly when a record has the id.  It removes
    the first such record: when no id is twice in the list, [load] then
    returns [null] for that id, and every other id is loaded as before.
    Without such a record nothing changes. *)
Theorem delete_removes (id : Id) (st : CityStorage) :
  ((delete_ id st).1 = true <-> id ∈ savedIds st) /\
  (id ∉ savedIds st -> (delete_ id st).2 = st) /\
  (NoDup (savedIds st) -> load id (delete_ id st).2 = None) /\
  (forall id', id' <> id -> load id' (delete_ id st).2 = load id' st) /\
  (id ∈ savedIds st ->
   S (length (cities (delete_ id st).2)) = length (cities st)).
Proof.
  unfold load, savedIds. rewrite delete_cities. unfold delete_.
  destruct (findIndex id (cities st)) as [i|] eqn:E.
  - destruct (findIndex_Some _ _ _ E) as (r & Hr & Hid & Hfind).
    assert (Hin : id ∈ savedId <$> cities st).
    { rewrite <- Hid. apply list_elem_of_fmap. exists r. split; [done|].
      by eapply list_elem_of_lookup_2. }
    split_and!; try done.
    + intros Hnd. apply find_None. rewrite list_fmap_delete.
      intros Hdel. rewrite <- (take_drop_middle _ _ _ Hr) in Hnd.
      rewrite fmap_app, fmap_cons in Hnd.
      apply NoDup_app in Hnd as (_ & Hdisj & [Hnotin _]%NoDup_cons).
      rewrite <- list_fmap_delete in Hdel.
      rewrite delete_take_drop, fmap_app in Hdel.
      apply elem_of_app in Hdel as [Hl|Hl].
      * apply (Hdisj id Hl). rewrite Hid. apply list_elem_of_here.
      * by rewrite Hid in Hnotin.
    + intros id' Hne. apply (find_delete id' _ i r Hr). congruence.
    + intros _. rewrite length_delete by eauto.
      apply lookup_lt_Some in Hr. lia.
  - apply findIndex_None in E. split_and!; try done.
    + intros _. by apply find_None.
Qed.

Lemma orString_nonempty (v : option string) (fallback : string) :
  fallback <> "" -> orString v fallback <> "".
Proof.
  intros Hf. destruct v as [s|]; [|done]. simpl.
  destruct (String.eqb_spec s ""); done.
Qed.

(** Saving a City and loading it back, as the application does: the record
    that [load] finds for the City's id, given to [importData], makes the
    receiving City take the saved City's id, grid size, size key, grid and
    distribution, with statistics calculated afresh, and the name under
    which it was saved: the name given to [save], else the City's own, else
    "City" with a number.  This needs a size key that is not the empty
    string and a grid size other than 0. *)
Theorem import_of_saved (city c0 : City) (name_ : option string) (now : string)
    (st : CityStorage) (d : Distribution) :
  distribution city = Some d -> size city <> "" -> gridSize city <> 0 ->
  exists r c',
    load (cityId city) (save city name_ now st).2 = Some r /\
    importData (Some (savedAsPayload r)) c0 = Ret true c' /\
    cityId c' = cityId city /\ gridSize c' = gridSize city /\
    size c' = size city /\ grid c' = grid city /\
    distribution c' = Some d /\
    stats c' = statsOf (gridSize city) d /\
    name c' = savedName r /\
    savedName r =
      orString name_ (orString (Some (name city))
        ("City " +:+ pretty (length (cities st) + 1)%nat)).
Proof.
  intros Hd Hsize Hn.
  set (r := (save city name_ now st).1).
  assert (Hload : load (cityId city) (save city name_ now st).2 = Some r).
  { apply load_save. }
  assert (Hname : savedName r <> "").
  { unfold r, save. cbn [fst savedName]. by do 2 apply orString_nonempty. }
  destruct (importData_succeeds (savedAsPayload r) c0 (gridSize city) d)
    as (c' & Himport & Hid & Hnm & Hsz & ? & ? & ? & ? & _); try done.
  { unfold r, save. cbn [fst savedAsPayload dataDistribution savedDistribution].
    by rewrite Hd. }
  change (dataName _) with (Some (savedName r)) in Hnm.
  change (dataSize _) with (Some (size city)) in Hsz.
  rewrite orString_Some in Hnm, Hsz by done.
  exists r, c'. split_and!; try done. by apply Hid.
Qed.

(** *** The saved record and the live grid *)

Lemma setZoneRefs_changed (h : Store) (r : CityRefs) (x y : Z) (type : string)
    (rowRefs : list Ref) (rowRef : Ref) (row : list Zone) (old : Zone)
    (d : Distribution) (st : Stats) :
  0 <= x < refGridSize r -> 0 <= y < refGridSize r ->
  is_Some (ZONE_TYPES !! type) ->
  gridObjects h !! gridRef r = Some rowRefs ->
  at_index rowRefs y = Some rowRef ->
  rowObjects h !! rowRef = Some row ->
  at_index row x = Some old -> zoneType old <> type ->
  distributionObjects h !! distributionRef r = Some d ->
  statsObjects h !! statsRef r = Some st ->
  setZoneRefs x y type r h =
    Some (mkStore (gridObjects h)
            (<[rowRef := <[Z.to_nat x := mkZone type (refIdSupply r)]> row]>
               (rowObjects h))
            (<[distributionRef r := moveCount (zoneType old) type d]>
               (distributionObjects h))
            (<[statsRef r :=
                 statsOf (refGridSize r) (moveCount (zoneType old) type d)]>
               (statsObjects h)),
          mkCityRefs (gridRef r) (statsRef r) (distributionRef r)
            (refGridSize r) (S (refIdSupply r))).
Proof.
  intros Hx Hy Hcat Hg Hrr Hrow Hcell Hne Hd Hst. unfold setZoneRefs.
  assert (Hrange : (x <? 0) || (refGridSize r <=? x) || (y <? 0)
                   || (refGridSize r <=? y) = false).
  { rewrite !orb_false_iff, !Z.ltb_ge, !Z.leb_gt. lia. }
  rewrite Hrange, (proj2 (inCatalog_true type) Hcat), Hg. simpl.
  rewrite Hrr. simpl. rewrite Hrow. simpl. rewrite Hcell. simpl.
  rewrite (proj2 (String.eqb_neq _ _) Hne), Hd. simpl. rewrite Hst. done.
Qed.

(** The record that [save] builds keeps the City's own grid array and
    copies of its distribution and statistics.  After a later [setZone]
    that changes a cell, the grid read through the saved record shows the
    new zone, while the saved distribution and statistics are still those
    of the time of saving, where the City's own distribution has the count
    moved. *)
Theorem saved_record_shares_grid (h : Store) (r : CityRefs) (x y : Z)
    (type : string) (old : Zone) (d : Distribution) (st : Stats) :
  0 <= x < refGridSize r -> 0 <= y < refGridSize r ->
  is_Some (ZONE_TYPES !! type) ->
  readCell h (gridRef r) x y = Some old -> zoneType old <> type ->
  distributionObjects h !! distributionRef r = Some d ->
  statsObjects h !! statsRef r = Some st ->
  exists s h1 h2 r2,
    saveRefs r h = Some (s, h1) /\
    setZoneRefs x y type r h1 = Some (h2, r2) /\
    savedGridRef s = gridRef r2 /\
    readCell h1 (savedGridRef s) x y = Some old /\
    distributionObjects h1 !! savedDistributionRef s = Some d /\
    statsObjects h1 !! savedStatsRef s = Some st /\
    readCell h2 (savedGridRef s) x y = Some (mkZone type (refIdSupply r)) /\
    distributionObjects h2 !! savedDistributionRef s = Some d /\
    statsObjects h2 !! savedStatsRef s = Some st /\
    distributionObjects h2 !! distributionRef r2 =
      Some (moveCount (zoneType old) type d).
Proof.
  intros Hx Hy Hcat Hcell Hne Hd Hst.
  unfold readCell in Hcell.
  destruct (gridObjects h !! gridRef r) as [rowRefs|] eqn:Hg; [|done].
  simpl in Hcell.
  destruct (at_index rowRefs y) as [rowRef|] eqn:Hrr; [|done]. simpl in Hcell.
  destruct (rowObjects h !! rowRef) as [row|] eqn:Hrow; [|done]. simpl in Hcell.
  set (sref := fresh (dom (statsObjects h))).
  set (dref := fresh (dom (distributionObjects h))).
  assert (Hsref : sref <> statsRef r).
  { intros Heq. apply (is_fresh (dom (statsObjects h))). fold sref.
    rewrite Heq. apply elem_of_dom. by eexists. }
  assert (Hdref : dref <> distributionRef r).
  { intros Heq. apply (is_fresh (dom (distributionObjects h))). fold dref.
    rewrite Heq. apply elem_of_dom. by eexists. }
  set (h1 := mkStore (gridObjects h) (rowObjects h)
               (<[dref := d]> (distributionObjects h))
               (<[sref := st]> (statsObjects h))).
  assert (Hsave : saveRefs r h = Some (mkSavedRefs (gridRef r) sref dref, h1)).
  { unfold saveRefs. rewrite Hst, Hd. done. }
  pose proof (setZoneRefs_changed h1 r x y type rowRefs rowRef row old d st
                Hx Hy Hcat Hg Hrr Hrow Hcell Hne) as Hset.
  assert (Hd1 : distributionObjects h1 !! distributionRef r = Some d).
  { unfold h1. simpl. by rewrite lookup_insert_ne. }
  assert (Hst1 : statsObjects h1 !! statsRef r = Some st).
  { unfold h1. simpl. by rewrite lookup_insert_ne. }
  specialize (Hset Hd1 Hst1).
  eexists _, h1, _, _. split; [exact Hsave|]. split; [exact Hset|].
  cbn [savedGridRef savedStatsRef savedDistributionRef gridRef distributionRef
       distributionObjects statsObjects h1].
  split_and!; try done.
  - unfold readCell. simpl. rewrite Hg. simpl. rewrite Hrr. simpl. by rewrite Hrow.
  - by rewrite lookup_insert_eq.
  - by rewrite lookup_insert_eq.
  - unfold readCell. simpl. rewrite Hg. simpl. rewrite Hrr. simpl.
    rewrite lookup_insert_eq. simpl.
    apply at_index_Some. split; [lia|].
    apply list_lookup_insert_eq.
    apply at_index_Some in Hcell as [_ Hcell]. by eapply lookup_lt_Some.
  - rewrite lookup_insert_ne by done. by rewrite lookup_insert_eq.
  - rewrite lookup_insert_ne by done. by rewrite lookup_insert_eq.
  - by rewrite lookup_insert_eq.
Qed.

(** ** The demo generator *)

Lemma Qle_bool_false (a b : Q) : Qle_bool a b = false -> (b < a)%Q.
Proof.
  intros E. apply Qnot_le_lt. rewrite <- Qle_bool_iff. congruence.
Qed.

(** Decides every [Math.min] and [Math.max] of the goal and leaves linear
    arithmetic. *)
Ltac minmax :=
  unfold Math_minQ, Math_maxQ;
  repeat match goal with
         | |- context [Qle_bool ?a ?b] =>
           let E := fresh "E" in
           destruct (Qle_bool a b) eqn:E;
           [apply Qle_bool_iff in E|apply Qle_bool_false in E]
         end.

Ltac ratios :=
  unfold nonNegative, withinHalf in *;
  cbn [ratioResidential ratioCommercial ratioIndustrial ratioGreen ratioTransit
       ratioRoad with_residential with_commercial with_industrial with_green
       with_transit with_road] in *.

Ltac adjustment :=
  intros;
  repeat match goal with
         | |- context [if ?b then _ else _] =>
           lazymatch b with
           | Qle_bool _ _ => fail
           | _ => destruct b
           end
         end;
  ratios; minmax; split_and!; lra.

Lemma greenSpaceAdjustments_keeps (lower : string) (r : Ratios) :
  nonNegative r ->
  nonNegative (greenSpaceAdjustments lower r) /\
  (withinHalf r -> withinHalf (greenSpaceAdjustments lower r)).
Proof. unfold greenSpaceAdjustments. cbv zeta. split; adjustment. Qed.

Lemma transitAdjustments_keeps (lower : string) (r : Ratios) :
  nonNegative r ->
  nonNegative (transitAdjustments lower r) /\
  (withinHalf r -> withinHalf (transitAdjustments lower r)).
Proof. unfold transitAdjustments. cbv zeta. split; adjustment. Qed.

Lemma industrialAdjustments_keeps (lower : string) (r : Ratios) :
  nonNegative r ->
  nonNegative (industrialAdjustments lower r) /\
  (withinHalf r -> withinHalf (industrialAdjustments lower r)).
Proof. unfold industrialAdjustments. cbv zeta. split; adjustment. Qed.

Lemma commercialAdjustments_keeps (lower : string) (r : Ratios) :
  nonNegative r ->
  nonNegative (commercialAdjustments lower r) /\
  (withinHalf r -> withinHalf (commercialAdjustments lower r)).
Proof. unfold commercialAdjustments. split; adjustment. Qed.

Lemma populationAdjustments_keeps (lower : string) (r : Ratios) :
  nonNegative r ->
  nonNegative (populationAdjustments lower r) /\
  (withinHalf r -> withinHalf (populationAdjustments lower r)).
Proof.
  unfold populationAdjustments.
  destruct (matchPopulation platform lower) as [groups|]; [|done].
  destruct (promptPopulation groups) as [pop|]; [|done].
  split; adjustment.
Qed.

Lemma scaled_ratio (x t : Q) :
  (0 <= x)%Q -> (95 # 100 < t)%Q ->
  (0 <= x * ((95 # 100) / t) /\ x * ((95 # 100) / t) <= x)%Q.
Proof.
  intros Hx Ht.
  assert (H0 : (0 <= (95 # 100) / t)%Q) by (apply Qle_shift_div_l; lra).
  assert (H1 : ((95 # 100) / t <= 1)%Q) by (apply Qle_shift_div_r; lra).
  set (f := ((95 # 100) / t)%Q) in *. clearbody f. split; nra.
Qed.

Lemma normalizeRatios_keeps (r : Ratios) :
  nonNegative r ->
  nonNegative (normalizeRatios r) /\
  (withinHalf r -> withinHalf (normalizeRatios r)) /\
  (total (normalizeRatios r) <= 95 # 100)%Q /\
  ((95 # 100 < total r)%Q -> (total (normalizeRatios r) == 95 # 100)%Q) /\
  ((total r <= 95 # 100)%Q -> normalizeRatios r = r).
Proof.
  intros Hr. unfold normalizeRatios.
  destruct (Qltb (95 # 100) (total r)) eqn:E.
  - apply Qltb_lt in E. cbv zeta.
    destruct r as [a b c d e f]. unfold total in *. ratios.
    destruct Hr as (Ha & Hb & Hc & Hd & He & Hf).
    set (t := (a + b + c + d + e + f)%Q) in *.
    destruct (scaled_ratio a t Ha E), (scaled_ratio b t Hb E),
      (scaled_ratio c t Hc E), (scaled_ratio d t Hd E),
      (scaled_ratio e t He E), (scaled_ratio f t Hf E).
    assert (Hsum : (a * ((95 # 100) / t) + b * ((95 # 100) / t)
                    + c * ((95 # 100) / t) + d * ((95 # 100) / t)
                    + e * ((95 # 100) / t) + f * ((95 # 100) / t)
                    == 95 # 100)%Q).
    { transitivity (t * ((95 # 100) / t))%Q; [unfold t; ring|].
      field. lra. }
    split_and!; lra.
  - assert (Hle : (total r <= 95 # 100)%Q).
    { apply Qnot_lt_le. intros Hlt. apply Qltb_lt in Hlt. congruence. }
    split_and!; try done. intros Hlt. lra.
Qed.



Lemma analyzePrompt_cityTypes (prompt : string) : analyzePrompt prompt ∈ cityTypes.
Proof.
  unfold analyzePrompt, cityTypes. cbv zeta.
  repeat match goal with
         | |- context [if ?b then _ else _] => destruct b
         end; set_solver.
Qed.

Lemma orRatio_notNegative (v : option Q) (fallback : Q) :
  notNegative v -> (0 <= fallback)%Q -> (0 <= orRatio v fallback)%Q.
Proof.
  intros Hv Hf. destruct v as [q|]; [|done]. simpl in *.
  by destruct (Qeq_bool q 0).
Qed.

Lemma default_notNegative (v : option Q) (fallback : Q) :
  notNegative v -> (0 <= fallback)%Q -> (0 <= default fallback v)%Q.
Proof. intros Hv Hf. by destruct v. Qed.


End CityModel.

(** ** The scenarios, evaluated on the sample tables *)

Lemma sampleScore_percent (d : Distribution) : percent (sampleScore d).
Proof. simpl. lia. Qed.

Lemma sampleZoneTypes_keys (k : string) :
  is_Some (sampleZoneTypes !! k) -> k ∈ zoneKeys.
Proof.
  intros [v Hv]. destruct (decide (k ∈ zoneKeys)) as [Hin|Hout]; [done|].
  unfold zoneKeys in Hout. rewrite !elem_of_cons, elem_of_nil in Hout.
  unfold sampleZoneTypes in Hv.
  rewrite !lookup_insert_ne in Hv by (intros <-; tauto).
  by rewrite lookup_empty in Hv.
Qed.

Lemma cityOf_new (n : Z) :
  newCity sampleCitySizes (SizeNumber n) 0 = Some (cityOf sampleCitySizes (SizeNumber n)).
Proof.
  unfold cityOf. destruct (newCity _ _ _) as [c0|] eqn:E; [done|].
  exfalso. revert E. unfold newCity, constructor.
  rewrite (bind_Ret generateId _ (blank 0) _ _ eq_refl).
  rewrite (bind_Ret (modify _) _ _ _ _ eq_refl).
  rewrite (bind_Ret (modify _) _ _ _ _ eq_refl).
  rewrite (bind_Ret (assignSize sampleCitySizes (SizeNumber n)) _ _ _ _ eq_refl).
  match goal with
  | |- context [bind resetGrid _ ?c] =>
    destruct (resetGrid_effect c) as (g & Hg & _);
    rewrite (bind_Ret _ _ _ _ _ Hg)
  end.
  discriminate.
Qed.

(** C1, counterexample.  A 2 by 2 City gets a residential zone at (0, 0),
    which nothing saves.  Then saveState(); setZone(1, 1, "green"); undo():
    [undo] succeeds, and the zone at (0, 0), residential just before the
    mutation, is empty again. *)
Lemma undo_discards_unsaved_edit :
  let c := editedCity sampleZoneTypes sampleCitySizes sampleScore in
  let c1 := thenCalls sampleZoneTypes sampleScore [CallSaveState] c in
  let c2 := thenCalls sampleZoneTypes sampleScore [CallSetZone 1 1 "green"] c1 in
  let c3 := thenCalls sampleZoneTypes sampleScore [CallUndo] c2 in
  saveState c = Ret tt c1 /\
  setZone sampleZoneTypes sampleScore 1 1 "green" c1 = Ret tt c2 /\
  undo c2 = Ret true c3 /\
  zoneType <$> cellAt (grid c1) 0 0 = Some "residential" /\
  zoneType <$> cellAt (grid c3) 0 0 = Some "empty" /\
  grid c3 <> grid c1.
Proof.
  cbv zeta. split_and!; try (vm_compute; reflexivity).
  vm_compute. discriminate.
Qed.

(** C1 at a new 2 by 2 City: saveState(); setZone(1, 1, "green"); undo()
    gives back the grid, distribution and stats of the constructor's
    snapshot. *)
Lemma undo_after_save_and_edit_witness :
  let c := cityOf sampleCitySizes (SizeNumber 2) in
  let c1 := thenCalls sampleZoneTypes sampleScore [CallSaveState] c in
  let c2 := thenCalls sampleZoneTypes sampleScore [CallSetZone 1 1 "green"] c1 in
  exists c3,
    undo c2 = Ret true c3 /\
    grid c3 = snapGrid (snapshot c) /\
    distribution c3 = Some (snapDistribution (snapshot c)) /\
    stats c3 = snapStats (snapshot c) /\
    (synced c ->
     grid c3 = grid c1 /\ distribution c3 = distribution c1 /\ stats c3 = stats c1).
Proof.
  cbv zeta.
  apply (undo_after_save_and_edit
           (cityOf sampleCitySizes (SizeNumber 2))
           (thenCalls sampleZoneTypes sampleScore [CallSaveState]
              (cityOf sampleCitySizes (SizeNumber 2)))
           (thenCalls sampleZoneTypes sampleScore [CallSetZone 1 1 "green"]
              (thenCalls sampleZoneTypes sampleScore [CallSaveState]
                 (cityOf sampleCitySizes (SizeNumber 2))))
           (setZone sampleZoneTypes sampleScore 1 1 "green")
           (snapshot (cityOf sampleCitySizes (SizeNumber 2)))).
  - apply (newCity_cursorValid sampleCitySizes (SizeNumber 2) 0). apply cityOf_new.
  - vm_compute. reflexivity.
  - vm_compute. reflexivity.
  - vm_compute. reflexivity.
  - vm_compute. reflexivity.
  - vm_compute. reflexivity.
Defined.



(** C4, counterexample.  The 10 by 10 City filled with residential zones
    has transitScore 20, not 0. *)
Lemma residential_city_transit_score :
  let c := residentialCity sampleZoneTypes sampleCitySizes sampleScore in
  let o := calculateStats sampleZoneTypes sampleScore c in
  Forall (Forall (fun z => zoneType z = "residential")) (grid c) /\
  length (concat (grid c)) = 100%nat /\
  (greenCoverage ∘ stats) <$> returned o = Some (Some 0) /\
  (transitScore ∘ stats) <$> returned o = Some (Some 20) /\
  (airQuality ∘ stats) <$> returned o = Some (Some 60) /\
  (transitScore ∘ stats) <$> returned o <> Some (Some 0).
Proof.
  cbv zeta. split_and!; try (vm_compute; reflexivity).
  - vm_compute. repeat constructor.
  - vm_compute. discriminate.
Qed.

Lemma residentialCity_reachable :
  reachable sampleZoneTypes sampleCitySizes sampleScore
    (residentialCity sampleZoneTypes sampleCitySizes sampleScore).
Proof.
  exists (SizeNumber 10), 0%nat, (cityOf sampleCitySizes (SizeNumber 10)),
         [CallFillArea 0 0 9 9 "residential"].
  split; [apply cityOf_new|]. vm_compute. reflexivity.
Qed.

(** C4 at the 10 by 10 City that fillArea(0, 0, 9, 9, "residential")
    leaves. *)
Lemma residential_city_stats_witness :
  exists c',
    calculateStats sampleZoneTypes sampleScore
      (residentialCity sampleZoneTypes sampleCitySizes sampleScore) = Ret tt c' /\
    greenCoverage (stats c') = Some 0 /\
    transitScore (stats c') = Some 20 /\
    airQuality (stats c') = Some 60.
Proof.
  apply (residential_city_stats sampleZoneTypes sampleScore).
  - destruct (reachable_consistent sampleZoneTypes sampleCitySizes sampleScore
                _ residentialCity_reachable) as [Hc|Hneg]; [exact Hc|].
    exfalso. revert Hneg. vm_compute. discriminate.
  - vm_compute. reflexivity.
  - vm_compute. repeat constructor.
Defined.

(** C5 at [new CityModel(10)]. *)
Lemma new_city_stats_are_not_calculated_witness :
  let c0 := cityOf sampleCitySizes (SizeNumber 10) in
  airQuality (stats c0) = Some 70 /\
  (exists d, distribution c0 = Some d /\
             airQuality (statsOf sampleZoneTypes sampleScore (gridSize c0) d) = Some 60 /\
             stats c0 <> statsOf sampleZoneTypes sampleScore (gridSize c0) d) /\
  (exists c', clear sampleZoneTypes sampleScore c0 = Ret tt c' /\
              airQuality (stats c') = Some 60) /\
  (exists s, history c0 = [s] /\ airQuality (snapStats s) = Some 70).
Proof.
  cbv zeta.
  apply (new_city_stats_are_not_calculated sampleZoneTypes sampleCitySizes sampleScore
           (SizeNumber 10) 0).
  apply cityOf_new.
Defined.

(** C6 at the 10 by 10 residential City, with the constant score 50. *)
Lemma bounded_indicators_witness :
  let c := residentialCity sampleZoneTypes sampleCitySizes sampleScore in
  percent (transitScore (stats c)) /\ percent (walkability (stats c)) /\
  percent (airQuality (stats c)) /\ percent (energyEfficiency (stats c)) /\
  percent (greenCoverage (stats c)) /\ percent (sustainabilityScore (stats c)).
Proof.
  cbv zeta.
  apply (bounded_indicators sampleZoneTypes sampleCitySizes sampleScore).
  - exact sampleScore_percent.
  - apply residentialCity_reachable.
Defined.


(** The history cap on sixty saved edits of a 2 by 2 City: fifty snapshots
    stay and the cursor is on the last one; after forty-nine [undo] calls the
    cursor is 0, the grid is the one of the oldest snapshot that was kept,
    and a further [undo] fails. *)
Example sixty_saved_edits :
  let c0 := cityOf sampleCitySizes (SizeNumber 2) in
  let c := thenCalls sampleZoneTypes sampleScore sixtyEdits c0 in
  let back := thenCalls sampleZoneTypes sampleScore (replicate 49 CallUndo) c in
  (length (history c), historyIndex c, historyIndex back,
   result (undo back),
   map (map zoneType) <$> (snapGrid <$> head (history c)),
   map (map zoneType) (grid back))
  = (50%nat, 49, 0, Some false,
     Some [["green"; "green"]; ["green"; "road"]],
     [["green"; "green"]; ["green"; "road"]]).
Proof. vm_compute. reflexivity. Qed.


(** C9, counterexample.  On a 9 by 9 grid the spacing is 2 and the
    intersections lie at 2, 4, 6 and 8 on both axes: 16 of them.  The
    clusters touch one another, and those at 8 reach past the edge, so
    [generateLayout] leaves 49 transit cells, not 64. *)
Lemma nine_by_nine_transit_cells :
  let c := cityOf sampleCitySizes (SizeNumber 9) in
  let call := CallGenerateLayout (fun _ => 0%Q) quietParams in
  let c' := thenCalls sampleZoneTypes sampleScore [call] c in
  generateLayout sampleZoneTypes sampleScore (fun _ => 0%Q) quietParams c = Ret tt c' /\
  intersections 9 = 16 /\
  transitCells c' = 49 /\
  transitCells c' <> 4 * intersections 9.
Proof.
  cbv zeta. split_and!; try (vm_compute; reflexivity).
  vm_compute. discriminate.
Qed.

(** C9 at an 8 by 8 City, with every random draw 0. *)
Lemma transit_hub_cells_witness :
  let c := cityOf sampleCitySizes (SizeNumber 8) in
  exists c',
    generateLayout sampleZoneTypes sampleScore (fun _ => 0%Q) quietParams c = Ret tt c' /\
    gridSize c' = gridSize c /\
    (forall x y z, cellAt (grid c') x y = Some z ->
       (zoneType z = "transit" <->
        hubCoord (gridSize c) x = true /\ hubCoord (gridSize c) y = true)) /\
    transitCells c' = hubSpan (gridSize c) * hubSpan (gridSize c) /\
    ((gridSize c - 1) mod (gridSize c / 4) <> 0 ->
     transitCells c' = 4 * intersections (gridSize c)).
Proof.
  cbv zeta.
  apply (transit_hub_cells sampleZoneTypes sampleScore).
  - exists (mkZoneInfo 0 30). reflexivity.
  - reflexivity.
  - reflexivity.
  - intros k. apply Qle_refl.
  - vm_compute. discriminate.
Defined.

(** C10 on the store of a 2 by 2 City of empty zones: the cell (1, 0) read
    through the export object is empty before setZone(1, 0, "green") and
    green after it. *)
Lemma export_shares_live_objects_witness :
  exists h' r',
    setZoneRefs sampleZoneTypes sampleScore 1 0 "green" sampleRefs sampleStore
      = Some (h', r') /\
    gridRef r' = exportGridRef (exportDataRefs sampleRefs) /\
    statsRef r' = exportStatsRef (exportDataRefs sampleRefs) /\
    distributionRef r' = exportDistributionRef (exportDataRefs sampleRefs) /\
    readCell sampleStore (exportGridRef (exportDataRefs sampleRefs)) 1 0
      = Some (mkZone "empty" 2) /\
    readCell h' (exportGridRef (exportDataRefs sampleRefs)) 1 0
      = Some (mkZone "green" (refIdSupply sampleRefs)) /\
    statsObjects h' !! exportStatsRef (exportDataRefs sampleRefs) =
      Some (statsOf sampleZoneTypes sampleScore (refGridSize sampleRefs)
              (moveCount (zoneType (mkZone "empty" 2)) "green" (emptyDistribution 2))) /\
    distributionObjects h' !! exportDistributionRef (exportDataRefs sampleRefs) =
      Some (moveCount (zoneType (mkZone "empty" 2)) "green" (emptyDistribution 2)).
Proof.
  apply (export_shares_live_objects sampleZoneTypes sampleScore sampleStore sampleRefs
           1 0 "green" (mkZone "empty" 2) (emptyDistribution 2) initialStats).
  - simpl. lia.
  - simpl. lia.
  - exists (mkZoneInfo 0 5). reflexivity.
  - reflexivity.
  - simpl. discriminate.
  - reflexivity.
  - reflexivity.
Defined.

(** ** The further properties, on the sample tables *)

(** The cursor of a City given in full is valid. *)
Ltac cursor_by_computation :=
  unfold cursorValid;
  match goal with
  | |- context [historyIndex ?c] =>
    let i := eval vm_compute in (historyIndex c) in
    let n := eval vm_compute in (length (history c)) in
    replace (historyIndex c) with i by (vm_compute; reflexivity);
    replace (length (history c)) with n by (vm_compute; reflexivity)
  end; lia.

Lemma undoneCity_reachable :
  reachable sampleZoneTypes sampleCitySizes sampleScore
    (undoneCity sampleZoneTypes sampleCitySizes sampleScore).
Proof.
  exists (SizeNumber 10), 0%nat, (cityOf sampleCitySizes (SizeNumber 10)),
         [CallFillArea 0 0 9 9 "residential"; CallUndo].
  split; [apply cityOf_new|]. vm_compute. reflexivity.
Qed.

(** [redo_after_undo] at the 10 by 10 residential City, which [fillArea]
    left on its second snapshot. *)
Lemma redo_after_undo_witness :
  let c := residentialCity sampleZoneTypes sampleCitySizes sampleScore in
  exists c1,
    undo c = Ret true c1 /\
    redo c1 = Ret true (restore (snapshot c) c) /\
    (synced c -> restore (snapshot c) c = c).
Proof.
  cbv zeta.
  apply (redo_after_undo
           (residentialCity sampleZoneTypes sampleCitySizes sampleScore)
           (snapshot (residentialCity sampleZoneTypes sampleCitySizes sampleScore))).
  - cursor_by_computation.
  - vm_compute. reflexivity.
  - vm_compute. reflexivity.
Defined.

(** [saveState_discards_redo] at the residential City after [undo], where
    one snapshot lies beyond the cursor. *)
Lemma saveState_discards_redo_witness :
  let c := undoneCity sampleZoneTypes sampleCitySizes sampleScore in
  exists c',
    saveState c = Ret tt c' /\
    historyIndex c' = Z.of_nat (length (history c')) - 1 /\
    Z.of_nat (length (history c')) = Z.min 50 (historyIndex c + 2) /\
    at_index (history c') (historyIndex c') = Some (snapshot c) /\
    (historyIndex c + 2 <= 50 ->
     forall j, 0 <= j <= historyIndex c ->
       at_index (history c') j = at_index (history c) j) /\
    redo c' = Ret false c'.
Proof.
  cbv zeta. apply saveState_discards_redo. cursor_by_computation.
Defined.

(** [getZone_after_setZone] at a new 2 by 2 City and setZone(1, 0,
    "green"). *)
Lemma getZone_after_setZone_witness :
  let c := cityOf sampleCitySizes (SizeNumber 2) in
  exists c' z,
    setZone sampleZoneTypes sampleScore 1 0 "green" c = Ret tt c' /\
    getZone 1 0 c' = Ret (Some z) c' /\ zoneType z = "green" /\
    (forall x' y', ~ (x' = 1 /\ y' = 0) ->
       exists r, getZone x' y' c = Ret r c /\ getZone x' y' c' = Ret r c') /\
    (forall x' y', ~ (0 <= x' < gridSize c' /\ 0 <= y' < gridSize c') ->
       getZone x' y' c' = Ret None c').
Proof.
  cbv zeta.
  apply (getZone_after_setZone sampleZoneTypes sampleScore).
  - apply (newCity_consistent sampleCitySizes (SizeNumber 2) 0).
    + apply cityOf_new.
    + vm_compute. discriminate.
  - vm_compute. split; [discriminate|reflexivity].
  - vm_compute. split; [discriminate|reflexivity].
  - exists (mkZoneInfo 0 5). reflexivity.
Defined.


(** [fillArea_paints_rectangle] at a new 3 by 3 City and a rectangle that
    reaches past the grid, its corners given from right to left. *)
Lemma fillArea_paints_rectangle_witness :
  let c := cityOf sampleCitySizes (SizeNumber 3) in
  exists c',
    fillArea sampleZoneTypes sampleScore 2 2 1 5 "green" c = Ret tt c' /\
    consistent c' /\ gridSize c' = gridSize c /\
    (forall x y z, cellAt (grid c') x y = Some z ->
       (inRect 2 2 1 5 x y -> zoneType z = "green") /\
       (~ inRect 2 2 1 5 x y -> cellAt (grid c) x y = Some z)) /\
    cursorValid c' /\ synced c'.
Proof.
  cbv zeta.
  apply (fillArea_paints_rectangle sampleZoneTypes sampleScore).
  - apply (newCity_consistent sampleCitySizes (SizeNumber 3) 0).
    + apply cityOf_new.
    + vm_compute. discriminate.
  - apply (newCity_cursorValid sampleCitySizes (SizeNumber 3) 0). apply cityOf_new.
  - exists (mkZoneInfo 0 5). reflexivity.
Defined.

(** [distribution_counts_cells] at the 10 by 10 residential City. *)
Lemma distribution_counts_cells_witness :
  let c := residentialCity sampleZoneTypes sampleCitySizes sampleScore in
  (exists d, distribution c = Some d /\
     squareGrid (gridSize c) (grid c) /\
     forall k, k ∈ zoneKeys -> count d k = Some (countType k (grid c))) /\
  Forall (fun s =>
            squareGrid (gridSize c) (snapGrid s) /\
            forall k, k ∈ zoneKeys ->
              count (snapDistribution s) k = Some (countType k (snapGrid s)))
         (history c).
Proof.
  cbv zeta.
  apply (distribution_counts_cells sampleZoneTypes sampleCitySizes sampleScore).
  - apply residentialCity_reachable.
  - vm_compute. discriminate.
Defined.

(** [import_of_export]: a new 2 by 2 City takes in what the 10 by 10
    residential City exports. *)
Lemma import_of_export_witness :
  let c := residentialCity sampleZoneTypes sampleCitySizes sampleScore in
  let c0 := cityOf sampleCitySizes (SizeNumber 2) in
  let d := default ∅ (distribution c) in
  exists c',
    importData sampleZoneTypes sampleCitySizes sampleScore
      (Some (exportAsPayload (exportData c))) c0 = Ret true c' /\
    cityId c' = cityId c /\ name c' = name c /\ size c' = size c /\
    gridSize c' = gridSize c /\ grid c' = grid c /\
    distribution c' = distribution c /\
    stats c' = statsOf sampleZoneTypes sampleScore (gridSize c) d /\
    targetPopulation c' = targetPopulation c0 /\
    (cursorValid c0 ->
     cursorValid c' /\ synced c' /\ redo c' = Ret false c').
Proof.
  cbv zeta.
  apply (import_of_export sampleZoneTypes sampleCitySizes sampleScore).
  - vm_compute. reflexivity.
  - vm_compute. discriminate.
  - vm_compute. discriminate.
  - vm_compute. discriminate.
Defined.

(** [undo_after_import]: the 2 by 2 City that has imported the 10 by 10
    residential City, and [undo]. *)
Lemma undo_after_import_witness :
  let c0 := cityOf sampleCitySizes (SizeNumber 2) in
  let c1 := importedCity sampleZoneTypes sampleCitySizes sampleScore in
  let s := snapshot c0 in
  exists c2,
    undo c1 = Ret true c2 /\
    grid c2 = snapGrid s /\ distribution c2 = Some (snapDistribution s) /\
    stats c2 = snapStats s /\
    gridSize c2 = gridSize c1 /\ name c2 = name c1 /\ size c2 = size c1 /\
    cityId c2 = cityId c1 /\
    (squareGrid (gridSize c0) (snapGrid s) -> 0 <= gridSize c0 < gridSize c1 ->
     forall type, is_Some (sampleZoneTypes !! type) ->
       setZone sampleZoneTypes sampleScore 0 (gridSize c0) type c2 = Throw c2).
Proof.
  cbv zeta.
  apply (undo_after_import sampleZoneTypes sampleCitySizes sampleScore
           (cityOf sampleCitySizes (SizeNumber 2))
           (importedCity sampleZoneTypes sampleCitySizes sampleScore)
           (residentialPayload sampleZoneTypes sampleCitySizes sampleScore)).
  - apply (newCity_cursorValid sampleCitySizes (SizeNumber 2) 0). apply cityOf_new.
  - vm_compute. reflexivity.
  - vm_compute. reflexivity.
Defined.

(** [import_accepts_short_grid]: a new 2 by 2 City takes in the payload for
    a 3 by 3 City whose grid has no rows. *)
Lemma import_accepts_short_grid_witness :
  let c0 := cityOf sampleCitySizes (SizeNumber 2) in
  exists c1,
    importData sampleZoneTypes sampleCitySizes sampleScore (Some shortPayload) c0
      = Ret true c1 /\
    gridSize c1 = 3 /\ grid c1 = dataGrid shortPayload /\
    forall x, 0 <= x < 3 ->
      getZone x (Z.of_nat (length (dataGrid shortPayload))) c1 = Throw c1 /\
      forall type, is_Some (sampleZoneTypes !! type) ->
        setZone sampleZoneTypes sampleScore x
          (Z.of_nat (length (dataGrid shortPayload))) type c1 = Throw c1.
Proof.
  cbv zeta.
  apply (import_accepts_short_grid sampleZoneTypes sampleCitySizes sampleScore
           shortPayload (cityOf sampleCitySizes (SizeNumber 2)) 3
           (emptyDistribution 3)).
  - reflexivity.
  - reflexivity.
  - vm_compute. reflexivity.
Defined.

(** [fillArea_undo_redo] at a new 3 by 3 City. *)
Lemma fillArea_undo_redo_witness :
  let c := cityOf sampleCitySizes (SizeNumber 3) in
  exists c1 c2 c3,
    fillArea sampleZoneTypes sampleScore 0 0 1 2 "green" c = Ret tt c1 /\
    undo c1 = Ret true c2 /\
    grid c2 = grid c /\ distribution c2 = distribution c /\ stats c2 = stats c /\
    redo c2 = Ret true c3 /\
    grid c3 = grid c1 /\ distribution c3 = distribution c1 /\ stats c3 = stats c1.
Proof.
  cbv zeta.
  apply (fillArea_undo_redo sampleZoneTypes sampleScore).
  - apply (newCity_consistent sampleCitySizes (SizeNumber 3) 0).
    + apply cityOf_new.
    + vm_compute. discriminate.
  - apply (newCity_cursorValid sampleCitySizes (SizeNumber 3) 0). apply cityOf_new.
  - apply (newCity_cursorValid sampleCitySizes (SizeNumber 3) 0). apply cityOf_new.
Defined.

(** [generateLayout_small_grid] at a new 5 by 5 City. *)
Lemma generateLayout_small_grid_witness :
  generateLayout sampleZoneTypes sampleScore (fun _ => 0%Q) quietParams
    (cityOf sampleCitySizes (SizeNumber 5)) = Diverge.
Proof.
  apply generateLayout_small_grid.
  vm_compute. split; discriminate.
Defined.

(** [carbonFootprint_range] at the 10 by 10 residential City. *)
Lemma carbonFootprint_range_witness :
  exists c' v,
    calculateStats sampleZoneTypes sampleScore
      (residentialCity sampleZoneTypes sampleCitySizes sampleScore) = Ret tt c' /\
    carbonFootprint (stats c') = Some v /\ -160 <= v <= 200.
Proof.
  apply carbonFootprint_range.
  destruct (reachable_consistent sampleZoneTypes sampleCitySizes sampleScore
              _ residentialCity_reachable) as [Hc|Hneg]; [exact Hc|].
  exfalso. revert Hneg. vm_compute. discriminate.
Defined.

(** [generateRoadNetwork_roads] at a new 8 by 8 City. *)
Lemma generateRoadNetwork_roads_witness :
  let c := cityOf sampleCitySizes (SizeNumber 8) in
  exists c',
    generateRoadNetwork sampleZoneTypes sampleScore c = Ret tt c' /\
    consistent c' /\ gridSize c' = gridSize c /\
    history c' = history c /\ historyIndex c' = historyIndex c /\
    forall x y z, cellAt (grid c') x y = Some z ->
      (onRoad (gridSize c) x y = true -> zoneType z = "road") /\
      (onRoad (gridSize c) x y = false -> cellAt (grid c) x y = Some z).
Proof.
  cbv zeta.
  apply generateRoadNetwork_roads.
  - apply (newCity_consistent sampleCitySizes (SizeNumber 8) 0).
    + apply cityOf_new.
    + vm_compute. discriminate.
  - vm_compute. discriminate.
  - exists (mkZoneInfo 0 0). reflexivity.
Defined.

(** [storage_stays_ok] at the storage of ten saved Cities. *)
Lemma storage_stays_ok_witness :
  let st := tenSaved sampleCitySizes smallQuota in
  let city := residentialCity sampleZoneTypes sampleCitySizes sampleScore in
  storageOk (save smallQuota city (Some "Suburbia") "2024-02-02" st).2 /\
  storageOk (delete_ smallQuota 104%nat st).2 /\
  storageOk (clearAll st) /\
  (cityId city ∈ savedIds st ->
   savedIds (save smallQuota city (Some "Suburbia") "2024-02-02" st).2 = savedIds st).
Proof.
  cbv zeta. apply storage_stays_ok. split.
  - vm_compute. lia.
  - apply (bool_decide_unpack (NoDup _)). vm_compute. reflexivity.
Defined.

(** [save_evicts_oldest]: an eleventh City saved into the storage of ten. *)
Lemma save_evicts_oldest_witness :
  let st := tenSaved sampleCitySizes smallQuota in
  let city := residentialCity sampleZoneTypes sampleCitySizes sampleScore in
  let oldest := firstSaved sampleCitySizes smallQuota in
  let st' := (save smallQuota city None "2024-02-02" st).2 in
  cities st' = tail (cities st) ++ [(save smallQuota city None "2024-02-02" st).1] /\
  load (savedId oldest) st = Some oldest /\
  load (savedId oldest) st' = None /\
  forall id', id' <> savedId oldest -> id' <> cityId city ->
    load id' st' = load id' st.
Proof.
  cbv zeta. apply save_evicts_oldest.
  - apply (bool_decide_unpack (NoDup _)). vm_compute. reflexivity.
  - vm_compute. reflexivity.
  - vm_compute. lia.
  - apply (bool_decide_unpack (_ ∉ _)). vm_compute. reflexivity.
Defined.

(** [save_keeps_others]: a City saved into an empty storage and a second
    one saved after it. *)
Lemma save_keeps_others_witness :
  let first := cityOf sampleCitySizes (SizeNumber 2) in
  let second := set_cityId 7%nat (cityOf sampleCitySizes (SizeNumber 3)) in
  let st := (save smallQuota first None "2024-01-01" (mkCityStorage [] None)).2 in
  load (cityId first) (save smallQuota second None "2024-01-02" st).2 =
  load (cityId first) st.
Proof.
  cbv zeta. apply save_keeps_others.
  - right. vm_compute. lia.
  - vm_compute. discriminate.
Defined.

(** [import_of_saved]: the residential City saved under a name and loaded
    into a new 2 by 2 City. *)
Lemma import_of_saved_witness :
  let city := residentialCity sampleZoneTypes sampleCitySizes sampleScore in
  let c0 := cityOf sampleCitySizes (SizeNumber 2) in
  let st := mkCityStorage [] None in
  let d := default ∅ (distribution city) in
  exists r c',
    load (cityId city) (save smallQuota city (Some "Suburbia") "2024-02-02" st).2
      = Some r /\
    importData sampleZoneTypes sampleCitySizes sampleScore
      (Some (savedAsPayload r)) c0 = Ret true c' /\
    cityId c' = cityId city /\ gridSize c' = gridSize city /\
    size c' = size city /\ grid c' = grid city /\
    distribution c' = Some d /\
    stats c' = statsOf sampleZoneTypes sampleScore (gridSize city) d /\
    name c' = savedName r /\
    savedName r =
      orString (Some "Suburbia") (orString (Some (name city))
        ("City " +:+ pretty (length (cities st) + 1)%nat)).
Proof.
  cbv zeta.
  apply (import_of_saved sampleZoneTypes sampleCitySizes sampleScore smallQuota).
  - vm_compute. reflexivity.
  - vm_compute. discriminate.
  - vm_compute. discriminate.
Defined.

(** [saved_record_shares_grid] on the store of a 2 by 2 City of empty
    zones, saved and then edited at (1, 0). *)
Lemma saved_record_shares_grid_witness :
  exists s h1 h2 r2,
    saveRefs sampleRefs sampleStore = Some (s, h1) /\
    setZoneRefs sampleZoneTypes sampleScore 1 0 "green" sampleRefs h1 = Some (h2, r2) /\
    savedGridRef s = gridRef r2 /\
    readCell h1 (savedGridRef s) 1 0 = Some (mkZone "empty" 2) /\
    distributionObjects h1 !! savedDistributionRef s = Some (emptyDistribution 2) /\
    statsObjects h1 !! savedStatsRef s = Some initialStats /\
    readCell h2 (savedGridRef s) 1 0 = Some (mkZone "green" (refIdSupply sampleRefs)) /\
    distributionObjects h2 !! savedDistributionRef s = Some (emptyDistribution 2) /\
    statsObjects h2 !! savedStatsRef s = Some initialStats /\
    distributionObjects h2 !! distributionRef r2 =
      Some (moveCount (zoneType (mkZone "empty" 2)) "green" (emptyDistribution 2)).
Proof.
  apply (saved_record_shares_grid sampleZoneTypes sampleScore sampleStore sampleRefs
           1 0 "green" (mkZone "empty" 2) (emptyDistribution 2) initialStats).
  - simpl. lia.
  - simpl. lia.
  - exists (mkZoneInfo 0 5). reflexivity.
  - reflexivity.
  - simpl. discriminate.
  - reflexivity.
  - reflexivity.
Defined.



(** On that prompt the adjusted ratios add up to 1.3 and are scaled to add
    up to 0.95; the residential ratio, raised to 0.45, comes out as
    171/520. *)
Example metro_prompt_ratios :
  let r := adjustFromPrompt samplePlatform metroPrompt
             defaultRatios in
  (total r == 95 # 100)%Q /\ (ratioResidential r == 171 # 520)%Q /\
  (ratioTransit r == 19 # 130)%Q.
Proof. cbv zeta. split_and!; vm_compute; reflexivity. Qed.
